(** * Palette entry editor (src/app/commands/cmd_palette_editor.cpp)

    A shallow embedding of [PaletteEntryEditor]: the three palette edit
    operations (hex entry, absolute slider change, relative slider change),
    the commit of the edited palette into the undo history of the active
    document, and the redraw timer.

    Integers ([int], [uint32_t], [color_t]) are [Z], the sums of [int]s
    wrapping around at 32 bits; [double] is the kernel's binary64
    [float]; the live palette and the selection mask are lists indexed
    by entry; [m_relDeltas] is a finite map.  The classes the
    editor works with but that live outside its source file (colours and
    their conversions, the document, its undo history, transactions) are
    either parameters ([Gfx], [DocLayer]) or small models marked as such.

    The file has four parts: the model, the vocabulary of the statements
    with sample collaborators for concrete runs, facts about the model,
    and the properties of the editor.  The model comes in two layers: the
    data members of the editor with the world they read and write, and,
    over them, the window as a whole (its widgets, its constructor, the
    events that reach it) with the command that opens and closes it.
    The commit is modelled twice: for the runs in which every object
    thrown is a [base::Exception], which the commit handles, and, in
    [Unwinding], for the runs in which an object of another class leaves
    it. *)

From Stdlib Require Import ZArith Lia Floats.
From stdpp Require Import base option list gmap strings pretty.

Local Open Scope Z_scope.

(** ** Pixel format (doc/color.h) *)

Module Pixel.

(** Modelled from the spec: "RGB8(r,g,b,a: 0-255 integers)".  The header
    doc/color.h is not part of the sources; [rgba] takes four [uint8_t]
    arguments (an [int] argument is reduced to its low eight bits) and
    packs them with red in the low byte and alpha in the high byte;
    [rgba_getr] and friends shift and mask. *)
Definition rgba_r_shift : Z := 0.
Definition rgba_g_shift : Z := 8.
Definition rgba_b_shift : Z := 16.
Definition rgba_a_shift : Z := 24.

Definition uint8 (x : Z) : Z := Z.land x 255.

Definition rgba (r g b a : Z) : Z :=
  Z.lor (Z.lor (Z.lor (Z.shiftl (uint8 r) rgba_r_shift)
                      (Z.shiftl (uint8 g) rgba_g_shift))
               (Z.shiftl (uint8 b) rgba_b_shift))
        (Z.shiftl (uint8 a) rgba_a_shift).

Definition rgba_getr (c : Z) : Z := Z.land (Z.shiftr c rgba_r_shift) 255.
Definition rgba_getg (c : Z) : Z := Z.land (Z.shiftr c rgba_g_shift) 255.
Definition rgba_getb (c : Z) : Z := Z.land (Z.shiftr c rgba_b_shift) 255.
Definition rgba_geta (c : Z) : Z := Z.land (Z.shiftr c rgba_a_shift) 255.

End Pixel.
Export Pixel.

(** ** Machine integers *)

(** The value of an [int] expression whose mathematical value is [x]: [x]
    itself when it fits 32 bits in two's complement, and [x] wrapped
    around modulo 2^32 when it does not, which is what the machines the
    editor runs on compute (the language leaves the overflow of a signed
    sum undefined). *)
Definition INT_MIN : Z := - 2 ^ 31.
Definition INT_MAX : Z := 2 ^ 31 - 1.
Definition to_int (x : Z) : Z := (x - INT_MIN) mod 2 ^ 32 + INT_MIN.

(** ** Clamping macros (base/base.h) *)

(** Modelled from the spec: "clamping to the channel's valid range".  The
    macros [MIN], [MAX] and [MID] come from base/base.h, which is not part
    of the sources; [MID x y z] is modelled as the clamp of [y] between
    the bounds [x] and [z], built from one comparison per bound. *)
Definition MIN (x y : Z) : Z := if x <? y then x else y.
Definition MAX (x y : Z) : Z := if x >? y then x else y.
Definition MID (x y z : Z) : Z := MAX x (MIN y z).

(** ** Doubles *)

Module Double.

Definition lt (x y : float) : bool := PrimFloat.ltb x y.
Definition gt (x y : float) : bool := lt y x.
Definition le (x y : float) : bool := PrimFloat.leb x y.

(** Conversion [int -> double] of the usual arithmetic conversions. *)
Definition of_int (z : Z) : float :=
  if z <? 0 then PrimFloat.opp (PrimFloat.of_uint63 (Uint63.of_Z (- z)))
  else PrimFloat.of_uint63 (Uint63.of_Z z).

(** The same macros at type [double]. *)
Definition MIN (x y : float) : float := if lt x y then x else y.
Definition MAX (x y : float) : float := if gt x y then x else y.
Definition MID (x y z : float) : float := MAX x (MIN y z).

(** A double that comparisons order: any value but a NaN. *)
Definition ordered (x : float) : Prop := Prim2SF x <> S754_nan.

End Double.

(** ** Colour values and conversions (app/color.h, gfx/rgb.h, gfx/hsv.h, gfx/hsl.h) *)

(** [ColorSliders::Channel], the channels named by the editor. *)
Inductive Channel : Set :=
  | Red | Green | Blue
  | HsvHue | HsvSaturation | HsvValue
  | HslHue | HslSaturation | HslLightness
  | Alpha.

#[global] Instance Channel_eq_dec : EqDecision Channel.
Proof. solve_decision. Defined.

Definition Channel_code (c : Channel) : nat :=
  match c with
  | Red => 0 | Green => 1 | Blue => 2
  | HsvHue => 3 | HsvSaturation => 4 | HsvValue => 5
  | HslHue => 6 | HslSaturation => 7 | HslLightness => 8
  | Alpha => 9
  end%nat.

Definition Channel_decode (n : nat) : option Channel :=
  match n with
  | 0 => Some Red | 1 => Some Green | 2 => Some Blue
  | 3 => Some HsvHue | 4 => Some HsvSaturation | 5 => Some HsvValue
  | 6 => Some HslHue | 7 => Some HslSaturation | 8 => Some HslLightness
  | 9 => Some Alpha
  | _ => None
  end%nat.

#[global] Instance Channel_countable : Countable Channel.
Proof.
  refine (inj_countable Channel_code Channel_decode _).
  intros []; reflexivity.
Defined.

(** [app::Color::Type]. *)
Inductive ColorType : Set :=
  | MaskType | RgbType | HsvType | HslType | GrayType | IndexType.

#[global] Instance ColorType_eq_dec : EqDecision ColorType.
Proof. solve_decision. Defined.

(** [app::Color] is declared in app/color.h, which is not part of the
    sources.  The editor only ever reads a colour through its getters, so
    a colour is modelled by what those getters return. *)
Record Color : Set := mkColor {
  isValid : bool;
  getType : ColorType;
  getRed : Z;
  getGreen : Z;
  getBlue : Z;
  getAlpha : Z;
  getHsvHue : float;
  getHsvSaturation : float;
  getHsvValue : float;
  getHslHue : float;
  getHslSaturation : float;
  getHslLightness : float
}.

(** [gfx::Rgb]: the three [int]s its constructor is given and its getters
    [red()], [green()] and [blue()] return. *)
Record Rgb : Set := mkRgb { red : Z; green : Z; blue : Z }.

(** [gfx::Hsv] and [gfx::Hsl] live in gfx/, which is not part of the
    sources: the editor is modelled over any implementation of the two
    classes.  For each the editor uses the default constructor, the
    converting constructor from [Rgb], the three getters, the three
    setters (written [hsv.hue(x)] in the source) and the converting
    constructor of [Rgb]. *)
Class Gfx : Type := {
  Hsv : Type;
  Hsv_new : Hsv;
  Hsv_of_Rgb : Rgb -> Hsv;
  Hsv_hue : Hsv -> float;
  Hsv_saturation : Hsv -> float;
  Hsv_value : Hsv -> float;
  Hsv_set_hue : float -> Hsv -> Hsv;
  Hsv_set_saturation : float -> Hsv -> Hsv;
  Hsv_set_value : float -> Hsv -> Hsv;
  Rgb_of_Hsv : Hsv -> Rgb;
  Hsl : Type;
  Hsl_new : Hsl;
  Hsl_of_Rgb : Rgb -> Hsl;
  Hsl_hue : Hsl -> float;
  Hsl_saturation : Hsl -> float;
  Hsl_lightness : Hsl -> float;
  Hsl_set_hue : float -> Hsl -> Hsl;
  Hsl_set_saturation : float -> Hsl -> Hsl;
  Hsl_set_lightness : float -> Hsl -> Hsl;
  Rgb_of_Hsl : Hsl -> Rgb
}.

(** ** Palettes and selections (doc/palette.h, doc/palette_picks.h, app/ui/palette_view.h) *)

(** A [doc::Palette] is its vector of colours; a [doc::PalettePicks] is its
    vector of flags. *)
Abbreviation Palette := (list Z).
Abbreviation PalettePicks := (list bool).

(** [Palette::getEntry] and [Palette::setEntry] ASSERT that the index is in
    range.  The loops below only call them with [c < palette->size()]; an
    index outside the vector reads as 0 and writes nothing in the model,
    and the theorems about single entries ask for the index to be in
    range. *)
Definition getEntry (palette : Palette) (c : nat) : Z := default 0 (palette !! c).
Definition setEntry (palette : Palette) (c : nat) (color : Z) : Palette :=
  <[c := color]> palette.

(** [entries[c]] and [entries.picks()]. *)
Definition pick_at (entries : PalettePicks) (c : nat) : bool :=
  default false (entries !! c).
Definition picks (entries : PalettePicks) : Z :=
  Z.of_nat (length (filter (fun b : bool => b = true) entries)).

(** What the editor reads from [ColorBar::instance()->getPaletteView()]. *)
Record PaletteView : Set := mkPaletteView {
  getSelectedEntries : PalettePicks;
  getSelectedEntry : Z
}.

(** [PaletteEntryEditor::getPicks] *)
Definition getPicks (palView : PaletteView) : PalettePicks :=
  let picks0 := getSelectedEntries palView in
  if picks picks0 =? 0 then
    let i := getSelectedEntry palView in
    if (i >=? 0) && (i <? Z.of_nat (length picks0))
    then <[Z.to_nat i := true]> picks0
    else picks0
  else picks0.

(** [for (int c=0; c<palette->size(); c++) body]: the size is read from the
    palette the loop starts with; no body changes it. *)
Definition for_each_entry {S : Type} (size : nat) (body : nat -> S -> S) (s : S) : S :=
  foldl (fun s c => body c s) s (seq 0 size).

(** ** The edit operations *)

Section Edits.
Context `{Gfx}.

(** [PaletteEntryEditor::setPaletteEntry] *)
Definition setPaletteEntry (palView : PaletteView) (color : Color)
    (palette : Palette) : Palette :=
  let entries := getPicks palView in
  let new_pal_color := rgba (getRed color) (getGreen color) (getBlue color) 255 in
  for_each_entry (length palette)
    (fun c palette =>
       if pick_at entries c then setEntry palette c new_pal_color else palette)
    palette.

(** The body of the loop of [setAbsolutePaletteEntryChannel] for a picked
    entry whose current colour is [src_color]: the colour written back. *)
Definition absolute_entry (m_type : ColorType) (picksCount : Z)
    (channel : Channel) (color : Color) (src_color : Z) : Z :=
  let r := rgba_getr src_color in
  let g := rgba_getg src_color in
  let b := rgba_getb src_color in
  let a := rgba_geta src_color in
  match m_type with
  | RgbType =>
      if picksCount =? 1 then
        rgba (getRed color) (getGreen color) (getBlue color) (getAlpha color)
      else
        match channel with
        | Red =>
            (* no [break] ends this case: control runs on into [Green] *)
            let r := getRed color in
            let g := getGreen color in
            rgba r g b a
        | Green => let g := getGreen color in rgba r g b a
        | Blue => let b := getBlue color in rgba r g b a
        | Alpha => let a := getAlpha color in rgba r g b a
        | _ => rgba r g b a
        end
  | HsvType =>
      let '(hsv, a) :=
        if picksCount =? 1 then
          let hsv := Hsv_new in
          let hsv := Hsv_set_hue (getHsvHue color) hsv in
          let hsv := Hsv_set_saturation (getHsvSaturation color) hsv in
          let hsv := Hsv_set_value (getHsvValue color) hsv in
          (hsv, getAlpha color)
        else
          let hsv := Hsv_of_Rgb (mkRgb r g b) in
          match channel with
          | HsvHue => (Hsv_set_hue (getHsvHue color) hsv, a)
          | HsvSaturation => (Hsv_set_saturation (getHsvSaturation color) hsv, a)
          | HsvValue => (Hsv_set_value (getHsvValue color) hsv, a)
          | Alpha => (hsv, getAlpha color)
          | _ => (hsv, a)
          end in
      let rgb := Rgb_of_Hsv hsv in
      rgba (red rgb) (green rgb) (blue rgb) a
  | HslType =>
      let '(hsl, a) :=
        if picksCount =? 1 then
          let hsl := Hsl_new in
          let hsl := Hsl_set_hue (getHslHue color) hsl in
          let hsl := Hsl_set_saturation (getHslSaturation color) hsl in
          let hsl := Hsl_set_lightness (getHslLightness color) hsl in
          (hsl, getAlpha color)
        else
          let hsl := Hsl_of_Rgb (mkRgb r g b) in
          match channel with
          | HslHue => (Hsl_set_hue (getHslHue color) hsl, a)
          | HslSaturation => (Hsl_set_saturation (getHslSaturation color) hsl, a)
          | HslLightness => (Hsl_set_lightness (getHslLightness color) hsl, a)
          | Alpha => (hsl, getAlpha color)
          | _ => (hsl, a)
          end in
      let rgb := Rgb_of_Hsl hsl in
      rgba (red rgb) (green rgb) (blue rgb) a
  | _ => rgba r g b a
  end.

(** [PaletteEntryEditor::setAbsolutePaletteEntryChannel] *)
Definition setAbsolutePaletteEntryChannel (m_type : ColorType)
    (palView : PaletteView) (channel : Channel) (color : Color)
    (palette : Palette) : Palette :=
  let entries := getPicks palView in
  let picksCount := picks entries in
  for_each_entry (length palette)
    (fun c palette =>
       if negb (pick_at entries c) then palette
       else
         let src_color := getEntry palette c in
         setEntry palette c (absolute_entry m_type picksCount channel color src_color))
    palette.

End Edits.

(** ** Relative edits *)

(** [m_relDeltas] is a [std::map<ColorSliders::Channel, int>].  Reading
    [m_relDeltas[k]] of a key that is absent inserts the key with value 0
    and yields 0; [delta_at] returns the value read and the map after the
    read. *)
Abbreviation RelDeltas := (gmap Channel Z).

Definition delta_at (m : RelDeltas) (k : Channel) : Z * RelDeltas :=
  match m !! k with
  | Some d => (d, m)
  | None => (0, <[k := 0]> m)
  end.

(** The value a read of [m_relDeltas[k]] yields. *)
Definition delta_of (m : RelDeltas) (k : Channel) : Z := default 0 (m !! k).

(** [if (h < 0.0) h += 360.0; else if (h > 360.0) h -= 360.0;] *)
Definition shift_turn (h : float) : float :=
  if Double.lt h 0 then PrimFloat.add h 360
  else if Double.gt h 360 then PrimFloat.sub h 360
  else h.

Section RelativeEdits.
Context `{Gfx}.

(** The body of the loop of [setRelativePaletteEntryChannel] for a picked
    entry whose colour in [m_fromPalette] is [src_color]: the colour
    written to the live palette and [m_relDeltas] after the reads.  The
    sums [r + m_relDeltas[...]] are sums of [int]s; an [int] added to a
    [double] is converted first. *)
Definition relative_entry (m_type : ColorType) (m_relDeltas : RelDeltas)
    (src_color : Z) : Z * RelDeltas :=
  let r := rgba_getr src_color in
  let g := rgba_getg src_color in
  let b := rgba_getb src_color in
  let a := rgba_geta src_color in
  match m_type with
  | RgbType =>
      let '(dr, m_relDeltas) := delta_at m_relDeltas Red in
      let r := MID 0 (to_int (r + dr)) 255 in
      let '(dg, m_relDeltas) := delta_at m_relDeltas Green in
      let g := MID 0 (to_int (g + dg)) 255 in
      let '(db, m_relDeltas) := delta_at m_relDeltas Blue in
      let b := MID 0 (to_int (b + db)) 255 in
      let '(da, m_relDeltas) := delta_at m_relDeltas Alpha in
      let a := MID 0 (to_int (a + da)) 255 in
      (rgba r g b a, m_relDeltas)
  | HsvType =>
      let hsv := Hsv_of_Rgb (mkRgb r g b) in
      let '(dh, m_relDeltas) := delta_at m_relDeltas HsvHue in
      let h := PrimFloat.add (Hsv_hue hsv) (Double.of_int dh) in
      let '(ds, m_relDeltas) := delta_at m_relDeltas HsvSaturation in
      let s := PrimFloat.add (Hsv_saturation hsv)
                             (PrimFloat.div (Double.of_int ds) 100) in
      let '(dv, m_relDeltas) := delta_at m_relDeltas HsvValue in
      let v := PrimFloat.add (Hsv_value hsv)
                             (PrimFloat.div (Double.of_int dv) 100) in
      let h := shift_turn h in
      let hsv := Hsv_set_hue (Double.MID 0 h 360) hsv in
      let hsv := Hsv_set_saturation (Double.MID 0 s 1) hsv in
      let hsv := Hsv_set_value (Double.MID 0 v 1) hsv in
      let rgb := Rgb_of_Hsv hsv in
      let '(da, m_relDeltas) := delta_at m_relDeltas Alpha in
      let a := MID 0 (to_int (a + da)) 255 in
      (rgba (red rgb) (green rgb) (blue rgb) a, m_relDeltas)
  | HslType =>
      let hsl := Hsl_of_Rgb (mkRgb r g b) in
      let '(dh, m_relDeltas) := delta_at m_relDeltas HslHue in
      let h := PrimFloat.add (Hsl_hue hsl) (Double.of_int dh) in
      let '(ds, m_relDeltas) := delta_at m_relDeltas HslSaturation in
      let s := PrimFloat.add (Hsl_saturation hsl)
                             (PrimFloat.div (Double.of_int ds) 100) in
      let '(dl, m_relDeltas) := delta_at m_relDeltas HslLightness in
      let l := PrimFloat.add (Hsl_lightness hsl)
                             (PrimFloat.div (Double.of_int dl) 100) in
      let h := shift_turn h in
      let hsl := Hsl_set_hue h hsl in
      let hsl := Hsl_set_saturation (Double.MID 0 s 1) hsl in
      let hsl := Hsl_set_lightness (Double.MID 0 l 1) hsl in
      let rgb := Rgb_of_Hsl hsl in
      let '(da, m_relDeltas) := delta_at m_relDeltas Alpha in
      let a := MID 0 (to_int (a + da)) 255 in
      (rgba (red rgb) (green rgb) (blue rgb) a, m_relDeltas)
  | _ => (rgba r g b a, m_relDeltas)
  end.

(** [PaletteEntryEditor::setRelativePaletteEntryChannel]: the live
    palette and [m_relDeltas] after the call. *)
Definition setRelativePaletteEntryChannel (m_type : ColorType)
    (palView : PaletteView) (m_fromPalette : Palette) (m_relDeltas : RelDeltas)
    (channel : Channel) (delta : Z) (palette : Palette) : Palette * RelDeltas :=
  let entries := getPicks palView in
  let m_relDeltas := <[channel := delta]> m_relDeltas in
  for_each_entry (length palette)
    (fun c '(palette, m_relDeltas) =>
       if negb (pick_at entries c) then (palette, m_relDeltas)
       else
         let src_color := getEntry m_fromPalette c in
         let '(color, m_relDeltas) := relative_entry m_type m_relDeltas src_color in
         (setEntry palette c color, m_relDeltas))
    (palette, m_relDeltas).

End RelativeEdits.

(** ** The document, its undo history and the calls made into them *)

(** [cmd::SetPalette(sprite, frame, newPalette)] *)
Inductive Cmd : Set :=
  | SetPalette (frame : Z) (newPalette : Palette).

(** A [CmdSequence] (also the body of a [Transaction]): a label and the
    commands added to it, oldest first. *)
Record CmdSequence : Set := mkCmdSequence {
  label : string;
  cmds : list Cmd
}.

Record Sprite : Set := mkSprite {
  frame : Z;              (* the active frame, [writer.frame()] *)
  palette : Palette       (* [sprite->palette(frame)] *)
}.

(** [undoHistory] lists the executed undo commands, the most recent first;
    [transaction] is the body of the [Transaction] object that is alive, if
    one is. *)
Record Document : Set := mkDocument {
  sprite : option Sprite;
  undoHistory : list CmdSequence;
  transaction : option CmdSequence
}.

(** [undo->lastExecutedCmd()], [NULL] as [None]. *)
Definition lastExecutedCmd (undo : list CmdSequence) : option CmdSequence :=
  head undo.

(** [base::Exception], the class of the exceptions the layers of the
    application throw and the one the editor catches by name.  The
    objects of other classes, which that handler lets through, come with
    [Unwinding] below. *)
Inductive Exception : Set :=
  | base_Exception (what : string).

(** The calls of the editor into the context, the undo history and the
    transaction layer, in the order of the source. *)
Inductive Call : Set :=
  | ContextWriter_new
  | CmdSequence_add (cmd : Cmd)
  | Cmd_execute (cmd : Cmd)
  | Transaction_new (operationName : string)
  | Transaction_execute (cmd : Cmd)
  | Transaction_commit.

(** What the editor tells the rest of the user interface. *)
Inductive Signal : Set :=
  | App_PaletteChange              (* [App::instance()->PaletteChange()] *)
  | Document_notifyGeneralUpdate   (* [document->notifyGeneralUpdate()] *)
  | Editor_updateEditor            (* [current_editor->updateEditor()] *)
  | Console_showException (e : Exception)
  | PaletteView_invalidate
  | ColorBar_invalidate.

(** Everything outside the editor object that its methods read or write. *)
Record World : Set := mkWorld {
  current_palette : Palette;          (* [get_current_palette()] *)
  paletteView : PaletteView;
  activeDocument : option Document;   (* [UIContext::instance()->activeDocument()] *)
  current_editor : bool;              (* [current_editor != NULL] *)
  calls : list Call;                  (* calls made so far, oldest first *)
  signals : list Signal               (* signals sent so far, oldest first *)
}.

Definition with_palette (p : Palette) (w : World) : World :=
  mkWorld p (paletteView w) (activeDocument w) (current_editor w) (calls w) (signals w).
Definition with_document (d : option Document) (w : World) : World :=
  mkWorld (current_palette w) (paletteView w) d (current_editor w) (calls w) (signals w).
Definition record_call (c : Call) (w : World) : World :=
  mkWorld (current_palette w) (paletteView w) (activeDocument w) (current_editor w)
          (calls w ++ [c]) (signals w).
Definition send (s : Signal) (w : World) : World :=
  mkWorld (current_palette w) (paletteView w) (activeDocument w) (current_editor w)
          (calls w) (signals w ++ [s]).

(** The document side of the editor's collaborators, none of it part of
    the sources: [Palette::countDiff], given the two palettes and the
    values [from] and [to] hold before the call, yields their values after
    it; [raises] says whether a call throws on the active document, and
    with which exception.  A call that throws has no effect of its own on
    the document; what unwinding does to it (the destructors of
    [Transaction] and [ContextWriter]) is not modelled. *)
Class DocLayer : Type := {
  countDiff : Palette -> Palette -> Z * Z -> Z * Z;
  raises : Call -> option Document -> option Exception
}.

(** Modelled from the spec: "append a set-palette-range delta to the
    currently open undo command and apply it immediately to the
    document-committed palette" and "open a new transaction labeled
    operationLabel, apply a single set-palette-range command, commit the
    transaction (making it the new currently open undo command)".  What a
    call does to the document when it does not throw. *)
Definition run_Cmd (cmd : Cmd) (doc : Document) : Document :=
  match cmd, sprite doc with
  | SetPalette f newPalette, Some s =>
      mkDocument (Some (mkSprite (frame s) newPalette)) (undoHistory doc) (transaction doc)
  | _, None => doc
  end.

Definition add_Cmd (cmd : Cmd) (seq : CmdSequence) : CmdSequence :=
  mkCmdSequence (label seq) (cmds seq ++ [cmd]).

Definition effect (c : Call) (doc : Document) : Document :=
  match c with
  | ContextWriter_new => doc
  | CmdSequence_add cmd =>
      match undoHistory doc with
      | last :: older =>
          mkDocument (sprite doc) (add_Cmd cmd last :: older) (transaction doc)
      | [] => doc
      end
  | Cmd_execute cmd => run_Cmd cmd doc
  | Transaction_new operationName =>
      mkDocument (sprite doc) (undoHistory doc) (Some (mkCmdSequence operationName []))
  | Transaction_execute cmd =>
      let doc := run_Cmd cmd doc in
      mkDocument (sprite doc) (undoHistory doc) (add_Cmd cmd <$> transaction doc)
  | Transaction_commit =>
      match transaction doc with
      | Some seq => mkDocument (sprite doc) (seq :: undoHistory doc) None
      | None => doc
      end
  end.

(** ** Code that may throw *)

(** A computation over the world that ends normally with a value or by
    throwing a [base::Exception]; the world keeps every write made before
    the throw. *)
Definition Try (A : Type) : Type := World -> World * (Exception + A).

Definition ret {A : Type} (a : A) : Try A := fun w => (w, inr a).
Definition bind {A B : Type} (m : Try A) (k : A -> Try B) : Try B :=
  fun w =>
    match m w with
    | (w', inl e) => (w', inl e)
    | (w', inr a) => k a w'
    end.
Definition catch (m : Try unit) (handler : Exception -> World -> World) : World -> World :=
  fun w =>
    match m w with
    | (w', inl e) => handler e w'
    | (w', inr _) => w'
    end.

Declare Scope try_scope.
Delimit Scope try_scope with try.
Notation "x <- m ;; k" := (bind m (fun x => k))
  (at level 100, m at next level, k at level 200, right associativity) : try_scope.
Notation "m ;; k" := (bind m (fun _ => k))
  (at level 100, k at level 200, right associativity) : try_scope.

Section Calls.
Context `{DocLayer}.

(** One call into the document layer: it is recorded, then it either
    throws or has its effect on the active document. *)
Definition call (c : Call) : Try unit :=
  fun w =>
    let w := record_call c w in
    match raises c (activeDocument w) with
    | Some e => (w, inl e)
    | None => (with_document (effect c <$> activeDocument w) w, inr tt)
    end.

End Calls.

(** ** The editor object *)

(** The data members of [PaletteEntryEditor] that its logic reads; the
    widgets are left out.  [isRunning] is the state of [m_redrawTimer]. *)
Record Editor : Type := mkEditor {
  m_type : ColorType;
  isRunning : bool;
  m_redrawAll : bool;
  m_implantChange : bool;
  m_selfPalChange : bool;
  m_fromPalette : Palette;
  m_relDeltas : gmap Channel Z
}.

Definition with_flags (running redrawAll implantChange : bool) (ed : Editor) : Editor :=
  mkEditor (m_type ed) running redrawAll implantChange (m_selfPalChange ed)
           (m_fromPalette ed) (m_relDeltas ed).
Definition with_selfPalChange (b : bool) (ed : Editor) : Editor :=
  mkEditor (m_type ed) (isRunning ed) (m_redrawAll ed) (m_implantChange ed) b
           (m_fromPalette ed) (m_relDeltas ed).
Definition with_relative (fromPalette : Palette) (relDeltas : gmap Channel Z)
    (ed : Editor) : Editor :=
  mkEditor (m_type ed) (isRunning ed) (m_redrawAll ed) (m_implantChange ed)
           (m_selfPalChange ed) fromPalette relDeltas.
Definition with_type (type : ColorType) (ed : Editor) : Editor :=
  mkEditor type (isRunning ed) (m_redrawAll ed) (m_implantChange ed)
           (m_selfPalChange ed) (m_fromPalette ed) (m_relDeltas ed).

(** [ColorSliders::Mode] and [ColorSlidersChangeEvent]. *)
Inductive Mode : Set := Absolute | Relative.

Record ColorSlidersChangeEvent : Set := mkEvent {
  ev_mode : Mode;
  ev_channel : Channel;
  ev_color : Color;
  ev_delta : Z
}.

(** A message as [onProcessMessage] tells them apart: a timer message of
    [m_redrawTimer], or anything else. *)
Inductive Message : Set :=
  | kTimerMessage (of_redrawTimer : bool)
  | kOtherMessage.

(** [PaletteEntryEditor::resetRelativeInfo]: [copyColorsTo] makes
    [m_fromPalette] a copy of the colours of the current palette. *)
Definition resetRelativeInfo (st : Editor * World) : Editor * World :=
  let '(ed, w) := st in
  (with_relative (current_palette w) ∅ ed, w).

(** [PaletteEntryEditor::selectColorType] *)
Definition selectColorType (type : ColorType) (st : Editor * World) : Editor * World :=
  let '(ed, w) := st in
  resetRelativeInfo (with_type type ed, w).

(** [PaletteEntryEditor::updateWidgetsFromSelectedEntries]; [setColor] and
    [invalidate] only touch widgets. *)
Definition updateWidgetsFromSelectedEntries (st : Editor * World) : Editor * World :=
  resetRelativeInfo st.

(** [PaletteEntryEditor::onPalChange] *)
Definition onPalChange (st : Editor * World) : Editor * World :=
  let '(ed, w) := st in
  if negb (m_selfPalChange ed) then updateWidgetsFromSelectedEntries st else st.

(** [App::instance()->PaletteChange()]: the signal is sent and the slot the
    editor connected in its constructor, [onPalChange], runs.  The slots of
    other components, none of them part of the sources, are not modelled. *)
Definition PaletteChange (st : Editor * World) : Editor * World :=
  let '(ed, w) := st in
  onPalChange (ed, send App_PaletteChange w).

(** [PaletteEntryEditor::onFgBgColorChange].  A colour that is not an index
    is replaced by [app::Color::fromIndex(index)], a colour of type
    [IndexType], so that the last test of the source then holds; [setColor]
    only touches widgets. *)
Definition onFgBgColorChange (_color : Color) (st : Editor * World) : Editor * World :=
  let '(ed, w) := st in
  if negb (isValid _color) then st
  else if negb (bool_decide (getType _color = IndexType)) then
    let index := getSelectedEntry (paletteView w) in
    if index <? 0 then st
    else resetRelativeInfo st
  else resetRelativeInfo st.

Section Commit.
Context `{Gfx} `{DocLayer}.

Local Open Scope try_scope.

(** The [try] block of [updateCurrentSpritePalette]. *)
Definition commit_palette (implantChange : bool) (operationName : string) : Try unit :=
  call ContextWriter_new ;;
  fun w =>
    match activeDocument w with
    | Some document =>
        match sprite document with
        | Some sprite =>
            let newPalette := current_palette w in
            let frame := frame sprite in
            let currentSpritePalette := palette sprite in
            let '(from, to) := countDiff currentSpritePalette newPalette (-1, -1) in
            if (from >=? 0) && (to >=? from) then
              let undo := undoHistory document in
              let cmd := SetPalette frame newPalette in
              if implantChange &&
                 match lastExecutedCmd undo with
                 | Some last => bool_decide (label last = operationName)
                 | None => false
                 end
              then
                (call (CmdSequence_add cmd) ;;
                 call (Cmd_execute cmd)) w
              else
                (call (Transaction_new operationName) ;;
                 call (Transaction_execute cmd) ;;
                 call Transaction_commit) w
            else ret tt w
        | None => ret tt w
        end
    | None => ret tt w
    end.

(** [PaletteEntryEditor::updateCurrentSpritePalette], in the runs in which
    its [try] block ends normally or by throwing a [base::Exception]. *)
Definition updateCurrentSpritePalette (operationName : string)
    (st : Editor * World) : Editor * World :=
  let '(ed, w) := st in
  let w :=
    if bool_decide (is_Some (activeDocument w ≫= sprite)) then
      catch (commit_palette (m_implantChange ed) operationName)
            (fun e w => send (Console_showException e) w) w
    else w in
  let w := send PaletteView_invalidate w in
  let running := if negb (isRunning ed) then true else isRunning ed in
  (with_flags running false true ed, w).

(** [PaletteEntryEditor::updateColorBar] *)
Definition updateColorBar (st : Editor * World) : Editor * World :=
  let '(ed, w) := st in (ed, send ColorBar_invalidate w).

(** [PaletteEntryEditor::onColorSlidersChange] *)
Definition onColorSlidersChange (ev : ColorSlidersChangeEvent)
    (st : Editor * World) : Editor * World :=
  let '(ed, w) := st in
  let st :=
    match ev_mode ev with
    | Absolute =>
        (ed, with_palette
               (setAbsolutePaletteEntryChannel (m_type ed) (paletteView w)
                  (ev_channel ev) (ev_color ev) (current_palette w)) w)
    | Relative =>
        let '(p, m) :=
          setRelativePaletteEntryChannel (m_type ed) (paletteView w)
            (m_fromPalette ed) (m_relDeltas ed) (ev_channel ev) (ev_delta ev)
            (current_palette w) in
        (with_relative (m_fromPalette ed) m ed, with_palette p w)
    end in
  updateColorBar (updateCurrentSpritePalette "Color Change" st).

(** [PaletteEntryEditor::onColorHexEntryChange] *)
Definition onColorHexEntryChange (color : Color) (st : Editor * World) : Editor * World :=
  let '(ed, w) := st in
  let w := with_palette (setPaletteEntry (paletteView w) color (current_palette w)) w in
  updateColorBar (updateCurrentSpritePalette "Color Change" (ed, w)).

(** [PaletteEntryEditor::onProcessMessage], as far as the data members and
    the world go.  The method ends, for every message, by calling the
    handler of the base class, [Window::onProcessMessage(msg)], and
    returns what that call returns: the base class belongs to the ui
    library, which is not part of the sources, and cannot reach the
    private data members; the call is recorded in the model of the
    window below. *)
Definition onProcessMessage (msg : Message) (st : Editor * World) : Editor * World :=
  let '(ed, w) := st in
  match msg with
  | kTimerMessage true =>
      if m_redrawAll ed then
        let ed := with_flags false false false ed in
        let ed := with_selfPalChange true ed in
        let '(ed, w) := PaletteChange (ed, w) in
        let ed := with_selfPalChange false ed in
        let w :=
          catch (call ContextWriter_new ;;
                 fun w =>
                   match activeDocument w with
                   | Some document => ret tt (send Document_notifyGeneralUpdate w)
                   | None => ret tt w
                   end)
                (fun _ w => w) w in
        (ed, w)
      else
        let ed := with_flags (isRunning ed) true (m_implantChange ed) ed in
        let w := if current_editor w then send Editor_updateEditor w else w in
        (ed, w)
  | _ => st
  end.

(** A firing of [m_redrawTimer]. *)
Definition tick (st : Editor * World) : Editor * World :=
  onProcessMessage (kTimerMessage true) st.

End Commit.

(** ** Exceptions of other classes *)

(** The model above follows the runs in which every object thrown is a
    [base::Exception], the class the handler of
    [updateCurrentSpritePalette] names.  This module follows the other
    runs as well: [catch (base::Exception& e)] handles a
    [base::Exception] and lets an object of any other class pass; the
    rest of the method is then skipped and the object reaches the
    caller, which has no handler and lets it pass in turn. *)
Module Unwinding.

(** An object thrown: a [base::Exception] (an object of a class derived
    from it included), or an object of any other class, such as
    [std::bad_alloc]. *)
Inductive Thrown : Set :=
  | a_base_Exception (e : Exception)
  | of_another_class (what : string).

(** The document side of the collaborators, as in [DocLayer] above, with
    calls that may throw an object of any class. *)
Class DocLayer : Type := {
  countDiff : Palette -> Palette -> Z * Z -> Z * Z;
  throws : Call -> option Document -> option Thrown
}.

(** A computation over the world that ends normally with a value or with
    an object thrown. *)
Definition Try (A : Type) : Type := World -> World * (Thrown + A).

Definition ret {A : Type} (a : A) : Try A := fun w => (w, inr a).
Definition bind {A B : Type} (m : Try A) (k : A -> Try B) : Try B :=
  fun w =>
    match m w with
    | (w', inl thrown) => (w', inl thrown)
    | (w', inr a) => k a w'
    end.

(** [try { m } catch (base::Exception& e) { handler }] *)
Definition catch_base_Exception (m : Try unit)
    (handler : Exception -> World -> World) : Try unit :=
  fun w =>
    match m w with
    | (w', inl (a_base_Exception e)) => (handler e w', inr tt)
    | (w', inl thrown) => (w', inl thrown)
    | (w', inr _) => (w', inr tt)
    end.

Declare Scope unwinding_scope.
Delimit Scope unwinding_scope with unwinding.
Notation "m ;; k" := (bind m (fun _ => k))
  (at level 100, k at level 200, right associativity) : unwinding_scope.

Section Methods.
Context `{Gfx} `{DocLayer}.

Local Open Scope unwinding_scope.

(** One call into the document layer: it is recorded, then it either
    throws or has its effect on the active document. *)
Definition call (c : Call) : Try unit :=
  fun w =>
    let w := record_call c w in
    match throws c (activeDocument w) with
    | Some thrown => (w, inl thrown)
    | None => (with_document (effect c <$> activeDocument w) w, inr tt)
    end.

(** The [try] block of [updateCurrentSpritePalette]. *)
Definition commit_palette (implantChange : bool) (operationName : string) : Try unit :=
  call ContextWriter_new ;;
  fun w =>
    match activeDocument w with
    | Some document =>
        match sprite document with
        | Some sprite =>
            let newPalette := current_palette w in
            let frame := frame sprite in
            let currentSpritePalette := palette sprite in
            let '(from, to) := countDiff currentSpritePalette newPalette (-1, -1) in
            if (from >=? 0) && (to >=? from) then
              let undo := undoHistory document in
              let cmd := SetPalette frame newPalette in
              if implantChange &&
                 match lastExecutedCmd undo with
                 | Some last => bool_decide (label last = operationName)
                 | None => false
                 end
              then
                (call (CmdSequence_add cmd) ;;
                 call (Cmd_execute cmd)) w
              else
                (call (Transaction_new operationName) ;;
                 call (Transaction_execute cmd) ;;
                 call Transaction_commit) w
            else ret tt w
        | None => ret tt w
        end
    | None => ret tt w
    end.

(** [PaletteEntryEditor::updateCurrentSpritePalette]: the state the method
    leaves and, when an object leaves it, that object.  The lines after
    the [try] block run only when none does. *)
Definition updateCurrentSpritePalette (operationName : string)
    (st : Editor * World) : (Editor * World) * (Thrown + unit) :=
  let '(ed, w) := st in
  let '(w, end_of_try) :=
    if bool_decide (is_Some (activeDocument w ≫= sprite)) then
      catch_base_Exception (commit_palette (m_implantChange ed) operationName)
                           (fun e w => send (Console_showException e) w) w
    else (w, inr tt) in
  match end_of_try with
  | inl thrown => ((ed, w), inl thrown)
  | inr _ =>
      let w := send PaletteView_invalidate w in
      let running := if negb (isRunning ed) then true else isRunning ed in
      ((with_flags running false true ed, w), inr tt)
  end.

(** [PaletteEntryEditor::onColorSlidersChange] *)
Definition onColorSlidersChange (ev : ColorSlidersChangeEvent)
    (st : Editor * World) : (Editor * World) * (Thrown + unit) :=
  let '(ed, w) := st in
  let st :=
    match ev_mode ev with
    | Absolute =>
        (ed, with_palette
               (setAbsolutePaletteEntryChannel (m_type ed) (paletteView w)
                  (ev_channel ev) (ev_color ev) (current_palette w)) w)
    | Relative =>
        let '(p, m) :=
          setRelativePaletteEntryChannel (m_type ed) (paletteView w)
            (m_fromPalette ed) (m_relDeltas ed) (ev_channel ev) (ev_delta ev)
            (current_palette w) in
        (with_relative (m_fromPalette ed) m ed, with_palette p w)
    end in
  match updateCurrentSpritePalette "Color Change" st with
  | (st, inl thrown) => (st, inl thrown)
  | (st, inr _) => (updateColorBar st, inr tt)
  end.

(** [PaletteEntryEditor::onColorHexEntryChange] *)
Definition onColorHexEntryChange (color : Color)
    (st : Editor * World) : (Editor * World) * (Thrown + unit) :=
  let '(ed, w) := st in
  let w := with_palette (setPaletteEntry (paletteView w) color (current_palette w)) w in
  match updateCurrentSpritePalette "Color Change" (ed, w) with
  | (st, inl thrown) => (st, inl thrown)
  | (st, inr _) => (updateColorBar st, inr tt)
  end.

End Methods.

End Unwinding.

(** A document layer of the model above as one of [Unwinding]: every
    object its calls throw is a [base::Exception]. *)
Definition throwing_base_Exceptions (layer : DocLayer) : Unwinding.DocLayer :=
  {| Unwinding.countDiff := countDiff;
     Unwinding.throws := fun c d => Unwinding.a_base_Exception <$> raises c d |}.

(** * Vocabulary of the statements *)

(** ** Relative edits, entry by entry *)

(** The channels a relative edit hands to the setters of an HSV or HSL
    colour [x] obtained from a baseline entry, given the delta [d k] stored
    for each channel [k]: the channel of [x] plus its delta, clamped (the
    hue shifted by one turn and, for HSV only, clamped). *)
Section RelativeChannels.
Context `{Gfx}.

Definition hsv_new_hue (d : Channel -> Z) (x : Hsv) : float :=
  Double.MID 0 (shift_turn (PrimFloat.add (Hsv_hue x) (Double.of_int (d HsvHue)))) 360.
Definition hsv_new_saturation (d : Channel -> Z) (x : Hsv) : float :=
  Double.MID 0 (PrimFloat.add (Hsv_saturation x)
                   (PrimFloat.div (Double.of_int (d HsvSaturation)) 100)) 1.
Definition hsv_new_value (d : Channel -> Z) (x : Hsv) : float :=
  Double.MID 0 (PrimFloat.add (Hsv_value x)
                   (PrimFloat.div (Double.of_int (d HsvValue)) 100)) 1.

Definition hsl_new_hue (d : Channel -> Z) (x : Hsl) : float :=
  shift_turn (PrimFloat.add (Hsl_hue x) (Double.of_int (d HslHue))).
Definition hsl_new_saturation (d : Channel -> Z) (x : Hsl) : float :=
  Double.MID 0 (PrimFloat.add (Hsl_saturation x)
                   (PrimFloat.div (Double.of_int (d HslSaturation)) 100)) 1.
Definition hsl_new_lightness (d : Channel -> Z) (x : Hsl) : float :=
  Double.MID 0 (PrimFloat.add (Hsl_lightness x)
                   (PrimFloat.div (Double.of_int (d HslLightness)) 100)) 1.

(** The colour [x] after the three setters have been given those
    channels. *)
Definition relative_hsv (d : Channel -> Z) (x : Hsv) : Hsv :=
  Hsv_set_value (hsv_new_value d x)
    (Hsv_set_saturation (hsv_new_saturation d x)
       (Hsv_set_hue (hsv_new_hue d x) x)).

Definition relative_hsl (d : Channel -> Z) (x : Hsl) : Hsl :=
  Hsl_set_lightness (hsl_new_lightness d x)
    (Hsl_set_saturation (hsl_new_saturation d x)
       (Hsl_set_hue (hsl_new_hue d x) x)).

End RelativeChannels.

(** The colour a relative edit gives an entry, stated from the baseline
    colour [src_color] and the delta [d k] stored for each channel [k]:
    every channel of the colour space in use is the baseline channel plus
    its stored delta, as an [int] for red, green, blue and alpha and as a
    [double] for the others, clamped. *)
Definition relative_color `{Gfx} (m_type : ColorType) (d : Channel -> Z)
    (src_color : Z) : Z :=
  let r := rgba_getr src_color in
  let g := rgba_getg src_color in
  let b := rgba_getb src_color in
  let a := rgba_geta src_color in
  match m_type with
  | RgbType =>
      rgba (MID 0 (to_int (r + d Red)) 255) (MID 0 (to_int (g + d Green)) 255)
           (MID 0 (to_int (b + d Blue)) 255) (MID 0 (to_int (a + d Alpha)) 255)
  | HsvType =>
      let rgb := Rgb_of_Hsv (relative_hsv d (Hsv_of_Rgb (mkRgb r g b))) in
      rgba (red rgb) (green rgb) (blue rgb) (MID 0 (to_int (a + d Alpha)) 255)
  | HslType =>
      let rgb := Rgb_of_Hsl (relative_hsl d (Hsl_of_Rgb (mkRgb r g b))) in
      rgba (red rgb) (green rgb) (blue rgb) (MID 0 (to_int (a + d Alpha)) 255)
  | _ => rgba r g b a
  end.

(** ** Values of floating-point numbers *)

(** The numbers of a binary floating-point format of precision [prec] and
    largest exponent [emax], as integers: the unit is the weight of the
    last bit of the least numbers of the format, of which every number of
    the format is a multiple. *)
Module Binary.

Section Format.
Variables prec emax : Z.

(** The value of mantissa [m] at exponent [e]. *)
Definition scaled (m e : Z) : Z := m * 2 ^ (e - SpecFloat.emin prec emax).

(** The value of a number of the format (0 for what is not a number),
    and whether it is a number. *)
Definition value (x : spec_float) : Z :=
  match x with
  | S754_finite s m e => cond_Zopp s (scaled (Z.pos m) e)
  | _ => 0
  end.

Definition finite (x : spec_float) : bool :=
  match x with
  | S754_zero _ | S754_finite _ _ _ => true
  | _ => false
  end.

(** A bound [N * 2^eB] that is itself a number of the format, [N] being
    of [prec] bits at most, far enough from the overflow. *)
Definition bound (N eB : Z) : Prop :=
  0 <= N < 2 ^ prec /\ SpecFloat.emin prec emax <= eB /\ eB + 2 * prec <= emax + 1.

End Format.

(** The same for doubles, and the value of an integer in their unit. *)
Definition val (x : float) : Z := value prec emax (Prim2SF x).
Definition fin (x : float) : bool := finite (Prim2SF x).
Definition units (n : Z) : Z := scaled prec emax n 0.

End Binary.

(** ** Commits and timer firings *)

(** Two worlds that differ at most in the document and the calls made. *)
Definition same_ui (w w' : World) : Prop :=
  current_palette w' = current_palette w
  /\ paletteView w' = paletteView w
  /\ current_editor w' = current_editor w
  /\ signals w' = signals w.

(** The test of [updateCurrentSpritePalette] that chooses the implant. *)
Definition implant_test (ed : Editor) (document : Document) (operationName : string) : Prop :=
  m_implantChange ed = true
  /\ exists last, lastExecutedCmd (undoHistory document) = Some last
                  /\ label last = operationName.

(** The signals of a first-phase firing: the current editor, if there is
    one, is told to update. *)
Definition light_redraw (w : World) : list Signal :=
  if current_editor w then [Editor_updateEditor] else [].

(** The signals of a second-phase firing: the palette change is
    broadcast, and the active document, if there is one and the
    [ContextWriter] opens, is told to redraw everything. *)
Definition full_redraw `{DocLayer} (w : World) : list Signal :=
  App_PaletteChange ::
  match raises ContextWriter_new (activeDocument w), activeDocument w with
  | None, Some _ => [Document_notifyGeneralUpdate]
  | _, _ => []
  end.

(** The state [resetRelativeInfo] leaves: the baseline palette is the
    current palette and no delta is stored. *)
Definition is_reset (st : Editor * World) : Prop :=
  m_fromPalette st.1 = current_palette st.2 /\ m_relDeltas st.1 = ∅.

(** ** Sample collaborators *)

(** HSV and HSL colours as plain triples of doubles, with setters that
    store what they are given. *)
Record PlainHsv : Set := mkHsv { hsv_hue : float; hsv_saturation : float; hsv_value : float }.
Record PlainHsl : Set := mkHsl { hsl_hue : float; hsl_saturation : float; hsl_lightness : float }.

(** A [Gfx] over plain triples, given the four conversions. *)
Definition plain_gfx (hsv_of_rgb : Rgb -> PlainHsv) (rgb_of_hsv : PlainHsv -> Rgb)
    (hsl_of_rgb : Rgb -> PlainHsl) (rgb_of_hsl : PlainHsl -> Rgb) : Gfx :=
  {| Hsv := PlainHsv;
     Hsv_new := mkHsv 0 0 0;
     Hsv_of_Rgb := hsv_of_rgb;
     Hsv_hue := hsv_hue;
     Hsv_saturation := hsv_saturation;
     Hsv_value := hsv_value;
     Hsv_set_hue := fun h x => mkHsv h (hsv_saturation x) (hsv_value x);
     Hsv_set_saturation := fun s x => mkHsv (hsv_hue x) s (hsv_value x);
     Hsv_set_value := fun v x => mkHsv (hsv_hue x) (hsv_saturation x) v;
     Rgb_of_Hsv := rgb_of_hsv;
     Hsl := PlainHsl;
     Hsl_new := mkHsl 0 0 0;
     Hsl_of_Rgb := hsl_of_rgb;
     Hsl_hue := hsl_hue;
     Hsl_saturation := hsl_saturation;
     Hsl_lightness := hsl_lightness;
     Hsl_set_hue := fun h x => mkHsl h (hsl_saturation x) (hsl_lightness x);
     Hsl_set_saturation := fun s x => mkHsl (hsl_hue x) s (hsl_lightness x);
     Hsl_set_lightness := fun l x => mkHsl (hsl_hue x) (hsl_saturation x) l;
     Rgb_of_Hsl := rgb_of_hsl |}.

(** A conversion layer for runs in RGB mode, where no conversion is
    called: every conversion yields zeros. *)
Definition zero_gfx : Gfx :=
  plain_gfx (fun _ => mkHsv 0 0 0) (fun _ => mkRgb 0 0 0)
            (fun _ => mkHsl 0 0 0) (fun _ => mkRgb 0 0 0).

(** A colour as a slider of the RGB sliders reports it. *)
Definition rgb_color (r g b a : Z) : Color :=
  mkColor true RgbType r g b a 0 0 0 0 0 0.

(** A conversion layer for runs in HSL mode: every entry converts to a
    colour of hue 350, and every HSL colour converts back to black. *)
Definition sample_hsl_gfx : Gfx :=
  plain_gfx (fun _ => mkHsv 0 0 0) (fun _ => mkRgb 0 0 0)
            (fun _ => mkHsl 350 0 0) (fun _ => mkRgb 0 0 0).

(** Modelled from the spec: "Computes the inclusive index range [from, to]
    where live palette and document-committed palette differ".
    [Palette::countDiff] is not part of the sources; this sample compares
    entry by entry and leaves [from] and [to] as they were when no entry
    differs. *)
Definition differing (a b : Palette) : list nat :=
  filter (fun i => a !! i <> b !! i) (seq 0 (Nat.max (length a) (length b))).

Definition sample_countDiff (a b : Palette) (from_to : Z * Z) : Z * Z :=
  match differing a b with
  | [] => from_to
  | i :: rest => (Z.of_nat i, Z.of_nat (List.last rest i))
  end.

(** A document layer that never throws, and one whose
    [Transaction::commit] throws. *)
Definition quiet_doc : DocLayer :=
  {| countDiff := sample_countDiff; raises := fun _ _ => None |}.

Definition failing_doc : DocLayer :=
  {| countDiff := sample_countDiff;
     raises := fun c _ =>
       match c with
       | Transaction_commit => Some (base_Exception "cannot commit")
       | _ => None
       end |}.

(** A document layer whose [Transaction::commit] throws an object that is
    not a [base::Exception]. *)
Definition out_of_memory_doc : Unwinding.DocLayer :=
  {| Unwinding.countDiff := sample_countDiff;
     Unwinding.throws := fun c _ =>
       match c with
       | Transaction_commit => Some (Unwinding.of_another_class "std::bad_alloc")
       | _ => None
       end |}.

(** A document whose sprite has palette [p] at frame 0, and a world with
    one view onto it. *)
Definition sample_document (p : Palette) (undo : list CmdSequence) : Document :=
  mkDocument (Some (mkSprite 0 p)) undo None.

Definition sample_world (live : Palette) (entries : PalettePicks)
    (document : option Document) : World :=
  mkWorld live (mkPaletteView entries 0) document true [] [].

Definition sample_editor (implantChange : bool) (baseline : Palette) : Editor :=
  mkEditor RgbType implantChange false implantChange false baseline ∅.

(** * The window and the command *)

(** ** The label of the selection *)

(** [for (i = start; i < size; ++i) if (stop(i)) break;]: the value of [i]
    when the loop is left.  [fuel] bounds the number of iterations;
    [size - start] of them are enough. *)
Fixpoint loop_up (stop : Z -> bool) (size : Z) (fuel : nat) (i : Z) : Z :=
  match fuel with
  | O => i
  | S fuel =>
      if i <? size then
        if stop i then i else loop_up stop size fuel (i + 1)
      else i
  end.

(** [for (j = start; j >= 0; --j) if (stop(j)) break;]: the value of [j]
    when the loop is left; [start + 1] iterations are enough. *)
Fixpoint loop_down (stop : Z -> bool) (fuel : nat) (j : Z) : Z :=
  match fuel with
  | O => j
  | S fuel =>
      if j >=? 0 then
        if stop j then j else loop_down stop fuel (j - 1)
      else j
  end.

(** [entries[i]] for an [int] index. *)
Definition entry_at (entries : PalettePicks) (i : Z) : bool :=
  pick_at entries (Z.to_nat i).

(** The three scans of [PaletteEntryEditor::setColor]: the first selected
    entry [i], the first unselected entry [i2] after [i], the last
    selected entry [j]. *)
Definition first_selected (entries : PalettePicks) : Z :=
  let size := Z.of_nat (length entries) in
  loop_up (fun i => entry_at entries i) size (Z.to_nat size) 0.

Definition first_unselected_after (entries : PalettePicks) (i : Z) : Z :=
  let size := Z.of_nat (length entries) in
  loop_up (fun i2 => negb (entry_at entries i2)) size (Z.to_nat (size - (i + 1))) (i + 1).

Definition last_selected (entries : PalettePicks) : Z :=
  let size := Z.of_nat (length entries) in
  loop_down (fun j => entry_at entries j) (Z.to_nat size) (size - 1).

(** The text [setColor] gives [m_entryLabel]; [%d] prints an [int] in
    decimal. *)
Definition entry_label (entries : PalettePicks) : string :=
  let i := first_selected entries in
  let i2 := first_unselected_after entries i in
  let j := last_selected entries in
  if i =? j then " Entry: " +:+ pretty i
  else if j - i + 1 =? i2 - i then " Range: " +:+ pretty i +:+ "-" +:+ pretty j
  else if i =? Z.of_nat (length entries) then " No Entry"
  else " Multiple Entries".

(** ** The widgets *)

(** The calls the window makes on its widgets and on the rest of the user
    interface, none of which is part of the sources: what is modelled of
    them is that they were made, and in which order. *)
Inductive UiCall : Type :=
  | Sliders_setColor (color : Color)             (* [m_sliders.setColor(color)] *)
  | Sliders_setColorType (type : ColorType)      (* [m_sliders.setColorType(type)] *)
  | Sliders_setMode (mode : Mode)                (* [m_sliders.setMode(mode)] *)
  | Sliders_resetRelativeSliders                 (* [m_sliders.resetRelativeSliders()] *)
  | HexColorEntry_setColor (color : Color)       (* [m_hexColorEntry.setColor(color)] *)
  | EntryLabel_setText (text : string)           (* [m_entryLabel.setText(f)(...)] *)
  | ColorType_setSelectedItem (item : Z)         (* [m_colorType.setSelectedItem(item)] *)
  | ChangeMode_setSelectedItem (item : Z)        (* [m_changeMode.setSelectedItem(item)] *)
  | TopBox_layout                                (* [m_topBox.layout()] *)
  | VBox_layout                                  (* [m_vbox.layout()] *)
  | VBox_invalidate                              (* [m_vbox.invalidate()] *)
  | Window_invalidate                            (* [invalidate()] *)
  | Window_initTheme                             (* [initTheme()] *)
  | save_window_pos (section : string)           (* [save_window_pos(this, section)] *)
  | ColorBar_setPaletteEditorButtonState (state : bool)
  | Base_onProcessMessage (msg : Message).       (* [Window::onProcessMessage(msg)] *)

(** The widget side of a [PaletteEntryEditor]: the flag that guards the
    hex entry and the calls made so far, oldest first. *)
Record Widgets : Type := mkWidgets {
  m_disableHexUpdate : bool;
  ui_calls : list UiCall
}.

Definition ui_call (c : UiCall) (ui : Widgets) : Widgets :=
  mkWidgets (m_disableHexUpdate ui) (ui_calls ui ++ [c]).
Definition with_disableHexUpdate (b : bool) (ui : Widgets) : Widgets :=
  mkWidgets b (ui_calls ui).

(** [enum { RGB_MODE, HSV_MODE, HSL_MODE }] and [enum { ABS_MODE, REL_MODE }]. *)
Definition RGB_MODE : Z := 0.
Definition HSV_MODE : Z := 1.
Definition HSL_MODE : Z := 2.
Definition ABS_MODE : Z := 0.
Definition REL_MODE : Z := 1.

(** [app::Color::fromIndex] is declared in app/color.h, which is not part
    of the sources: a parameter. *)
Class AppColor : Type := {
  fromIndex : Z -> Color
}.

(** ** The window as a whole *)

(** The methods of [PaletteEntryEditor] over the whole object: its widgets
    next to the data members and the world of the model above.  Each
    method is the source's, calls on widgets included; where a method only
    adds widget calls to what the model above does, it calls that
    model. *)
Module Window.

Definition State : Type := Widgets * (Editor * World).

Section Methods.
Context `{Gfx} `{DocLayer} `{AppColor}.

Local Open Scope try_scope.

(** [PaletteEntryEditor::setColor] *)
Definition setColor (color : Color) (s : State) : State :=
  let '(ui, st) := s in
  let ui := ui_call (Sliders_setColor color) ui in
  let ui :=
    if negb (m_disableHexUpdate ui) then ui_call (HexColorEntry_setColor color) ui
    else ui in
  let entries := getPicks (paletteView st.2) in
  let ui := ui_call (EntryLabel_setText (entry_label entries)) ui in
  (ui_call TopBox_layout ui, st).

(** [PaletteEntryEditor::resetRelativeInfo] *)
Definition resetRelativeInfo (s : State) : State :=
  let '(ui, st) := s in
  (ui_call Sliders_resetRelativeSliders ui, resetRelativeInfo st).

(** [PaletteEntryEditor::selectColorType] *)
Definition selectColorType (type : ColorType) (s : State) : State :=
  let '(ui, (ed, w)) := s in
  let ed := with_type type ed in
  let ui := ui_call (Sliders_setColorType type) ui in
  let '(ui, st) := resetRelativeInfo (ui, (ed, w)) in
  let ui :=
    match type with
    | RgbType => ui_call (ColorType_setSelectedItem RGB_MODE) ui
    | HsvType => ui_call (ColorType_setSelectedItem HSV_MODE) ui
    | HslType => ui_call (ColorType_setSelectedItem HSL_MODE) ui
    | _ => ui
    end in
  (ui_call VBox_invalidate (ui_call VBox_layout ui), st).

(** [PaletteEntryEditor::updateWidgetsFromSelectedEntries] *)
Definition updateWidgetsFromSelectedEntries (s : State) : State :=
  let index := getSelectedEntry (paletteView s.2.2) in
  let s := if index >=? 0 then setColor (fromIndex index) s else s in
  let '(ui, st) := resetRelativeInfo s in
  (ui_call Window_invalidate ui, st).

(** [PaletteEntryEditor::onPalChange] *)
Definition onPalChange (s : State) : State :=
  if negb (m_selfPalChange s.2.1) then updateWidgetsFromSelectedEntries s else s.

(** [App::instance()->PaletteChange()], as in the model above: the signal
    is sent and the slot of the window runs. *)
Definition PaletteChange (s : State) : State :=
  let '(ui, (ed, w)) := s in
  onPalChange (ui, (ed, send App_PaletteChange w)).

(** [PaletteEntryEditor::onFgBgColorChange] *)
Definition onFgBgColorChange (_color : Color) (s : State) : State :=
  let color := _color in
  if negb (isValid color) then s
  else
    let last_test (color : Color) : State :=
      if bool_decide (getType color = IndexType)
      then resetRelativeInfo (setColor color s)
      else s in
    if negb (bool_decide (getType color = IndexType)) then
      let index := getSelectedEntry (paletteView s.2.2) in
      if index <? 0 then s
      else last_test (fromIndex index)
    else last_test color.

(** [PaletteEntryEditor::onColorSlidersChange] *)
Definition onColorSlidersChange (ev : ColorSlidersChangeEvent) (s : State) : State :=
  let '(ui, st) := setColor (ev_color ev) s in
  (ui, onColorSlidersChange ev st).

(** [PaletteEntryEditor::onColorHexEntryChange] *)
Definition onColorHexEntryChange (color : Color) (s : State) : State :=
  let '(ui, st) := s in
  let ui := with_disableHexUpdate true ui in
  let '(ui, st) := setColor color (ui, st) in
  let st := onColorHexEntryChange color st in
  (with_disableHexUpdate false ui, st).

(** [PaletteEntryEditor::onColorTypeClick]; [selectedItem] is what
    [m_colorType.selectedItem()] returns. *)
Definition onColorTypeClick (selectedItem : Z) (s : State) : State :=
  if selectedItem =? RGB_MODE then selectColorType RgbType s
  else if selectedItem =? HSV_MODE then selectColorType HsvType s
  else if selectedItem =? HSL_MODE then selectColorType HslType s
  else s.

(** [PaletteEntryEditor::onChangeModeClick]; [selectedItem] is what
    [m_changeMode.selectedItem()] returns. *)
Definition onChangeModeClick (selectedItem : Z) (s : State) : State :=
  let '(ui, st) := s in
  let ui :=
    if selectedItem =? ABS_MODE then ui_call (Sliders_setMode Absolute) ui
    else if selectedItem =? REL_MODE then ui_call (Sliders_setMode Relative) ui
    else ui in
  updateWidgetsFromSelectedEntries (ui, st).

(** [PaletteEntryEditor::onCloseWindow] *)
Definition onCloseWindow (s : State) : State :=
  let '(ui, st) := s in
  let ui := ui_call (save_window_pos "PaletteEditor") ui in
  (ui_call (ColorBar_setPaletteEditorButtonState false) ui, st).

(** [PaletteEntryEditor::onProcessMessage]: the test on the message, then,
    for every message, the call of the handler of the base class.  What
    that handler does and returns belongs to the ui library; the call is
    recorded. *)
Definition onProcessMessage (msg : Message) (s : State) : State :=
  let '(ui, (ed, w)) := s in
  let '(ui, st) :=
    match msg with
    | kTimerMessage true =>
        if m_redrawAll ed then
          let ed := with_flags false false false ed in
          let ed := with_selfPalChange true ed in
          let '(ui, (ed, w)) := PaletteChange (ui, (ed, w)) in
          let ed := with_selfPalChange false ed in
          let w :=
            catch (call ContextWriter_new ;;
                   fun w =>
                     match activeDocument w with
                     | Some document => ret tt (send Document_notifyGeneralUpdate w)
                     | None => ret tt w
                     end)
                  (fun _ w => w) w in
          (ui, (ed, w))
        else
          let ed := with_flags (isRunning ed) true (m_implantChange ed) ed in
          let w := if current_editor w then send Editor_updateEditor w else w in
          (ui, (ed, w))
    | _ => s
    end in
  (ui_call (Base_onProcessMessage msg) ui, st).

(** [PaletteEntryEditor::PaletteEntryEditor]: the member initializers, then
    the body.  Building the widget tree ([addItem], [addChild],
    [setBorder], [setChildSpacing]) is left out; the connections the body
    makes are the cases of [handle] below. *)
Definition PaletteEntryEditor_new (w : World) : State :=
  let ed := mkEditor MaskType false false false false [] ∅ in
  let ui := mkWidgets false [] in
  let ui := ui_call (ChangeMode_setSelectedItem ABS_MODE) ui in
  let '(ui, st) := selectColorType RgbType (ui, (ed, w)) in
  (ui_call Window_initTheme ui, st).

(** What reaches the window: the signals its constructor connects a
    method to, the messages of the ui library, the call of [setColor] by
    the command, and what other components do to the world. *)
Inductive Event : Type :=
  | ColorType_ItemChange (selectedItem : Z)
  | ChangeMode_ItemChange (selectedItem : Z)
  | Sliders_ColorChange (ev : ColorSlidersChangeEvent)
  | HexColorEntry_ColorChange (color : Color)
  | FgBgColor_AfterChange (color : Color)
  | Window_Close
  | Window_Message (msg : Message)
  | Command_setColor (color : Color)
  (* another component changes the selection, the active document or the
     current editor *)
  | Outside_change (palView : PaletteView) (document : option Document) (editor : bool)
  (* another component replaces the current palette and emits
     [App::PaletteChange] *)
  | Outside_palette (palette : Palette).

Definition handle (e : Event) (s : State) : State :=
  match e with
  | ColorType_ItemChange selectedItem => onColorTypeClick selectedItem s
  | ChangeMode_ItemChange selectedItem => onChangeModeClick selectedItem s
  | Sliders_ColorChange ev => onColorSlidersChange ev s
  | HexColorEntry_ColorChange color => onColorHexEntryChange color s
  | FgBgColor_AfterChange color => onFgBgColorChange color s
  | Window_Close => onCloseWindow s
  | Window_Message msg => onProcessMessage msg s
  | Command_setColor color => setColor color s
  | Outside_change palView document editor =>
      let '(ui, (ed, w)) := s in
      (ui, (ed, mkWorld (current_palette w) palView document editor (calls w) (signals w)))
  | Outside_palette palette =>
      let '(ui, (ed, w)) := s in
      PaletteChange (ui, (ed, with_palette palette w))
  end.

(** The state after the events [es], oldest first. *)
Definition run (es : list Event) (s : State) : State :=
  foldl (fun s e => handle e s) s es.

End Methods.

End Window.

(** ** The command that opens and closes the window *)

(** [gfx::Rect] *)
Record Rect : Set := mkRect { Rect_x : Z; Rect_y : Z; Rect_w : Z; Rect_h : Z }.

(** The window as the ui library has it ([ui::Window], the base class of
    [PaletteEntryEditor]) and the functions of app/modules/gui.h that
    place it.  None of this is part of the sources: parameters. *)
Class UiLayer : Type := {
  Frame : Type;
  Frame_new : Frame;               (* [Window(WithTitleBar, "Palette Editor (F4)")] *)
  isVisible : Frame -> bool;
  bounds : Frame -> Rect;
  openWindow : Frame -> Frame;
  closeWindow : Frame -> Frame;    (* [closeWindow(NULL)] *)
  remapWindow : Frame -> Frame;
  setBounds : Rect -> Frame -> Frame;
  load_window_pos : string -> Frame -> Frame
}.

(** What [onExecute] reads of the screen and of the preferences. *)
Record Screen : Type := mkScreen {
  display_w : Z;                   (* [ui::display_w()] *)
  display_h : Z;                   (* [ui::display_h()] *)
  ToolBar_w : Z;                   (* [ToolBar::instance()->bounds().w] *)
  StatusBar_h : Z;                 (* [StatusBar::instance()->bounds().h] *)
  fgColor : Color;                 (* [Preferences::instance().colorBar.fgColor()] *)
  bgColor : Color                  (* [Preferences::instance().colorBar.bgColor()] *)
}.

(** The data members of [PaletteEditorCommand]. *)
Record PaletteEditorCommand : Set := mkPaletteEditorCommand {
  m_open : bool;
  m_close : bool;
  m_switch : bool;
  m_background : bool
}.

(** [PaletteEditorCommand::PaletteEditorCommand] *)
Definition PaletteEditorCommand_new : PaletteEditorCommand :=
  mkPaletteEditorCommand true false false false.

(** [PaletteEditorCommand::onLoadParams]; [params name] is what
    [params.get(name)] returns. *)
Definition onLoadParams (params : string -> string) (cmd : PaletteEditorCommand) :
    PaletteEditorCommand :=
  let target := params "target" in
  let m_background :=
    if bool_decide (target = "foreground") then false
    else if bool_decide (target = "background") then true
    else m_background cmd in
  let open_str := params "open" in
  let m_open := if bool_decide (open_str = "true") then true else false in
  let close_str := params "close" in
  let m_close := if bool_decide (close_str = "true") then true else false in
  let switch_str := params "switch" in
  let m_switch := if bool_decide (switch_str = "true") then true else false in
  mkPaletteEditorCommand m_open m_close m_switch m_background.

Section Command.
Context `{UiLayer}.

(** [g_window], [NULL] as [None]: the frame of the window with its widgets
    and data members; and the world. *)
Record App : Type := mkApp {
  g_window : option (Frame * (Widgets * Editor));
  world : World
}.

(** The default bounds [onExecute] gives a window that is not visible. *)
Definition default_bounds (screen : Screen) (frame : Frame) : Rect :=
  let width := MAX (Rect_w (bounds frame)) (Z.quot (display_w screen) 2) in
  mkRect (display_w screen - width - ToolBar_w screen)
         (display_h screen - Rect_h (bounds frame) - StatusBar_h screen)
         width (Rect_h (bounds frame)).

(** [PaletteEditorCommand::onExecute] from [if (m_switch || m_open)] on. *)
Definition show_window (cmd : PaletteEditorCommand) (screen : Screen)
    (frame : Frame) (s : Window.State) : App :=
  let '(ui, st) := s in
  let '(frame, ui) :=
    if m_switch cmd || m_open cmd then
      let frame :=
        if negb (isVisible frame) then
          let frame := remapWindow frame in
          let frame := setBounds (default_bounds screen frame) frame in
          load_window_pos "PaletteEditor" frame
        else frame in
      let frame := openWindow frame in
      (frame, ui_call (ColorBar_setPaletteEditorButtonState true) ui)
    else (frame, ui) in
  let color := if m_background cmd then bgColor screen else fgColor screen in
  let '(ui, (ed, w)) := Window.setColor color (ui, st) in
  mkApp (Some (frame, (ui, ed))) w.

(** [PaletteEditorCommand::onExecute].  Closing the window emits
    [Window::Close], to which the constructor of the window connected
    [onCloseWindow]. *)
Definition onExecute (cmd : PaletteEditorCommand) (screen : Screen) (app : App) : App :=
  match g_window app with
  | None =>
      if m_close cmd then app
      else show_window cmd screen Frame_new (Window.PaletteEntryEditor_new (world app))
  | Some (frame, (ui, ed)) =>
      if isVisible frame && (m_switch cmd || m_close cmd) then
        let frame := closeWindow frame in
        let '(ui, (ed, w)) := Window.onCloseWindow (ui, (ed, world app)) in
        mkApp (Some (frame, (ui, ed))) w
      else show_window cmd screen frame (ui, (ed, world app))
  end.

(** [PaletteEditorCommand::onChecked] *)
Definition onChecked (app : App) : bool :=
  match g_window app with
  | None => false
  | Some (frame, _) => isVisible frame
  end.

End Command.

(** ** Vocabulary of the statements about the window *)

(** The colour type the sliders were last given, and the button of
    [m_colorType] the window last selected; [None] before any such call. *)
Definition sliders_type (ui : Widgets) : option ColorType :=
  foldl (fun last c => match c with Sliders_setColorType type => Some type | _ => last end)
        None (ui_calls ui).

Definition selected_button (ui : Widgets) : option Z :=
  foldl (fun last c => match c with ColorType_setSelectedItem item => Some item | _ => last end)
        None (ui_calls ui).

(** The button of [m_colorType] that stands for a colour type. *)
Definition button_of (type : ColorType) : option Z :=
  match type with
  | RgbType => Some RGB_MODE
  | HsvType => Some HSV_MODE
  | HslType => Some HSL_MODE
  | _ => None
  end.

(** What holds of the data members between any two events: the colour
    type is one of the three of the buttons, no broadcast of the window's
    own is under way, the implant flag is set exactly while the timer
    runs, and the baseline palette has the size of the current palette. *)
Definition editor_ok (st : Editor * World) : Prop :=
  (m_type st.1 = RgbType \/ m_type st.1 = HsvType \/ m_type st.1 = HslType)
  /\ m_selfPalChange st.1 = false
  /\ m_implantChange st.1 = isRunning st.1
  /\ length (m_fromPalette st.1) = length (current_palette st.2).

(** What holds of the window between any two events: the above, the
    sliders and the buttons show the colour type, and the hex entry is not
    guarded. *)
Definition well_formed (s : Window.State) : Prop :=
  editor_ok s.2
  /\ sliders_type s.1 = Some (m_type s.2.1)
  /\ selected_button s.1 = button_of (m_type s.2.1)
  /\ m_disableHexUpdate s.1 = false.

(** The calls on widgets made between the states [s] and [s']. *)
Definition new_calls (s s' : Window.State) : list UiCall :=
  drop (length (ui_calls s.1)) (ui_calls s'.1).

(** Every colour the calls [t] give the sliders they also give the hex
    entry. *)
Definition shown_in_both (t : list UiCall) : Prop :=
  forall color, Sliders_setColor color ∈ t -> HexColorEntry_setColor color ∈ t.

(** [s'] comes from [s] by calls that give the hex entry every colour
    they give the sliders, with the guard of the hex entry as it was. *)
Definition adds_shown_in_both (s s' : Window.State) : Prop :=
  m_disableHexUpdate s'.1 = m_disableHexUpdate s.1
  /\ exists t, ui_calls s'.1 = ui_calls s.1 ++ t /\ shown_in_both t.

(** The calls on widgets made so far by the window of the application, if
    there is one. *)
Definition app_calls `{UiLayer} (app : App) : list UiCall :=
  match g_window app with
  | Some (_, (ui, _)) => ui_calls ui
  | None => []
  end.

(** ** Sample collaborators of the window and of the command *)

(** Index colours that read as black. *)
Definition sample_color : AppColor :=
  {| fromIndex := fun index => mkColor true IndexType 0 0 0 255 0 0 0 0 0 0 |}.

(** A ui library whose windows are a visibility flag and their bounds;
    a new window is hidden, 100 by 50 at the origin. *)
Definition sample_ui : UiLayer :=
  {| Frame := bool * Rect;
     Frame_new := (false, mkRect 0 0 100 50);
     isVisible := fun frame => frame.1;
     bounds := fun frame => frame.2;
     openWindow := fun frame => (true, frame.2);
     closeWindow := fun frame => (false, frame.2);
     remapWindow := fun frame => frame;
     setBounds := fun rect frame => (frame.1, rect);
     load_window_pos := fun _ frame => frame |}.

(** A screen of 640 by 480 with a tool bar 20 wide and a status bar 10
    high. *)
Definition sample_screen : Screen :=
  mkScreen 640 480 20 10 (rgb_color 255 0 0 255) (rgb_color 0 0 255 255).

(** * Facts about the model *)

(** ** Packing and unpacking colours *)

Section PixelFacts.

Lemma testbit_255 (n : Z) : Z.testbit 255 n = (0 <=? n) && (n <? 8).
Proof.
  destruct (Z.leb_spec 0 n), (Z.ltb_spec n 8); cbn [andb].
  - change 255 with (Z.ones 8). apply Z.ones_spec_low. lia.
  - change 255 with (Z.ones 8). apply Z.ones_spec_high. lia.
  - apply Z.testbit_neg_r. lia.
  - apply Z.testbit_neg_r. lia.
Qed.

Lemma uint8_mod (x : Z) : uint8 x = x mod 256.
Proof. unfold uint8. change 255 with (Z.ones 8). rewrite Z.land_ones by lia. reflexivity. Qed.

Lemma uint8_small (x : Z) : 0 <= x <= 255 -> uint8 x = x.
Proof. intros Hx. rewrite uint8_mod. apply Z.mod_small. lia. Qed.

Ltac bits :=
  apply Z.bits_inj'; intros n Hn;
  unfold rgba_getr, rgba_getg, rgba_getb, rgba_geta, rgba, uint8,
         rgba_r_shift, rgba_g_shift, rgba_b_shift, rgba_a_shift;
  repeat first
    [ rewrite Z.land_spec | rewrite Z.lor_spec
    | rewrite Z.shiftr_spec by lia | rewrite Z.shiftl_spec by lia
    | rewrite testbit_255 ];
  repeat match goal with
         | |- context [?a <=? ?b] => destruct (Z.leb_spec a b); try lia
         | |- context [?a <? ?b] => destruct (Z.ltb_spec a b); try lia
         end;
  cbn [andb orb];
  rewrite ?andb_false_r, ?andb_true_r, ?orb_false_r, ?orb_false_l;
  try reflexivity;
  try (f_equal; lia).

Lemma rgba_getr_rgba (r g b a : Z) : rgba_getr (rgba r g b a) = uint8 r.
Proof. bits. Qed.
Lemma rgba_getg_rgba (r g b a : Z) : rgba_getg (rgba r g b a) = uint8 g.
Proof. bits. Qed.
Lemma rgba_getb_rgba (r g b a : Z) : rgba_getb (rgba r g b a) = uint8 b.
Proof. bits. Qed.
Lemma rgba_geta_rgba (r g b a : Z) : rgba_geta (rgba r g b a) = uint8 a.
Proof. bits. Qed.
End PixelFacts.

(** ** Loops over the entries of a palette *)

Section Loops.

Lemma for_each_entry_S {S : Type} (n : nat) (body : nat -> S -> S) (s : S) :
  for_each_entry (Datatypes.S n) body s = body n (for_each_entry n body s).
Proof.
  unfold for_each_entry. rewrite seq_S, foldl_app. reflexivity.
Qed.

(** A loop whose body rewrites each picked entry from its own current
    colour touches exactly the picked entries, each once. *)
Lemma for_each_entry_lookup (pick : nat -> bool) (f : Z -> Z)
    (body : nat -> Palette -> Palette) (n : nat) (p : Palette) (i : nat) :
  (forall c q, body c q = if pick c then setEntry q c (f (getEntry q c)) else q) ->
  for_each_entry n body p !! i
  = if bool_decide (i < n)%nat && pick i then f <$> (p !! i) else p !! i.
Proof.
  intros Hbody. induction n as [|n IH].
  - reflexivity.
  - rewrite for_each_entry_S, Hbody.
    destruct (decide (i = n)) as [->|Hne].
    + rewrite bool_decide_eq_true_2 by lia. cbn [andb].
      rewrite bool_decide_eq_false_2 in IH by lia. cbn [andb] in IH.
      destruct (pick n); [|exact IH].
      unfold setEntry, getEntry. rewrite IH.
      destruct (p !! n) as [x|] eqn:Hp; cbn.
      * apply list_lookup_insert_eq. apply lookup_lt_is_Some. rewrite IH. eauto.
      * rewrite list_insert_ge; [exact IH|].
        apply lookup_ge_None. exact IH.
    + assert (bool_decide (i < Datatypes.S n)%nat = bool_decide (i < n)%nat) as ->.
      { apply bool_decide_ext. lia. }
      destruct (pick n); [|exact IH].
      unfold setEntry. rewrite list_lookup_insert_ne by congruence. exact IH.
Qed.

Lemma same_lookups_same_length {A : Type} (l1 l2 : list A) :
  (forall i, is_Some (l1 !! i) <-> is_Some (l2 !! i)) -> length l1 = length l2.
Proof.
  intros Hl. apply Nat.le_antisymm.
  - destruct (decide (length l1 <= length l2)%nat) as [|Hn]; [assumption|].
    exfalso. assert (is_Some (l1 !! length l2)) as Hs by (apply lookup_lt_is_Some; lia).
    apply Hl in Hs. apply lookup_lt_is_Some in Hs. lia.
  - destruct (decide (length l2 <= length l1)%nat) as [|Hn]; [assumption|].
    exfalso. assert (is_Some (l2 !! length l1)) as Hs by (apply lookup_lt_is_Some; lia).
    apply Hl in Hs. apply lookup_lt_is_Some in Hs. lia.
Qed.

End Loops.

(** ** Selections *)

Section Picks.

Lemma picks_zero (entries : PalettePicks) :
  picks entries = 0 -> forall c, pick_at entries c = false.
Proof.
  unfold picks, pick_at. intros Hz c.
  assert (filter (fun b : bool => b = true) entries = []) as Hnil.
  { apply length_zero_iff_nil. lia. }
  destruct (entries !! c) as [[]|] eqn:Hc; try reflexivity.
  exfalso. apply list_elem_of_lookup_2 in Hc.
  assert (true ∈ filter (fun b : bool => b = true) entries) as Hin.
  { apply list_elem_of_filter. split; [reflexivity|exact Hc]. }
  rewrite Hnil in Hin. inversion Hin.
Qed.

(** With no explicit selection and no addressable fallback entry,
    [getPicks] leaves the mask empty. *)
Lemma getPicks_none (palView : PaletteView) :
  picks (getSelectedEntries palView) = 0 ->
  ~ (0 <= getSelectedEntry palView < Z.of_nat (length (getSelectedEntries palView))) ->
  forall c, pick_at (getPicks palView) c = false.
Proof.
  intros Hz Hi c. unfold getPicks. rewrite Hz. cbn [Z.eqb].
  destruct (getSelectedEntry palView >=? 0) eqn:E1;
    destruct (getSelectedEntry palView <? Z.of_nat (length (getSelectedEntries palView))) eqn:E2;
    cbn [andb]; try (apply picks_zero; exact Hz).
  exfalso. apply Hi. lia.
Qed.

(** With no explicit selection and an addressable fallback entry,
    [getPicks] marks that entry and no other. *)
Lemma getPicks_fallback (palView : PaletteView) :
  picks (getSelectedEntries palView) = 0 ->
  0 <= getSelectedEntry palView < Z.of_nat (length (getSelectedEntries palView)) ->
  forall c, pick_at (getPicks palView) c = true <-> Z.of_nat c = getSelectedEntry palView.
Proof.
  intros Hz Hi c. unfold getPicks. rewrite Hz. cbn [Z.eqb].
  replace (getSelectedEntry palView >=? 0) with true by lia.
  replace (getSelectedEntry palView <? Z.of_nat (length (getSelectedEntries palView)))
    with true by lia.
  cbn [andb]. unfold pick_at.
  destruct (decide (c = Z.to_nat (getSelectedEntry palView))) as [->|Hne].
  - rewrite list_lookup_insert_eq by lia. cbn. split; [lia|reflexivity].
  - rewrite list_lookup_insert_ne by congruence.
    pose proof (picks_zero _ Hz c) as Hc. unfold pick_at in Hc. rewrite Hc.
    split; [discriminate|lia].
Qed.

End Picks.

(** ** Comparisons of doubles *)

Module DoubleFacts.

(** The order of binary64 values, read off their specification. *)
Lemma compare_cont_swap (p q : positive) :
  Pos.compare_cont Eq q p = CompOpp (Pos.compare_cont Eq p q).
Proof. rewrite Pos.compare_cont_antisym. reflexivity. Qed.

Lemma SFcompare_swap (a b : spec_float) (c : comparison) :
  SFcompare a b = Some c -> SFcompare b a = Some (CompOpp c).
Proof.
  destruct a as [sa|sa| |sa ma ea], b as [sb|sb| |sb mb eb]; cbn;
    try discriminate;
    repeat match goal with s : bool |- _ => destruct s end;
    intros [= <-]; try reflexivity.
  all: rewrite (Z.compare_antisym ea eb), (compare_cont_swap ma mb);
    destruct (ea ?= eb); cbn; try reflexivity;
    destruct (Pos.compare_cont Eq ma mb); reflexivity.
Qed.

Lemma SFcompare_None (a b : spec_float) :
  SFcompare a b = None <-> a = S754_nan \/ b = S754_nan.
Proof.
  destruct a, b; cbn; split; intros Hx; try discriminate; auto;
    destruct Hx; discriminate.
Qed.

Lemma SFcompare_refl (a : spec_float) : a <> S754_nan -> SFcompare a a = Some Eq.
Proof.
  destruct a as [s|s| |s m e]; cbn; intros Hn; try congruence.
  - destruct s; reflexivity.
  - rewrite Z.compare_refl, Pos.compare_cont_refl. destruct s; reflexivity.
Qed.

Lemma lt_ordered_l (x y : float) : Double.lt x y = true -> Double.ordered x.
Proof.
  unfold Double.lt, Double.ordered. rewrite ltb_spec. unfold SFltb. intros Hlt Hn.
  rewrite Hn in Hlt. discriminate.
Qed.

Lemma le_ordered (x y : float) : Double.le x y = true -> Double.ordered x /\ Double.ordered y.
Proof.
  unfold Double.le, Double.ordered. rewrite leb_spec. unfold SFleb. intros Hle.
  destruct (SFcompare (Prim2SF x) (Prim2SF y)) eqn:E; [|discriminate].
  split; intros Hn; rewrite Hn in E; [discriminate|].
  destruct (Prim2SF x); discriminate.
Qed.

Lemma le_refl (x : float) : Double.ordered x -> Double.le x x = true.
Proof.
  unfold Double.le, Double.ordered. rewrite leb_spec. unfold SFleb. intros Hx.
  rewrite SFcompare_refl by exact Hx. reflexivity.
Qed.

Lemma lt_le (x y : float) : Double.lt x y = true -> Double.le x y = true.
Proof.
  unfold Double.lt, Double.le. rewrite ltb_spec, leb_spec. unfold SFltb, SFleb.
  destruct (SFcompare (Prim2SF x) (Prim2SF y)) as [[]|]; congruence.
Qed.

Lemma not_lt_le (x y : float) :
  Double.ordered x -> Double.ordered y -> Double.lt x y = false -> Double.le y x = true.
Proof.
  unfold Double.lt, Double.le, Double.ordered. rewrite ltb_spec, leb_spec.
  unfold SFltb, SFleb. intros Hx Hy.
  destruct (SFcompare (Prim2SF x) (Prim2SF y)) as [c|] eqn:E.
  - rewrite (SFcompare_swap _ _ _ E). destruct c; cbn; congruence.
  - apply SFcompare_None in E. tauto.
Qed.

(** [MID(lo, x, hi)] lies between its bounds, whatever [x] is (a NaN
    included), as soon as the bounds are in order. *)
Lemma MID_range (lo x hi : float) :
  Double.le lo hi = true ->
  Double.le lo (Double.MID lo x hi) = true /\ Double.le (Double.MID lo x hi) hi = true.
Proof.
  intros Hb. destruct (le_ordered _ _ Hb) as [Hlo Hhi].
  unfold Double.MID, Double.MAX, Double.MIN, Double.gt.
  destruct (Double.lt x hi) eqn:Hxh.
  - pose proof (lt_ordered_l _ _ Hxh) as Hx.
    destruct (Double.lt x lo) eqn:Hxl.
    + split; [apply le_refl; exact Hlo|exact Hb].
    + split; [apply not_lt_le; assumption|apply lt_le; exact Hxh].
  - destruct (Double.lt hi lo) eqn:Hhl.
    + split; [apply le_refl; exact Hlo|exact Hb].
    + split; [exact Hb|apply le_refl; exact Hhi].
Qed.

Lemma le_0_1 : Double.le 0 1 = true.
Proof. reflexivity. Qed.

Lemma le_0_360 : Double.le 0 360 = true.
Proof. reflexivity. Qed.

End DoubleFacts.

(** ** Rounding of binary floating-point numbers *)

(** Bounds on the sums and differences of doubles, read off the
    specification of binary floating-point arithmetic that comes with the
    kernel's [float] ([SpecFloat]): a number below a bound that is itself
    a number of the format stays below it when it is rounded. *)
Module Rounding.

Import Binary.

Section Format.
Variables prec emax : Z.
Hypothesis prec_pos : 0 < prec.

Local Abbreviation emin := (SpecFloat.emin prec emax).
Local Abbreviation fexp := (SpecFloat.fexp prec emax).
Local Abbreviation scaled := (Binary.scaled prec emax).
Local Abbreviation value := (Binary.value prec emax).
Local Abbreviation bound := (Binary.bound prec emax).

Lemma pow2_pos (k : Z) : 0 <= k -> 0 < 2 ^ k.
Proof. intros Hk. apply Z.pow_pos_nonneg; lia. Qed.

Lemma digits2_pos_spec (m : positive) :
  2 ^ (Z.pos (digits2_pos m) - 1) <= Z.pos m < 2 ^ Z.pos (digits2_pos m).
Proof.
  induction m as [m IH|m IH|]; cbn [digits2_pos].
  - rewrite Pos2Z.inj_succ.
    replace (Z.succ (Z.pos (digits2_pos m)) - 1) with (Z.succ (Z.pos (digits2_pos m) - 1)) by lia.
    rewrite !Z.pow_succ_r by lia. lia.
  - rewrite Pos2Z.inj_succ.
    replace (Z.succ (Z.pos (digits2_pos m)) - 1) with (Z.succ (Z.pos (digits2_pos m) - 1)) by lia.
    rewrite !Z.pow_succ_r by lia. lia.
  - cbn. lia.
Qed.

Lemma iter_pos_nat {A : Type} (f : A -> A) (p : positive) (x : A) :
  SpecFloat.iter_pos f p x = Nat.iter (Pos.to_nat p) f x.
Proof.
  revert x. induction p as [p IH|p IH|]; intros x; cbn [SpecFloat.iter_pos].
  - rewrite !IH, Pos2Nat.inj_xI.
    replace (S (2 * Pos.to_nat p)) with (Pos.to_nat p + (Pos.to_nat p + 1))%nat by lia.
    rewrite !Nat.iter_add. reflexivity.
  - rewrite !IH, Pos2Nat.inj_xO.
    replace (2 * Pos.to_nat p)%nat with (Pos.to_nat p + Pos.to_nat p)%nat by lia.
    rewrite Nat.iter_add. reflexivity.
  - reflexivity.
Qed.

(** One step to the right halves the mantissa, and keeps the record of
    the bits lost exact when the bit lost is 0. *)
Lemma shr_1_spec (mrs : shr_record) :
  0 <= shr_m mrs ->
  shr_m (shr_1 mrs) = shr_m mrs / 2
  /\ (shr_m mrs mod 2 = 0 -> shr_r mrs = false -> shr_s mrs = false ->
      shr_r (shr_1 mrs) = false /\ shr_s (shr_1 mrs) = false).
Proof.
  destruct mrs as [m r s]. cbn [shr_m shr_r shr_s]. intros Hm.
  destruct m as [|[p|p|]|p]; cbn [shr_1 shr_m shr_r shr_s]; try lia.
  - split; [reflexivity|]. intros _ -> ->. split; reflexivity.
  - split.
    + rewrite Pos2Z.inj_xI. apply (Z.div_unique _ 2 _ 1); lia.
    + rewrite Pos2Z.inj_xI. intros Hmod.
      rewrite Z.add_comm, Z.mul_comm, Z.mod_add in Hmod by lia. discriminate.
  - split.
    + rewrite Pos2Z.inj_xO. apply (Z.div_unique _ 2 _ 0); lia.
    + intros _ -> ->. split; reflexivity.
  - split; [reflexivity|]. intros Hmod. discriminate.
Qed.

Lemma shr_iter (m : Z) (n : nat) :
  0 <= m ->
  let mrs := Nat.iter n shr_1 (Build_shr_record m false false) in
  shr_m mrs = m / 2 ^ Z.of_nat n
  /\ (m mod 2 ^ Z.of_nat n = 0 -> shr_r mrs = false /\ shr_s mrs = false).
Proof.
  intros Hm. cbn zeta. induction n as [|n [IHm IHe]].
  - cbn. rewrite Z.div_1_r. split; [reflexivity|]. intros _. split; reflexivity.
  - rewrite Nat.iter_succ.
    set (mrs := Nat.iter n shr_1 _) in *.
    assert (0 <= shr_m mrs) as Hpos.
    { rewrite IHm. apply Z.div_pos; [exact Hm|apply pow2_pos; lia]. }
    destruct (shr_1_spec mrs Hpos) as [H1 H2].
    rewrite Nat2Z.inj_succ, Z.pow_succ_r by lia.
    pose proof (pow2_pos (Z.of_nat n) ltac:(lia)) as Hp.
    split.
    + rewrite H1, IHm, Z.div_div by lia. f_equal. lia.
    + intros Hmod.
      rewrite Z.mul_comm, Z.rem_mul_r in Hmod by lia.
      pose proof (Z.mod_pos_bound m (2 ^ Z.of_nat n) Hp) as Hb1.
      pose proof (Z.mod_pos_bound (m / 2 ^ Z.of_nat n) 2 ltac:(lia)) as Hb2.
      assert (m mod 2 ^ Z.of_nat n = 0) as Hlow by nia.
      assert ((m / 2 ^ Z.of_nat n) mod 2 = 0) as Hbit by nia.
      destruct (IHe Hlow) as [Hr Hs].
      apply H2; [rewrite IHm; exact Hbit|exact Hr|exact Hs].
Qed.

(** A shift to the right by [n] places, starting from an exact record. *)
Lemma shr_spec (m e n : Z) :
  0 <= m ->
  let '(mrs, e') := shr (Build_shr_record m false false) e n in
  e' = e + Z.max n 0
  /\ shr_m mrs = m / 2 ^ Z.max n 0
  /\ (m mod 2 ^ Z.max n 0 = 0 -> loc_of_shr_record mrs = loc_Exact).
Proof.
  intros Hm. destruct n as [|p|p]; cbn [shr].
  - cbn. rewrite Z.div_1_r. repeat split; lia.
  - rewrite iter_pos_nat.
    destruct (shr_iter m (Pos.to_nat p) Hm) as [H1 H2].
    rewrite positive_nat_Z in H1, H2.
    rewrite Z.max_l by lia.
    split; [reflexivity|]. split; [exact H1|].
    intros Hmod. destruct (H2 Hmod) as [Hr Hs].
    destruct (Nat.iter _ _ _) as [m' r s]. cbn in Hr, Hs. subst. reflexivity.
  - cbn. rewrite Z.div_1_r. repeat split; lia.
Qed.

Lemma round_nearest_even_bounds (m : Z) (l : location) :
  m <= round_nearest_even m l <= m + 1
  /\ (l = loc_Exact -> round_nearest_even m l = m).
Proof.
  destruct l as [|[]]; cbn; try destruct (Z.even m); split; try lia; try discriminate;
    reflexivity.
Qed.


(** *** Scaled values *)

Lemma scaled_shift (m e k : Z) :
  emin <= e -> 0 <= k -> scaled m (e + k) = scaled (m * 2 ^ k) e.
Proof.
  intros He Hk. unfold Binary.scaled.
  replace (e + k - emin) with (k + (e - emin)) by lia.
  rewrite Z.pow_add_r by lia. lia.
Qed.

Lemma scaled_le (a b e : Z) : emin <= e -> scaled a e <= scaled b e <-> a <= b.
Proof.
  intros He. unfold Binary.scaled. pose proof (pow2_pos (e - emin) ltac:(lia)) as Hp.
  split; intros Hle; nia.
Qed.

Lemma scaled_lt (a b e : Z) : emin <= e -> scaled a e < scaled b e <-> a < b.
Proof.
  intros He. unfold Binary.scaled. pose proof (pow2_pos (e - emin) ltac:(lia)) as Hp.
  split; intros Hle; nia.
Qed.

Lemma scaled_pos (m e : Z) : emin <= e -> 0 < m -> 0 < scaled m e.
Proof.
  intros He Hm. unfold Binary.scaled. pose proof (pow2_pos (e - emin) ltac:(lia)). nia.
Qed.

(** A mantissa of [d] digits at exponent [e] lies between two powers of
    two. *)
Lemma scaled_digits (m : positive) (e : Z) :
  emin <= e ->
  2 ^ (Z.pos (digits2_pos m) - 1 + (e - emin)) <= scaled (Z.pos m) e
  /\ scaled (Z.pos m) e < 2 ^ (Z.pos (digits2_pos m) + (e - emin)).
Proof.
  intros He. unfold Binary.scaled. pose proof (digits2_pos_spec m) as [Hlo Hhi].
  pose proof (pow2_pos (e - emin) ltac:(lia)) as Hp.
  rewrite !Z.pow_add_r by lia. split; nia.
Qed.

Lemma below_bound_exponent (m : positive) (e N eB : Z) :
  emin <= e -> bound N eB -> scaled (Z.pos m) e <= scaled N eB ->
  Z.pos (digits2_pos m) + e <= prec + eB.
Proof.
  intros He (HN & HeB & _) Hle.
  pose proof (scaled_digits m e He) as [Hlo _].
  assert (scaled N eB < 2 ^ (prec + (eB - emin))) as Hhi.
  { unfold Binary.scaled. pose proof (pow2_pos (eB - emin) ltac:(lia)).
    rewrite Z.pow_add_r by lia. nia. }
  assert (2 ^ (Z.pos (digits2_pos m) - 1 + (e - emin)) < 2 ^ (prec + (eB - emin))) as Hlt by lia.
  apply Z.pow_lt_mono_r_iff in Hlt; lia.
Qed.

(** *** Rounding stays below a bound *)

Lemma binary_round_aux_bound (sx : bool) (mz : positive) (ez N eB : Z) :
  emin <= ez -> bound N eB ->
  scaled (Z.pos mz) ez <= scaled N eB ->
  match binary_round_aux prec emax sx (Z.pos mz) ez loc_Exact with
  | S754_zero s => s = sx
  | S754_finite s m e => s = sx /\ emin <= e /\ scaled (Z.pos m) e <= scaled N eB
  | _ => False
  end.
Proof.
  intros Hez HB Hle.
  pose proof (below_bound_exponent mz ez N eB Hez HB Hle) as Hexp.
  pose proof HB as (HN & HeB & Hroom).
  unfold binary_round_aux, shr_fexp. cbn [shr_record_of_loc Zdigits2].
  set (n := fexp (Z.pos (digits2_pos mz) + ez) - ez).
  pose proof (shr_spec (Z.pos mz) ez n ltac:(lia)) as Hshr.
  destruct (shr {| shr_m := Z.pos mz; shr_r := false; shr_s := false |} ez n)
    as [mrs' e'].
  destruct Hshr as (He' & Hm' & Hloc).
  set (m2 := round_nearest_even (shr_m mrs') (loc_of_shr_record mrs')).
  assert (0 <= m2 /\ emin <= e' /\ scaled m2 e' <= scaled N eB) as (Hm2 & Hemin' & Hle2).
  { pose proof (round_nearest_even_bounds (shr_m mrs') (loc_of_shr_record mrs'))
      as [[Hr1 Hr2] Hr3].
    fold m2 in Hr1, Hr2, Hr3.
    assert (0 <= shr_m mrs') as Hpos'.
    { rewrite Hm'. apply Z.div_pos; [lia|apply pow2_pos; lia]. }
    destruct (Z.le_gt_cases n 0) as [Hn|Hn].
    - rewrite Z.max_r in He', Hm', Hloc by lia.
      rewrite Z.pow_0_r, Z.div_1_r in Hm'. rewrite Z.pow_0_r, Z.mod_1_r in Hloc.
      rewrite (Hr3 (Hloc eq_refl)), Hm', He', Z.add_0_r.
      split; [lia|]. split; [exact Hez|exact Hle].
    - rewrite Z.max_l in He', Hm', Hloc by lia.
      assert (e' = Z.pos (digits2_pos mz) + ez - prec) as He'd.
      { subst n. unfold SpecFloat.fexp in Hn |- *. unfold SpecFloat.fexp in He'. lia. }
      assert (e' <= eB) as He'B by lia.
      pose proof (pow2_pos n ltac:(lia)) as Hpn.
      set (K := N * 2 ^ (eB - e')).
      assert (scaled N eB = scaled K e') as HK.
      { replace eB with (e' + (eB - e')) at 1 by lia.
        apply scaled_shift; lia. }
      assert (scaled (Z.pos mz) ez <= scaled (K * 2 ^ n) ez) as Hle'.
      { rewrite <- (scaled_shift K ez n) by lia.
        replace (ez + n) with e' by lia. rewrite <- HK. exact Hle. }
      apply scaled_le in Hle'; [|exact Hez].
      assert (m2 <= K) as Hm2K.
      { pose proof (Z.div_mod (Z.pos mz) (2 ^ n) ltac:(lia)) as Hdm.
        pose proof (Z.mod_pos_bound (Z.pos mz) (2 ^ n) Hpn) as Hmb.
        rewrite <- Hm' in Hdm.
        destruct (Z.eq_dec (Z.pos mz mod 2 ^ n) 0) as [Hex|Hin].
        - rewrite (Hr3 (Hloc Hex)). nia.
        - assert (shr_m mrs' < K) by nia. lia. }
      split; [lia|]. split; [lia|].
      rewrite HK. apply scaled_le; [lia|exact Hm2K]. }
  clearbody m2. clear Hloc Hm' He' n mrs'.
  set (n2 := fexp (Zdigits2 m2 + e') - e').
  pose proof (shr_spec m2 e' n2 Hm2) as Hshr.
  destruct (shr {| shr_m := m2; shr_r := false; shr_s := false |} e' n2) as [mrs'' e''].
  destruct Hshr as (He'' & Hm'' & _).
  pose proof (pow2_pos (Z.max n2 0) ltac:(lia)) as Hpn.
  assert (scaled (shr_m mrs'') e'' <= scaled N eB) as Hle3.
  { rewrite He'', scaled_shift by lia.
    etransitivity; [|exact Hle2]. apply scaled_le; [exact Hemin'|].
    rewrite Hm''. rewrite Z.mul_comm. apply Z.mul_div_le. exact Hpn. }
  assert (0 <= shr_m mrs'') as Hpos''.
  { rewrite Hm''. apply Z.div_pos; [exact Hm2|exact Hpn]. }
  destruct (shr_m mrs'') as [|m|m] eqn:Em; [reflexivity| |lia].
  assert (emin <= e'') as Hemin'' by lia.
  pose proof (below_bound_exponent m e'' N eB Hemin'' HB Hle3) as Hexp''.
  pose proof (Pos2Z.is_pos (digits2_pos m)).
  destruct (e'' <=? emax - prec) eqn:Ele.
  - split; [reflexivity|]. split; [exact Hemin''|exact Hle3].
  - apply Z.leb_gt in Ele. lia.
Qed.

Lemma iter_xO (m d : positive) : Z.pos (Pos.iter xO m d) = Z.pos m * 2 ^ Z.pos d.
Proof.
  induction d as [|d IH] using Pos.peano_ind.
  - cbn. lia.
  - rewrite Pos.iter_succ, Pos2Z.inj_xO, IH, Pos2Z.inj_succ, Z.pow_succ_r by lia. lia.
Qed.

Lemma shl_align_spec (mx : positive) (ex ex' : Z) :
  let '(mz, ez) := shl_align mx ex ex' in
  ez = Z.min ex ex' /\ Z.pos mz = Z.pos mx * 2 ^ (ex - ez).
Proof.
  unfold shl_align. destruct (ex' - ex) as [|d|d] eqn:E.
  - rewrite Z.min_l by lia. rewrite Z.sub_diag. cbn. lia.
  - rewrite Z.min_l by lia. rewrite Z.sub_diag. cbn. lia.
  - rewrite Z.min_r by lia. split; [reflexivity|].
    rewrite iter_xO. f_equal. f_equal. lia.
Qed.

Lemma shl_align_scaled (mx : positive) (ex ex' : Z) :
  emin <= ex -> emin <= ex' ->
  let '(mz, ez) := shl_align mx ex ex' in
  emin <= ez /\ scaled (Z.pos mz) ez = scaled (Z.pos mx) ex.
Proof.
  intros Hex Hex'. pose proof (shl_align_spec mx ex ex') as Hs.
  destruct (shl_align mx ex ex') as [mz ez]. destruct Hs as [He Hm].
  split; [lia|]. rewrite Hm.
  rewrite <- scaled_shift by lia. f_equal. lia.
Qed.

Lemma fexp_emin (e : Z) : emin <= fexp e.
Proof. unfold SpecFloat.fexp. lia. Qed.

Lemma binary_round_bound (sx : bool) (mx : positive) (ex N eB : Z) :
  emin <= ex -> bound N eB ->
  scaled (Z.pos mx) ex <= scaled N eB ->
  match binary_round prec emax sx mx ex with
  | S754_zero s => s = sx
  | S754_finite s m e => s = sx /\ emin <= e /\ scaled (Z.pos m) e <= scaled N eB
  | _ => False
  end.
Proof.
  intros Hex HB Hle. unfold binary_round.
  pose proof (shl_align_scaled mx ex (fexp (Z.pos (digits2_pos mx) + ex)) Hex
                (fexp_emin _)) as Hs.
  destruct (shl_align mx ex _) as [mz ez]. destruct Hs as [Hez Hval].
  apply binary_round_aux_bound; [exact Hez|exact HB|]. rewrite Hval. exact Hle.
Qed.

(** *** Normalisation and comparison *)

(** The result of a normalisation lies between two bounds around 0 as
    soon as the number normalised does. *)
Lemma binary_normalize_bound (M ez Nlo elo Nhi ehi : Z) :
  emin <= ez -> bound Nlo elo -> bound Nhi ehi ->
  - scaled Nlo elo <= scaled M ez <= scaled Nhi ehi ->
  let r := binary_normalize prec emax M ez false in
  finite r = true /\ - scaled Nlo elo <= value r <= scaled Nhi ehi.
Proof.
  intros Hez Hlo Hhi [Hle1 Hle2]. cbn zeta.
  assert (0 <= scaled Nlo elo) as Hlo0.
  { destruct Hlo as ((? & _) & ? & _). unfold Binary.scaled.
    pose proof (pow2_pos (elo - emin) ltac:(lia)). nia. }
  assert (0 <= scaled Nhi ehi) as Hhi0.
  { destruct Hhi as ((? & _) & ? & _). unfold Binary.scaled.
    pose proof (pow2_pos (ehi - emin) ltac:(lia)). nia. }
  destruct M as [|m|m]; cbn [binary_normalize].
  - cbn. lia.
  - pose proof (binary_round_bound false m ez Nhi ehi Hez Hhi Hle2) as Hr.
    destruct (binary_round prec emax false m ez) as [s|s| |s m' e']; try contradiction.
    + cbn. lia.
    + destruct Hr as (-> & He' & Hle'). cbn [Binary.finite Binary.value cond_Zopp].
      pose proof (scaled_pos (Z.pos m') e' He' ltac:(lia)). split; [reflexivity|lia].
  - assert (scaled (Z.pos m) ez <= scaled Nlo elo) as Hle.
    { unfold Binary.scaled in *. change (Z.neg m) with (- Z.pos m) in Hle1. lia. }
    pose proof (binary_round_bound true m ez Nlo elo Hez Hlo Hle) as Hr.
    destruct (binary_round prec emax true m ez) as [s|s| |s m' e']; try contradiction.
    + cbn. lia.
    + destruct Hr as (-> & He' & Hle'). cbn [Binary.finite Binary.value cond_Zopp].
      pose proof (scaled_pos (Z.pos m') e' He' ltac:(lia)). split; [reflexivity|lia].
Qed.

(** What validity says of a finite number. *)
Lemma valid_finite (s : bool) (m : positive) (e : Z) :
  SpecFloat.valid_binary prec emax (S754_finite s m e) = true ->
  emin <= e
  /\ Z.pos m < 2 ^ prec
  /\ (emin < e -> 2 ^ (prec - 1) <= Z.pos m).
Proof.
  cbn [SpecFloat.valid_binary]. unfold bounded, canonical_mantissa, SpecFloat.fexp.
  intros Hv. apply andb_prop in Hv as [Hc _]. apply Z.eqb_eq in Hc.
  pose proof (digits2_pos_spec m) as [Hlo Hhi].
  split; [lia|]. split.
  - assert (Z.pos (digits2_pos m) <= prec) as Hd by lia.
    apply (Z.lt_le_trans _ _ _ Hhi). apply Z.pow_le_mono_r; lia.
  - intros He. assert (Z.pos (digits2_pos m) = prec) as Hd by lia.
    rewrite <- Hd. exact Hlo.
Qed.

Lemma scaled_lt_exponent (m1 m2 : positive) (e1 e2 : Z) (s1 s2 : bool) :
  SpecFloat.valid_binary prec emax (S754_finite s1 m1 e1) = true ->
  SpecFloat.valid_binary prec emax (S754_finite s2 m2 e2) = true ->
  e1 < e2 -> scaled (Z.pos m1) e1 < scaled (Z.pos m2) e2.
Proof.
  intros H1 H2 He.
  apply valid_finite in H1 as (He1 & Hm1 & _).
  apply valid_finite in H2 as (He2 & _ & Hm2).
  specialize (Hm2 ltac:(lia)).
  replace e2 with (e1 + (e2 - e1)) by lia. rewrite scaled_shift by lia.
  apply scaled_lt; [exact He1|].
  assert (2 ^ prec <= 2 ^ (prec - 1) * 2 ^ (e2 - e1)) as Hp.
  { rewrite <- Z.pow_add_r by lia. apply Z.pow_le_mono_r; lia. }
  pose proof (pow2_pos (e2 - e1) ltac:(lia)). nia.
Qed.

Lemma compare_magnitudes (m1 m2 : positive) (e1 e2 : Z) (s1 s2 : bool) :
  SpecFloat.valid_binary prec emax (S754_finite s1 m1 e1) = true ->
  SpecFloat.valid_binary prec emax (S754_finite s2 m2 e2) = true ->
  match e1 ?= e2 with
  | Lt => Lt
  | Gt => Gt
  | Eq => Pos.compare_cont Eq m1 m2
  end = (scaled (Z.pos m1) e1 ?= scaled (Z.pos m2) e2).
Proof.
  intros H1 H2. symmetry. destruct (e1 ?= e2) eqn:E.
  - apply Z.compare_eq in E. subst e2.
    pose proof (valid_finite _ _ _ H1) as (He1 & _).
    change (Pos.compare_cont Eq m1 m2) with (Z.pos m1 ?= Z.pos m2).
    destruct (Z.pos m1 ?= Z.pos m2) eqn:Em.
    + apply Z.compare_eq in Em. rewrite Em. apply Z.compare_refl.
    + apply Z.compare_lt_iff. apply scaled_lt; [exact He1|].
      apply Z.compare_lt_iff. exact Em.
    + apply Z.compare_gt_iff. apply scaled_lt; [exact He1|].
      apply Z.compare_gt_iff. exact Em.
  - apply Z.compare_lt_iff. apply Z.compare_lt_iff in E.
    exact (scaled_lt_exponent m1 m2 e1 e2 s1 s2 H1 H2 E).
  - apply Z.compare_gt_iff. apply Z.compare_gt_iff in E.
    exact (scaled_lt_exponent m2 m1 e2 e1 s2 s1 H2 H1 E).
Qed.

(** Comparisons of valid numbers compare their values. *)
Lemma SFcompare_value (x y : spec_float) :
  SpecFloat.valid_binary prec emax x = true -> SpecFloat.valid_binary prec emax y = true ->
  finite x = true -> finite y = true ->
  SFcompare x y = Some (value x ?= value y).
Proof.
  intros Hx Hy Fx Fy.
  destruct x as [sx|sx| |sx mx ex], y as [sy|sy| |sy my ey]; try discriminate.
  - reflexivity.
  - pose proof (valid_finite _ _ _ Hy) as (He & _).
    pose proof (scaled_pos (Z.pos my) ey He ltac:(lia)) as Hp.
    cbn [SFcompare Binary.value]. f_equal. symmetry.
    destruct sy; cbn [cond_Zopp];
      [apply Z.compare_gt_iff|apply Z.compare_lt_iff]; lia.
  - pose proof (valid_finite _ _ _ Hx) as (He & _).
    pose proof (scaled_pos (Z.pos mx) ex He ltac:(lia)) as Hp.
    cbn [SFcompare Binary.value]. f_equal. symmetry.
    destruct sx; cbn [cond_Zopp];
      [apply Z.compare_lt_iff|apply Z.compare_gt_iff]; lia.
  - pose proof (valid_finite _ _ _ Hx) as (Hex & _).
    pose proof (valid_finite _ _ _ Hy) as (Hey & _).
    pose proof (scaled_pos (Z.pos mx) ex Hex ltac:(lia)) as Hpx.
    pose proof (scaled_pos (Z.pos my) ey Hey ltac:(lia)) as Hpy.
    pose proof (compare_magnitudes mx my ex ey sx sy Hx Hy) as Hc.
    cbn [SFcompare Binary.value]. f_equal.
    destruct sx, sy; cbn [cond_Zopp].
    + rewrite Z.compare_opp, (Z.compare_antisym (scaled (Z.pos mx) ex)), <- Hc.
      destruct (ex ?= ey); reflexivity.
    + symmetry. apply Z.compare_lt_iff. lia.
    + symmetry. apply Z.compare_gt_iff. lia.
    + exact Hc.
Qed.

(** *** Sums and differences *)

Lemma aligned_values (sx sy : bool) (mx my : positive) (ex ey : Z) :
  emin <= ex -> emin <= ey ->
  let ez := Z.min ex ey in
  emin <= ez
  /\ scaled (cond_Zopp sx (Z.pos (shl_align mx ex ez).1)) ez
     = value (S754_finite sx mx ex)
  /\ scaled (cond_Zopp sy (Z.pos (shl_align my ey ez).1)) ez
     = value (S754_finite sy my ey).
Proof.
  intros Hex Hey. cbn zeta. set (ez := Z.min ex ey).
  assert (emin <= ez) as Hez by lia.
  pose proof (shl_align_spec mx ex ez) as Hx.
  pose proof (shl_align_spec my ey ez) as Hy.
  destruct (shl_align mx ex ez) as [mx' ex'], (shl_align my ey ez) as [my' ey'].
  destruct Hx as [Hx1 Hx2], Hy as [Hy1 Hy2]. cbn [fst Binary.value].
  assert (ex' = ez) as -> by lia. assert (ey' = ez) as -> by lia.
  split; [exact Hez|]. split.
  - assert (scaled (Z.pos mx) ex = scaled (Z.pos mx') ez) as ->.
    { rewrite Hx2, <- scaled_shift by lia. f_equal. lia. }
    destruct sx; cbn [cond_Zopp]; unfold Binary.scaled; lia.
  - assert (scaled (Z.pos my) ey = scaled (Z.pos my') ez) as ->.
    { rewrite Hy2, <- scaled_shift by lia. f_equal. lia. }
    destruct sy; cbn [cond_Zopp]; unfold Binary.scaled; lia.
Qed.

Lemma scaled_add (a b e : Z) : scaled (a + b) e = scaled a e + scaled b e.
Proof. unfold Binary.scaled. lia. Qed.

Lemma scaled_sub (a b e : Z) : scaled (a - b) e = scaled a e - scaled b e.
Proof. unfold Binary.scaled. lia. Qed.

(** The sum of two numbers lies between two bounds around 0 as soon as
    the sum of their values does. *)
Lemma SFadd_bound (x y : spec_float) (Nlo elo Nhi ehi : Z) :
  SpecFloat.valid_binary prec emax x = true -> SpecFloat.valid_binary prec emax y = true ->
  finite x = true -> finite y = true ->
  bound Nlo elo -> bound Nhi ehi ->
  - scaled Nlo elo <= value x + value y <= scaled Nhi ehi ->
  finite (SFadd prec emax x y) = true
  /\ - scaled Nlo elo <= value (SFadd prec emax x y) <= scaled Nhi ehi.
Proof.
  intros Hx Hy Fx Fy Hlo Hhi Hsum.
  destruct x as [sx|sx| |sx mx ex], y as [sy|sy| |sy my ey]; try discriminate.
  - destruct sx, sy; cbn in *; split; (reflexivity || lia).
  - cbn [SFadd]. split; [reflexivity|]. cbn [Binary.value] in Hsum |- *. lia.
  - cbn [SFadd]. split; [reflexivity|]. cbn [Binary.value] in Hsum |- *. lia.
  - cbn [SFadd].
    pose proof (valid_finite _ _ _ Hx) as (Hex & _).
    pose proof (valid_finite _ _ _ Hy) as (Hey & _).
    pose proof (aligned_values sx sy mx my ex ey Hex Hey) as (Hez & Hvx & Hvy).
    apply binary_normalize_bound; [exact Hez|exact Hlo|exact Hhi|].
    rewrite scaled_add, Hvx, Hvy. exact Hsum.
Qed.

Lemma SFsub_bound (x y : spec_float) (Nlo elo Nhi ehi : Z) :
  SpecFloat.valid_binary prec emax x = true -> SpecFloat.valid_binary prec emax y = true ->
  finite x = true -> finite y = true ->
  bound Nlo elo -> bound Nhi ehi ->
  - scaled Nlo elo <= value x - value y <= scaled Nhi ehi ->
  finite (SFsub prec emax x y) = true
  /\ - scaled Nlo elo <= value (SFsub prec emax x y) <= scaled Nhi ehi.
Proof.
  intros Hx Hy Fx Fy Hlo Hhi Hsum.
  destruct x as [sx|sx| |sx mx ex], y as [sy|sy| |sy my ey]; try discriminate.
  - destruct sx, sy; cbn in *; split; (reflexivity || lia).
  - cbn [SFsub]. split; [reflexivity|]. cbn [Binary.value] in Hsum |- *.
    destruct sy; cbn [negb cond_Zopp] in *; lia.
  - cbn [SFsub]. split; [reflexivity|]. cbn [Binary.value] in Hsum |- *. lia.
  - cbn [SFsub].
    pose proof (valid_finite _ _ _ Hx) as (Hex & _).
    pose proof (valid_finite _ _ _ Hy) as (Hey & _).
    pose proof (aligned_values sx sy mx my ex ey Hex Hey) as (Hez & Hvx & Hvy).
    apply binary_normalize_bound; [exact Hez|exact Hlo|exact Hhi|].
    rewrite scaled_sub, Hvx, Hvy. exact Hsum.
Qed.

Lemma SFopp_value (x : spec_float) :
  finite (SFopp x) = finite x /\ value (SFopp x) = - value x.
Proof.
  destruct x as [s|s| |s m e]; cbn; try (split; reflexivity).
  destruct s; cbn; split; (reflexivity || lia).
Qed.

End Format.

(** *** Doubles *)

Lemma prec_pos : 0 < prec.
Proof. reflexivity. Qed.

Lemma units_bound (n : Z) : 0 <= n < 2 ^ 53 -> Binary.bound prec emax n 0.
Proof. intros Hn. unfold Binary.bound, SpecFloat.emin, prec, emax. lia. Qed.

Lemma units_le (a b : Z) : units a <= units b <-> a <= b.
Proof. apply scaled_le. unfold SpecFloat.emin, prec, emax. lia. Qed.

Lemma units_add (a b : Z) : units (a + b) = units a + units b.
Proof. apply scaled_add. Qed.

Lemma val_360 : fin 360 = true /\ val 360 = units 360.
Proof. split; vm_compute; reflexivity. Qed.

Lemma lt_val (x y : float) :
  fin x = true -> fin y = true -> Double.lt x y = (val x <? val y).
Proof.
  intros Fx Fy. unfold Double.lt. rewrite ltb_spec. unfold SFltb.
  rewrite (SFcompare_value prec emax prec_pos _ _ (Prim2SF_valid x) (Prim2SF_valid y) Fx Fy).
  fold (val x) (val y). unfold Z.ltb. destruct (val x ?= val y); reflexivity.
Qed.

Lemma le_val (x y : float) :
  fin x = true -> fin y = true -> Double.le x y = (val x <=? val y).
Proof.
  intros Fx Fy. unfold Double.le. rewrite leb_spec. unfold SFleb.
  rewrite (SFcompare_value prec emax prec_pos _ _ (Prim2SF_valid x) (Prim2SF_valid y) Fx Fy).
  fold (val x) (val y). unfold Z.leb. destruct (val x ?= val y); reflexivity.
Qed.

(** A double between 0 and 360 is a number. *)
Lemma between_fin (x : float) :
  Double.le 0 x = true -> Double.le x 360 = true -> fin x = true.
Proof.
  unfold Double.le, fin. rewrite !leb_spec. unfold SFleb.
  destruct (Prim2SF x) as [s|s| |s m e]; try reflexivity.
  - destruct s; vm_compute; intros; discriminate.
  - vm_compute. intros; discriminate.
Qed.

Lemma add_bound (x y : float) (lo hi : Z) :
  fin x = true -> fin y = true ->
  0 <= lo < 2 ^ 53 -> 0 <= hi < 2 ^ 53 ->
  - units lo <= val x + val y <= units hi ->
  fin (x + y) = true /\ - units lo <= val (x + y) <= units hi.
Proof.
  intros Fx Fy Hlo Hhi Hsum. unfold fin, val. rewrite add_spec.
  apply (SFadd_bound prec emax prec_pos); auto using Prim2SF_valid, units_bound.
Qed.

Lemma sub_bound (x y : float) (lo hi : Z) :
  fin x = true -> fin y = true ->
  0 <= lo < 2 ^ 53 -> 0 <= hi < 2 ^ 53 ->
  - units lo <= val x - val y <= units hi ->
  fin (x - y) = true /\ - units lo <= val (x - y) <= units hi.
Proof.
  intros Fx Fy Hlo Hhi Hsum. unfold fin, val. rewrite sub_spec.
  apply (SFsub_bound prec emax prec_pos); auto using Prim2SF_valid, units_bound.
Qed.

(** The conversion of an [int] of small magnitude. *)
Lemma of_int_bound (d n : Z) :
  0 <= n < 2 ^ 53 -> - n <= d <= n ->
  fin (Double.of_int d) = true /\ - units n <= val (Double.of_int d) <= units n.
Proof.
  intros Hn Hd. unfold Double.of_int, fin, val.
  assert (forall k, 0 <= k <= n ->
            finite (Prim2SF (of_uint63 (Uint63.of_Z k))) = true
            /\ - units n <= Binary.value prec emax (Prim2SF (of_uint63 (Uint63.of_Z k))) <= units n)
    as Hconv.
  { intros k Hk. rewrite of_uint63_spec, Uint63.of_Z_spec.
    rewrite Z.mod_small by (change Uint63Axioms.wB with (2 ^ 63); lia).
    apply (binary_normalize_bound prec emax prec_pos);
      [unfold SpecFloat.emin, prec, emax; lia|apply units_bound; exact Hn..|].
    fold (units k) (units n).
    pose proof (proj2 (units_le k n) ltac:(lia)) as H1.
    pose proof (proj2 (units_le 0 k) ltac:(lia)) as H2.
    pose proof (proj2 (units_le 0 n) ltac:(lia)) as H3.
    change (units 0) with 0 in H2, H3. lia. }
  destruct (d <? 0) eqn:E.
  - apply Z.ltb_lt in E. rewrite opp_spec.
    destruct (SFopp_value prec emax (Prim2SF (of_uint63 (Uint63.of_Z (- d))))) as [-> ->].
    destruct (Hconv (- d) ltac:(lia)) as [Hf Hv]. split; [exact Hf|lia].
  - apply Z.ltb_ge in E. apply Hconv. lia.
Qed.

(** A hue between 0 and 360 plus a delta of at most one turn, shifted
    by one turn when it leaves 0-360, is between 0 and 360 again. *)
Lemma shift_turn_range (x : float) (d : Z) :
  Double.le 0 x = true -> Double.le x 360 = true -> -360 <= d <= 360 ->
  let h := shift_turn (PrimFloat.add x (Double.of_int d)) in
  Double.le 0 h = true /\ Double.le h 360 = true.
Proof.
  intros H0 H360 Hd. cbn zeta.
  pose proof (between_fin x H0 H360) as Fx.
  destruct val_360 as [F360 V360].
  assert (fin 0 = true) as F0 by reflexivity.
  assert (val 0 = units 0) as V0 by reflexivity.
  rewrite le_val in H0, H360 by assumption. apply Z.leb_le in H0, H360.
  rewrite V0 in H0. rewrite V360 in H360.
  destruct (of_int_bound d 360 ltac:(lia) Hd) as [Fd Vd].
  destruct (add_bound x (Double.of_int d) 360 720 Fx Fd ltac:(lia) ltac:(lia)) as [Fh Vh].
  { change (units 0) with 0 in H0.
    replace (units 720) with (units 360 + units 360) by (rewrite <- units_add; reflexivity).
    lia. }
  set (h := PrimFloat.add x (Double.of_int d)) in *.
  assert (forall t, fin t = true -> 0 <= val t <= units 360 ->
            Double.le 0 t = true /\ Double.le t 360 = true) as Hin.
  { intros t Ft Ht. rewrite !le_val by assumption. rewrite V0, V360.
    change (units 0) with 0. split; apply Z.leb_le; lia. }
  unfold shift_turn, Double.gt. rewrite !lt_val by assumption. rewrite V0, V360.
  change (units 0) with 0.
  assert (units 720 = units 360 + units 360) as H720
    by (rewrite <- units_add; reflexivity).
  destruct (val h <? 0) eqn:E1.
  - apply Z.ltb_lt in E1.
    destruct (add_bound h 360 0 360 Fh F360 ltac:(lia) ltac:(lia)) as [Ft Vt].
    { rewrite V360. change (units 0) with 0. lia. }
    apply Hin; [exact Ft|]. change (units 0) with 0 in Vt. lia.
  - apply Z.ltb_ge in E1. destruct (units 360 <? val h) eqn:E2.
    + apply Z.ltb_lt in E2.
      destruct (sub_bound h 360 0 360 Fh F360 ltac:(lia) ltac:(lia)) as [Ft Vt].
      { rewrite V360. change (units 0) with 0. lia. }
      apply Hin; [exact Ft|]. change (units 0) with 0 in Vt. lia.
    + apply Z.ltb_ge in E2. apply Hin; [exact Fh|]. lia.
Qed.

End Rounding.

(** ** Relative edits, entry by entry *)

Section RelativeFacts.
Context `{Gfx}.

Lemma to_int_small (x : Z) : INT_MIN <= x <= INT_MAX -> to_int x = x.
Proof.
  unfold to_int, INT_MIN, INT_MAX. intros Hx. rewrite Z.mod_small; lia.
Qed.

Lemma to_int_range (x : Z) : INT_MIN <= to_int x <= INT_MAX.
Proof.
  unfold to_int, INT_MIN, INT_MAX.
  pose proof (Z.mod_pos_bound (x - - 2 ^ 31) (2 ^ 32) ltac:(lia)). lia.
Qed.

(** The sum of a channel and of a delta that an [int] holds with room
    for the channel is the sum of the integers. *)
Lemma to_int_channel (x d : Z) :
  0 <= x <= 255 -> INT_MIN <= d <= INT_MAX - 255 -> to_int (x + d) = x + d.
Proof.
  intros Hx Hd. apply to_int_small. unfold INT_MIN, INT_MAX in *. lia.
Qed.

Lemma MID_0_255 (x : Z) : 0 <= MID 0 x 255 <= 255.
Proof.
  unfold MID, MAX, MIN.
  destruct (x <? 255) eqn:E1.
  - destruct (0 >? x) eqn:E2; lia.
  - cbn. lia.
Qed.

Lemma delta_at_fst (m : gmap Channel Z) (k : Channel) :
  (delta_at m k).1 = delta_of m k.
Proof. unfold delta_at, delta_of. destruct (m !! k); reflexivity. Qed.

(** Reading [m_relDeltas[k]] may add the key [k], never changes what any
    key reads as. *)
Lemma delta_at_snd (m : gmap Channel Z) (k k' : Channel) :
  delta_of (delta_at m k).2 k' = delta_of m k'.
Proof.
  unfold delta_at, delta_of. destruct (m !! k) eqn:E; [reflexivity|]. cbn.
  destruct (decide (k = k')) as [->|Hne].
  - rewrite lookup_insert_eq, E. reflexivity.
  - rewrite lookup_insert_ne by exact Hne. reflexivity.
Qed.

Lemma delta_at_eq (m : gmap Channel Z) (k : Channel) :
  delta_at m k = (delta_of m k, (delta_at m k).2).
Proof. rewrite <- delta_at_fst. destruct (delta_at m k); reflexivity. Qed.

Lemma delta_of_insert (m : gmap Channel Z) (k k' : Channel) (d : Z) :
  delta_of (<[k := d]> m) k' = if decide (k = k') then d else delta_of m k'.
Proof.
  unfold delta_of. destruct (decide (k = k')) as [->|Hne].
  - rewrite lookup_insert_eq. reflexivity.
  - rewrite lookup_insert_ne by exact Hne. reflexivity.
Qed.

Ltac read_delta :=
  match goal with
  | |- context [delta_at ?m ?k] =>
      rewrite (delta_at_eq m k);
      let m' := fresh "m" in
      let Hm := fresh "Hm" in
      pose proof (delta_at_snd m k) as Hm;
      set (m' := (delta_at m k).2) in *;
      clearbody m'; cbn beta iota
  end.

(** [relative_entry] writes [relative_color] of the deltas as stored, and
    leaves every stored delta as it was. *)
Lemma relative_entry_spec (m_type : ColorType) (m : gmap Channel Z) (src_color : Z) :
  (relative_entry m_type m src_color).1 = relative_color m_type (delta_of m) src_color
  /\ forall k, delta_of (relative_entry m_type m src_color).2 k = delta_of m k.
Proof.
  unfold relative_entry, relative_color, relative_hsv, relative_hsl.
  destruct m_type; cbn beta iota zeta; try (split; reflexivity).
  all: repeat read_delta; cbn [fst snd]; split;
    [ repeat match goal with Hm : forall _, delta_of _ _ = _ |- _ =>
               rewrite ?Hm; clear Hm end; reflexivity
    | intros k; repeat match goal with Hm : forall _, delta_of _ _ = _ |- _ =>
               rewrite ?Hm; clear Hm end; reflexivity ].
Qed.

Lemma relative_color_ext (m_type : ColorType) (d d' : Channel -> Z) (src_color : Z) :
  (forall k, d k = d' k) ->
  relative_color m_type d src_color = relative_color m_type d' src_color.
Proof.
  intros Hd. unfold relative_color, relative_hsv, relative_hsl,
    hsv_new_hue, hsv_new_saturation, hsv_new_value,
    hsl_new_hue, hsl_new_saturation, hsl_new_lightness.
  destruct m_type; rewrite ?Hd; reflexivity.
Qed.

Lemma relative_color_rgb (d : Channel -> Z) (base : Z) :
  let new := relative_color RgbType d base in
  rgba_getr new = MID 0 (to_int (rgba_getr base + d Red)) 255
  /\ rgba_getg new = MID 0 (to_int (rgba_getg base + d Green)) 255
  /\ rgba_getb new = MID 0 (to_int (rgba_getb base + d Blue)) 255
  /\ rgba_geta new = MID 0 (to_int (rgba_geta base + d Alpha)) 255.
Proof.
  cbn zeta. unfold relative_color.
  rewrite rgba_getr_rgba, rgba_getg_rgba, rgba_getb_rgba, rgba_geta_rgba.
  rewrite (uint8_small (MID 0 (to_int (rgba_getr base + d Red)) 255)),
          (uint8_small (MID 0 (to_int (rgba_getg base + d Green)) 255)),
          (uint8_small (MID 0 (to_int (rgba_getb base + d Blue)) 255)),
          (uint8_small (MID 0 (to_int (rgba_geta base + d Alpha)) 255))
    by apply MID_0_255.
  repeat split; reflexivity.
Qed.

Lemma relative_color_alpha (m_type : ColorType) (d : Channel -> Z) (base : Z) :
  m_type = HsvType \/ m_type = HslType ->
  rgba_geta (relative_color m_type d base) = MID 0 (to_int (rgba_geta base + d Alpha)) 255.
Proof.
  unfold relative_color. intros [-> | ->];
    rewrite rgba_geta_rgba, uint8_small by apply MID_0_255; reflexivity.
Qed.

End RelativeFacts.

(** ** The three edit operations on a whole palette *)

Section EditFacts.
Context `{Gfx}.

Lemma setPaletteEntry_lookup (palView : PaletteView) (color : Color)
    (palette : Palette) (i : nat) :
  setPaletteEntry palView color palette !! i
  = if pick_at (getPicks palView) i
    then (fun _ => rgba (getRed color) (getGreen color) (getBlue color) 255)
           <$> (palette !! i)
    else palette !! i.
Proof.
  unfold setPaletteEntry.
  rewrite (for_each_entry_lookup (pick_at (getPicks palView))
             (fun _ => rgba (getRed color) (getGreen color) (getBlue color) 255))
    by reflexivity.
  destruct (decide (i < length palette)%nat) as [Hi|Hi].
  - rewrite bool_decide_eq_true_2 by exact Hi. reflexivity.
  - rewrite bool_decide_eq_false_2 by exact Hi. cbn [andb].
    rewrite (lookup_ge_None_2 palette i) by lia.
    destruct (pick_at (getPicks palView) i); reflexivity.
Qed.

Lemma setAbsolutePaletteEntryChannel_lookup (m_type : ColorType)
    (palView : PaletteView) (channel : Channel) (color : Color)
    (palette : Palette) (i : nat) :
  setAbsolutePaletteEntryChannel m_type palView channel color palette !! i
  = if pick_at (getPicks palView) i
    then absolute_entry m_type (picks (getPicks palView)) channel color
           <$> (palette !! i)
    else palette !! i.
Proof.
  unfold setAbsolutePaletteEntryChannel.
  rewrite (for_each_entry_lookup (pick_at (getPicks palView))
             (absolute_entry m_type (picks (getPicks palView)) channel color)).
  - destruct (decide (i < length palette)%nat) as [Hi|Hi].
    + rewrite bool_decide_eq_true_2 by exact Hi. reflexivity.
    + rewrite bool_decide_eq_false_2 by exact Hi. cbn [andb].
      rewrite (lookup_ge_None_2 palette i) by lia.
      destruct (pick_at (getPicks palView) i); reflexivity.
  - intros c q. destruct (pick_at (getPicks palView) c); reflexivity.
Qed.

(** The loop of a relative edit, after [n] entries. *)
Lemma relative_loop (m_type : ColorType) (entries : PalettePicks)
    (m_fromPalette : Palette) (m0 : gmap Channel Z) (p : Palette) (n : nat) :
  let st :=
    for_each_entry n
      (fun c '(palette, m_relDeltas) =>
         if negb (pick_at entries c) then (palette, m_relDeltas)
         else
           let src_color := getEntry m_fromPalette c in
           let '(color, m_relDeltas) := relative_entry m_type m_relDeltas src_color in
           (setEntry palette c color, m_relDeltas))
      (p, m0) in
  (forall k, delta_of st.2 k = delta_of m0 k)
  /\ forall i,
       st.1 !! i
       = if bool_decide (i < n)%nat && pick_at entries i
         then (fun _ => relative_color m_type (delta_of m0) (getEntry m_fromPalette i))
                <$> (p !! i)
         else p !! i.
Proof.
  induction n as [|n IH]; cbn zeta.
  - split; reflexivity.
  - rewrite for_each_entry_S.
    cbn zeta in IH. destruct (for_each_entry n _ (p, m0)) as [pn mn].
    cbn [fst snd] in IH. destruct IH as [IHm IHp].
    destruct (pick_at entries n) eqn:Hpick; cbn [negb].
    + pose proof (relative_entry_spec m_type mn (getEntry m_fromPalette n)) as [Hc Hm].
      destruct (relative_entry m_type mn (getEntry m_fromPalette n)) as [color mn'].
      cbn [fst snd] in *. split.
      * intros k. rewrite Hm. apply IHm.
      * intros i. unfold setEntry.
        destruct (decide (i = n)) as [->|Hne].
        -- rewrite bool_decide_eq_true_2 by lia. rewrite Hpick. cbn [andb].
           specialize (IHp n). rewrite bool_decide_eq_false_2 in IHp by lia.
           cbn [andb] in IHp.
           destruct (p !! n) as [x|] eqn:Hp; cbn.
           ++ rewrite list_lookup_insert_eq
                by (apply lookup_lt_is_Some; rewrite IHp; eauto).
              rewrite Hc. f_equal. apply relative_color_ext. exact IHm.
           ++ rewrite list_insert_ge; [exact IHp|].
              apply lookup_ge_None. exact IHp.
        -- rewrite list_lookup_insert_ne by congruence. rewrite IHp.
           assert (bool_decide (i < Datatypes.S n)%nat = bool_decide (i < n)%nat) as ->
             by (apply bool_decide_ext; lia).
           reflexivity.
    + split; [exact IHm|].
      intros i. rewrite IHp.
      destruct (decide (i = n)) as [->|Hne].
      * rewrite Hpick, !andb_false_r. reflexivity.
      * assert (bool_decide (i < Datatypes.S n)%nat = bool_decide (i < n)%nat) as ->
          by (apply bool_decide_ext; lia).
        reflexivity.
Qed.

(** A relative edit stores [delta] for [channel] and rewrites every
    picked entry from the baseline palette and the stored deltas. *)
Lemma setRelativePaletteEntryChannel_spec (m_type : ColorType)
    (palView : PaletteView) (m_fromPalette : Palette) (m_relDeltas : gmap Channel Z)
    (channel : Channel) (delta : Z) (palette : Palette) :
  let st := setRelativePaletteEntryChannel m_type palView m_fromPalette m_relDeltas
              channel delta palette in
  (forall k, delta_of st.2 k = if decide (channel = k) then delta else delta_of m_relDeltas k)
  /\ forall i,
       st.1 !! i
       = if pick_at (getPicks palView) i
         then (fun _ => relative_color m_type (delta_of (<[channel := delta]> m_relDeltas))
                          (getEntry m_fromPalette i))
                <$> (palette !! i)
         else palette !! i.
Proof.
  cbn zeta. unfold setRelativePaletteEntryChannel.
  pose proof (relative_loop m_type (getPicks palView) m_fromPalette
                (<[channel := delta]> m_relDeltas) palette (length palette)) as [Hm Hp].
  split.
  - intros k. rewrite Hm. apply delta_of_insert.
  - intros i. rewrite Hp.
    destruct (decide (i < length palette)%nat) as [Hi|Hi].
    + rewrite bool_decide_eq_true_2 by exact Hi. reflexivity.
    + rewrite bool_decide_eq_false_2 by exact Hi. cbn [andb].
      rewrite (lookup_ge_None_2 palette i) by lia.
      destruct (pick_at (getPicks palView) i); reflexivity.
Qed.

(** With several entries picked, an absolute edit of [Red] in RGB mode
    stores the payload's green as well: the [Red] case runs on into the
    [Green] case. *)
Lemma absolute_red_runs_into_green (picksCount : Z) (color : Color) (src_color : Z) :
  picksCount <> 1 ->
  absolute_entry RgbType picksCount Red color src_color
  = rgba (getRed color) (getGreen color) (rgba_getb src_color) (rgba_geta src_color).
Proof.
  intros Hn. unfold absolute_entry.
  destruct (Z.eqb_spec picksCount 1); [contradiction|reflexivity].
Qed.

(** With several entries picked, an absolute edit of the HSV hue converts
    the entry's own colour to HSV, calls the hue setter alone with the
    payload's hue, and converts back; it keeps the entry's alpha. *)
Lemma absolute_hue_keeps_saturation_value (picksCount : Z) (color : Color)
    (src_color : Z) :
  picksCount <> 1 ->
  let own := Hsv_of_Rgb (mkRgb (rgba_getr src_color) (rgba_getg src_color)
                               (rgba_getb src_color)) in
  let rgb := Rgb_of_Hsv (Hsv_set_hue (getHsvHue color) own) in
  absolute_entry HsvType picksCount HsvHue color src_color
  = rgba (red rgb) (green rgb) (blue rgb) (rgba_geta src_color).
Proof.
  intros Hn. unfold absolute_entry.
  destruct (Z.eqb_spec picksCount 1); [contradiction|reflexivity].
Qed.

End EditFacts.

(** ** Commits and timer firings *)

Section Frames.
Context `{DocLayer}.

Lemma same_ui_refl (w : World) : same_ui w w.
Proof. repeat split. Qed.

Lemma same_ui_trans (w1 w2 w3 : World) : same_ui w1 w2 -> same_ui w2 w3 -> same_ui w1 w3.
Proof.
  unfold same_ui. intros (A1 & A2 & A3 & A4) (B1 & B2 & B3 & B4).
  repeat split; congruence.
Qed.

Lemma call_same_ui (c : Call) (w : World) : same_ui w (call c w).1.
Proof.
  unfold call. destruct (raises c (activeDocument (record_call c w)));
    repeat split.
Qed.

Lemma bind_same_ui {A B : Type} (m : Try A) (k : A -> Try B) (w : World) :
  same_ui w (m w).1 ->
  (forall a w', same_ui w' (k a w').1) ->
  same_ui w (bind m k w).1.
Proof.
  intros Hm Hk. unfold bind. destruct (m w) as [w' [e|a]]; cbn [fst] in *.
  - exact Hm.
  - eapply same_ui_trans; [exact Hm|apply Hk].
Qed.

(** The [try] block of a commit writes to the document only. *)
Lemma commit_palette_same_ui (implantChange : bool) (operationName : string) (w : World) :
  same_ui w (commit_palette implantChange operationName w).1.
Proof.
  unfold commit_palette. apply bind_same_ui; [apply call_same_ui|].
  intros _ w'. destruct (activeDocument w') as [document|]; [|apply same_ui_refl].
  destruct (sprite document) as [s|]; [|apply same_ui_refl].
  destruct (countDiff _ _ _) as [from to].
  destruct ((from >=? 0) && (to >=? from)); [|apply same_ui_refl].
  destruct (implantChange && _).
  - apply bind_same_ui; [apply call_same_ui|]. intros _ w''. apply call_same_ui.
  - apply bind_same_ui; [apply call_same_ui|]. intros _ w''.
    apply bind_same_ui; [apply call_same_ui|]. intros _ w'''. apply call_same_ui.
Qed.

Lemma updateCurrentSpritePalette_palette (operationName : string) (ed : Editor) (w : World) :
  current_palette (updateCurrentSpritePalette operationName (ed, w)).2 = current_palette w.
Proof.
  unfold updateCurrentSpritePalette. cbn [snd].
  destruct (bool_decide _); [|reflexivity].
  unfold catch.
  pose proof (commit_palette_same_ui (m_implantChange ed) operationName w) as Hs.
  destruct (commit_palette (m_implantChange ed) operationName w) as [w' [e|[]]];
    cbn [fst] in Hs; destruct Hs as (Hp & _); exact Hp.
Qed.

Lemma tick_first (ed : Editor) (w : World) :
  m_redrawAll ed = false ->
  tick (ed, w)
  = (with_flags (isRunning ed) true (m_implantChange ed) ed,
     if current_editor w then send Editor_updateEditor w else w).
Proof. intros Hr. unfold tick, onProcessMessage. rewrite Hr. reflexivity. Qed.

Lemma tick_second (ed : Editor) (w : World) :
  m_redrawAll ed = true ->
  let st' := tick (ed, w) in
  st'.1 = with_selfPalChange false (with_flags false false false ed)
  /\ signals st'.2 = signals w ++ full_redraw w
  /\ current_palette st'.2 = current_palette w.
Proof.
  intros Hr. cbn zeta. unfold tick, onProcessMessage, PaletteChange, onPalChange.
  rewrite Hr. cbn [with_selfPalChange m_selfPalChange negb].
  unfold catch, bind, call, full_redraw. cbn [activeDocument record_call send].
  destruct (raises ContextWriter_new (activeDocument w)) as [e|].
  - cbn. repeat split.
  - destruct (activeDocument w) as [document|]; cbn; rewrite <- ?app_assoc; repeat split.
Qed.

Lemma resetRelativeInfo_is_reset (st : Editor * World) : is_reset (resetRelativeInfo st).
Proof. destruct st as [ed w]. split; reflexivity. Qed.

(** A commit with a non-empty diff and no throw, outside and inside the
    implant test. *)
Lemma commit_new_transaction (operationName : string) (ed : Editor) (w : World)
    (p0 : Palette) (f : Z) (undo : list CmdSequence) (t : option CmdSequence)
    (from to : Z) :
  activeDocument w = Some (mkDocument (Some (mkSprite f p0)) undo t) ->
  (forall c d, raises c d = None) ->
  countDiff p0 (current_palette w) (-1, -1) = (from, to) ->
  from >= 0 -> to >= from ->
  (m_implantChange ed = false
   \/ forall last, lastExecutedCmd undo = Some last -> label last <> operationName) ->
  let st' := updateCurrentSpritePalette operationName (ed, w) in
  activeDocument st'.2
  = Some (mkDocument (Some (mkSprite f (current_palette w)))
            (mkCmdSequence operationName [SetPalette f (current_palette w)] :: undo) None)
  /\ current_palette st'.2 = current_palette w
  /\ m_implantChange st'.1 = true
  /\ m_redrawAll st'.1 = false.
Proof.
  intros Hdoc Hquiet Hdiff Hfrom Hto Hnew. cbn zeta.
  unfold updateCurrentSpritePalette. cbn [snd fst].
  rewrite Hdoc. cbn [mbind option_bind sprite].
  rewrite bool_decide_eq_true_2 by eauto.
  unfold catch, commit_palette, bind, call. cbn [activeDocument record_call].
  rewrite !Hquiet, Hdoc. cbn. rewrite Hdiff.
  replace ((from >=? 0) && (to >=? from)) with true by lia.
  assert (m_implantChange ed &&
          match lastExecutedCmd undo with
          | Some last => bool_decide (label last = operationName)
          | None => false
          end = false) as ->.
  { destruct Hnew as [-> | Hlabel]; [reflexivity|].
    destruct (lastExecutedCmd undo) as [last|]; [|apply andb_false_r].
    rewrite (bool_decide_eq_false_2 _ (Hlabel last eq_refl)). apply andb_false_r. }
  rewrite !Hquiet. cbn. repeat split.
Qed.

Lemma commit_implant (operationName : string) (ed : Editor) (w : World)
    (p0 : Palette) (f : Z) (last : CmdSequence) (older : list CmdSequence)
    (t : option CmdSequence) (from to : Z) :
  activeDocument w = Some (mkDocument (Some (mkSprite f p0)) (last :: older) t) ->
  (forall c d, raises c d = None) ->
  countDiff p0 (current_palette w) (-1, -1) = (from, to) ->
  from >= 0 -> to >= from ->
  m_implantChange ed = true ->
  label last = operationName ->
  let st' := updateCurrentSpritePalette operationName (ed, w) in
  activeDocument st'.2
  = Some (mkDocument (Some (mkSprite f (current_palette w)))
            (add_Cmd (SetPalette f (current_palette w)) last :: older) t)
  /\ current_palette st'.2 = current_palette w
  /\ m_implantChange st'.1 = true
  /\ m_redrawAll st'.1 = false.
Proof.
  intros Hdoc Hquiet Hdiff Hfrom Hto Himplant Hlabel. cbn zeta.
  unfold updateCurrentSpritePalette. cbn [snd fst].
  rewrite Hdoc. cbn [mbind option_bind sprite].
  rewrite bool_decide_eq_true_2 by eauto.
  unfold catch, commit_palette, bind, call. cbn [activeDocument record_call].
  rewrite !Hquiet, Hdoc. cbn. rewrite Hdiff.
  replace ((from >=? 0) && (to >=? from)) with true by lia.
  rewrite Himplant, (bool_decide_eq_true_2 _ Hlabel). cbn [andb].
  rewrite !Hquiet. cbn. repeat split.
Qed.

Lemma tick_document (st : Editor * World) :
  (forall c d, raises c d = None) ->
  let st' := tick st in
  activeDocument st'.2 = activeDocument st.2
  /\ current_palette st'.2 = current_palette st.2
  /\ (m_redrawAll st.1 = false ->
        m_redrawAll st'.1 = true /\ m_implantChange st'.1 = m_implantChange st.1)
  /\ (m_redrawAll st.1 = true -> m_implantChange st'.1 = false).
Proof.
  intros Hquiet. destruct st as [ed w]. cbn zeta. cbn [fst snd].
  destruct (m_redrawAll ed) eqn:Hr.
  - unfold tick, onProcessMessage, PaletteChange, onPalChange. rewrite Hr.
    cbn [with_selfPalChange m_selfPalChange negb].
    unfold catch, bind, call. cbn [activeDocument record_call send].
    rewrite Hquiet. destruct (activeDocument w) as [document|]; cbn;
      repeat split; intros; discriminate.
  - rewrite tick_first by exact Hr. cbn [fst snd].
    destruct (current_editor w); cbn; repeat split; intros; discriminate || reflexivity.
Qed.

End Frames.

(** ** The scans of the selection *)

Section Scans.

Lemma loop_up_spec (stop : Z -> bool) (size : Z) (fuel : nat) (i : Z) :
  size - i <= Z.of_nat fuel ->
  let r := loop_up stop size fuel i in
  i <= r
  /\ (r < size -> stop r = true)
  /\ (i <= size -> r <= size)
  /\ forall k, i <= k < r -> stop k = false.
Proof.
  revert i. induction fuel as [|fuel IH]; intros i Hfuel; cbn.
  - repeat split; intros; lia.
  - destruct (Z.ltb_spec i size) as [Hlt|Hge].
    + destruct (stop i) eqn:Hs.
      * repeat split; intros; solve [lia | auto].
      * destruct (IH (i + 1) ltac:(lia)) as (H1 & H2 & H3 & H4).
        split; [lia|]. split; [exact H2|]. split; [lia|].
        intros k Hk. destruct (decide (k = i)) as [->|Hne]; [exact Hs|].
        apply H4. lia.
    + repeat split; intros; lia.
Qed.

Lemma loop_down_spec (stop : Z -> bool) (fuel : nat) (j : Z) :
  j + 1 <= Z.of_nat fuel ->
  let r := loop_down stop fuel j in
  r <= j
  /\ (0 <= r -> stop r = true)
  /\ (-1 <= j -> -1 <= r)
  /\ forall k, r < k <= j -> stop k = false.
Proof.
  revert j. induction fuel as [|fuel IH]; intros j Hfuel; cbn.
  - repeat split; intros; lia.
  - destruct (Z.geb_spec j 0) as [Hge|Hlt].
    + destruct (stop j) eqn:Hs.
      * repeat split; intros; solve [lia | auto].
      * destruct (IH (j - 1) ltac:(lia)) as (H1 & H2 & H3 & H4).
        split; [lia|]. split; [exact H2|]. split; [lia|].
        intros k Hk. destruct (decide (k = j)) as [->|Hne]; [exact Hs|].
        apply H4. lia.
    + repeat split; intros; lia.
Qed.

Lemma entry_at_size (entries : PalettePicks) (k : Z) :
  entry_at entries k = true -> 0 <= k -> k < Z.of_nat (length entries).
Proof.
  unfold entry_at, pick_at. intros Hk Hpos.
  destruct (entries !! Z.to_nat k) as [b|] eqn:Hl; [|discriminate].
  apply lookup_lt_Some in Hl. lia.
Qed.

Lemma entry_at_of_nat (entries : PalettePicks) (c : nat) :
  entry_at entries (Z.of_nat c) = pick_at entries c.
Proof. unfold entry_at. rewrite Nat2Z.id. reflexivity. Qed.

(** The first scan stops at the least selected index, or at the size. *)
Lemma first_selected_spec (entries : PalettePicks) :
  let i := first_selected entries in
  0 <= i <= Z.of_nat (length entries)
  /\ (i < Z.of_nat (length entries) -> entry_at entries i = true)
  /\ forall k, 0 <= k < i -> entry_at entries k = false.
Proof.
  cbn zeta. unfold first_selected.
  destruct (loop_up_spec (fun i => entry_at entries i) (Z.of_nat (length entries))
              (Z.to_nat (Z.of_nat (length entries))) 0 ltac:(lia))
    as (H1 & H2 & H3 & H4).
  repeat split; try lia; auto.
Qed.

(** The third scan stops at the greatest selected index, or at -1. *)
Lemma last_selected_spec (entries : PalettePicks) :
  let j := last_selected entries in
  -1 <= j < Z.of_nat (length entries)
  /\ (0 <= j -> entry_at entries j = true)
  /\ forall k, j < k -> 0 <= k -> entry_at entries k = false.
Proof.
  cbn zeta. unfold last_selected.
  destruct (loop_down_spec (fun j => entry_at entries j)
              (Z.to_nat (Z.of_nat (length entries)))
              (Z.of_nat (length entries) - 1) ltac:(lia))
    as (H1 & H2 & H3 & H4).
  repeat split; try lia; auto.
  intros k Hk Hpos.
  destruct (Z.le_gt_cases k (Z.of_nat (length entries) - 1)) as [Hin|Hout].
  - apply H4. lia.
  - destruct (entry_at entries k) eqn:He; [|reflexivity].
    apply entry_at_size in He; lia.
Qed.

(** The second scan stops at the first unselected index after [i], or at
    the size; past the size it does not run at all. *)
Lemma first_unselected_after_spec (entries : PalettePicks) (i : Z) :
  let i2 := first_unselected_after entries i in
  i + 1 <= i2
  /\ (i2 < Z.of_nat (length entries) -> entry_at entries i2 = false)
  /\ (i + 1 <= Z.of_nat (length entries) -> i2 <= Z.of_nat (length entries))
  /\ (Z.of_nat (length entries) <= i + 1 -> i2 = i + 1)
  /\ forall k, i + 1 <= k < i2 -> entry_at entries k = true.
Proof.
  cbn zeta. unfold first_unselected_after.
  destruct (loop_up_spec (fun i2 => negb (entry_at entries i2))
              (Z.of_nat (length entries))
              (Z.to_nat (Z.of_nat (length entries) - (i + 1))) (i + 1) ltac:(lia))
    as (H1 & H2 & H3 & H4).
  split; [exact H1|]. split; [|split; [exact H3|split]].
  - intros Hlt. apply negb_true_iff. apply H2. exact Hlt.
  - intros Hge.
    destruct (Z.to_nat (Z.of_nat (length entries) - (i + 1))) eqn:Hfuel; cbn.
    + reflexivity.
    + destruct (Z.ltb_spec (i + 1) (Z.of_nat (length entries))); [lia|reflexivity].
  - intros k Hk. apply negb_false_iff. apply H4. exact Hk.
Qed.

(** The label of a selection of no entry, or of one. *)
Lemma entry_label_none_or_one (entries : PalettePicks) :
  ((forall c, pick_at entries c = false) ->
     entry_label entries = " No Entry")
  /\ (forall a : nat,
        (forall c, pick_at entries c = true <-> c = a) ->
        entry_label entries = " Entry: " +:+ pretty (Z.of_nat a)).
Proof.
  pose proof (first_selected_spec entries) as (Hi & Hi_sel & Hi_min).
  pose proof (last_selected_spec entries) as (Hj & Hj_sel & Hj_max).
  pose proof (first_unselected_after_spec entries (first_selected entries))
    as (Hi2 & Hi2_unsel & Hi2_size & Hi2_out & Hi2_run).
  cbn zeta in *. unfold entry_label.
  set (i := first_selected entries) in *.
  set (j := last_selected entries) in *.
  set (i2 := first_unselected_after entries i) in *.
  set (size := Z.of_nat (length entries)) in *.
  assert (Hnat : forall k, 0 <= k -> entry_at entries k = pick_at entries (Z.to_nat k))
    by reflexivity.
  split.
  - intros Hnone.
    assert (i = size) as Hi_eq.
    { destruct (Z.lt_ge_cases i size) as [Hlt|Hge]; [|lia].
      specialize (Hi_sel Hlt). rewrite Hnat, Hnone in Hi_sel by lia. discriminate. }
    assert (j = -1) as Hj_eq.
    { destruct (Z.lt_ge_cases j 0) as [Hlt|Hge]; [lia|].
      specialize (Hj_sel Hge). rewrite Hnat, Hnone in Hj_sel by lia. discriminate. }
    assert (i2 = i + 1) as Hi2_eq by (apply Hi2_out; lia).
    destruct (Z.eqb_spec i j); [lia|].
    destruct (Z.eqb_spec (j - i + 1) (i2 - i)); [lia|].
    destruct (Z.eqb_spec i size); [reflexivity|lia].
  - intros a Hone.
    assert (pick_at entries a = true) as Ha by (apply Hone; reflexivity).
    assert (Z.of_nat a < size) as Ha_size.
    { apply entry_at_size; [|lia]. rewrite entry_at_of_nat. exact Ha. }
    assert (i = Z.of_nat a) as Hi_eq.
    { assert (i < size) as Hlt.
      { destruct (Z.lt_ge_cases i size) as [Hlt|Hge]; [exact Hlt|].
        specialize (Hi_min (Z.of_nat a) ltac:(lia)).
        rewrite entry_at_of_nat in Hi_min. congruence. }
      specialize (Hi_sel Hlt). rewrite Hnat in Hi_sel by lia.
      apply Hone in Hi_sel. lia. }
    assert (j = Z.of_nat a) as Hj_eq.
    { assert (0 <= j) as Hpos.
      { destruct (Z.lt_ge_cases j 0) as [Hlt|Hge]; [|exact Hge].
        specialize (Hj_max (Z.of_nat a) ltac:(lia) ltac:(lia)).
        rewrite entry_at_of_nat in Hj_max. congruence. }
      specialize (Hj_sel Hpos). rewrite Hnat in Hj_sel by lia.
      apply Hone in Hj_sel. lia. }
    destruct (Z.eqb_spec i j); [|lia]. rewrite Hi_eq. reflexivity.
Qed.

End Scans.

(** ** Colours of 32 bits *)

Section Words.

Lemma rgba_of_channels (x : Z) :
  0 <= x < 2 ^ 32 ->
  rgba (rgba_getr x) (rgba_getg x) (rgba_getb x) (rgba_geta x) = x.
Proof.
  intros Hx. apply Z.bits_inj'. intros n Hn.
  unfold rgba_getr, rgba_getg, rgba_getb, rgba_geta, rgba, uint8,
         rgba_r_shift, rgba_g_shift, rgba_b_shift, rgba_a_shift.
  repeat first
    [ rewrite Z.land_spec | rewrite Z.lor_spec
    | rewrite Z.shiftr_spec by lia | rewrite Z.shiftl_spec by lia
    | rewrite testbit_255 ].
  destruct (Z.lt_ge_cases n 32) as [Hlt|Hge].
  - repeat match goal with
           | |- context [?a <=? ?b] => destruct (Z.leb_spec a b); try lia
           | |- context [?a <? ?b] => destruct (Z.ltb_spec a b); try lia
           end;
      cbn [andb orb];
      rewrite ?andb_false_r, ?andb_true_r, ?orb_false_r, ?orb_false_l;
      rewrite ?Z.shiftr_spec by lia;
      f_equal; lia.
  - assert (Z.testbit x n = false) as ->.
    { destruct (Z.eq_dec x 0) as [->|Hne]; [apply Z.bits_0|].
      apply Z.bits_above_log2; [lia|].
      assert (Z.log2 x < 32) by (apply Z.log2_lt_pow2; lia). lia. }
    repeat match goal with
           | |- context [?a <=? ?b] => destruct (Z.leb_spec a b); try lia
           | |- context [?a <? ?b] => destruct (Z.ltb_spec a b); try lia
           end;
      cbn [andb orb];
      rewrite ?andb_false_r, ?andb_true_r, ?orb_false_r, ?orb_false_l;
      reflexivity.
Qed.

Lemma channel_range (x : Z) :
  0 <= rgba_getr x <= 255 /\ 0 <= rgba_getg x <= 255
  /\ 0 <= rgba_getb x <= 255 /\ 0 <= rgba_geta x <= 255.
Proof.
  change (rgba_getr x) with (uint8 (Z.shiftr x rgba_r_shift)).
  change (rgba_getg x) with (uint8 (Z.shiftr x rgba_g_shift)).
  change (rgba_getb x) with (uint8 (Z.shiftr x rgba_b_shift)).
  change (rgba_geta x) with (uint8 (Z.shiftr x rgba_a_shift)).
  rewrite !uint8_mod.
  pose proof (Z.mod_pos_bound (Z.shiftr x rgba_r_shift) 256 ltac:(lia)).
  pose proof (Z.mod_pos_bound (Z.shiftr x rgba_g_shift) 256 ltac:(lia)).
  pose proof (Z.mod_pos_bound (Z.shiftr x rgba_b_shift) 256 ltac:(lia)).
  pose proof (Z.mod_pos_bound (Z.shiftr x rgba_a_shift) 256 ltac:(lia)).
  lia.
Qed.

Lemma MID_inside (x : Z) : 0 <= x <= 255 -> MID 0 x 255 = x.
Proof.
  intros Hx. unfold MID, MAX, MIN.
  destruct (Z.ltb_spec x 255).
  - destruct (0 >? x) eqn:E; lia.
  - destruct (0 >? 255) eqn:E; lia.
Qed.

End Words.

(** ** Sizes and counts *)

Section Sizes.
Context `{Gfx}.

Lemma setPaletteEntry_length (palView : PaletteView) (color : Color) (palette : Palette) :
  length (setPaletteEntry palView color palette) = length palette.
Proof.
  apply same_lookups_same_length. intros i. rewrite setPaletteEntry_lookup.
  destruct (pick_at (getPicks palView) i); [|reflexivity].
  rewrite fmap_is_Some. reflexivity.
Qed.

Lemma setAbsolutePaletteEntryChannel_length (m_type : ColorType) (palView : PaletteView)
    (channel : Channel) (color : Color) (palette : Palette) :
  length (setAbsolutePaletteEntryChannel m_type palView channel color palette)
  = length palette.
Proof.
  apply same_lookups_same_length. intros i. rewrite setAbsolutePaletteEntryChannel_lookup.
  destruct (pick_at (getPicks palView) i); [|reflexivity].
  rewrite fmap_is_Some. reflexivity.
Qed.

Lemma setRelativePaletteEntryChannel_length (m_type : ColorType) (palView : PaletteView)
    (m_fromPalette : Palette) (m_relDeltas : gmap Channel Z) (channel : Channel)
    (delta : Z) (palette : Palette) :
  length (setRelativePaletteEntryChannel m_type palView m_fromPalette m_relDeltas
            channel delta palette).1
  = length palette.
Proof.
  pose proof (setRelativePaletteEntryChannel_spec m_type palView m_fromPalette
                m_relDeltas channel delta palette) as [_ Hp].
  cbn zeta in Hp.
  apply same_lookups_same_length. intros i. rewrite Hp.
  destruct (pick_at (getPicks palView) i); [|reflexivity].
  rewrite fmap_is_Some. reflexivity.
Qed.

Lemma picks_cons (b : bool) (entries : PalettePicks) :
  picks (b :: entries) = (if b then 1 else 0) + picks entries.
Proof.
  unfold picks. rewrite filter_cons. destruct b.
  - rewrite decide_True by reflexivity. cbn [length]. lia.
  - rewrite decide_False by discriminate. lia.
Qed.

Lemma picks_nonneg (entries : PalettePicks) : 0 <= picks entries.
Proof. unfold picks. lia. Qed.

(** Marking one entry of an empty mask gives a mask of one pick. *)
Lemma picks_insert (entries : PalettePicks) (i : nat) :
  picks entries = 0 -> (i < length entries)%nat -> picks (<[i := true]> entries) = 1.
Proof.
  revert i. induction entries as [|b entries IH]; intros i Hz Hi; cbn in Hi; [lia|].
  rewrite picks_cons in Hz. pose proof (picks_nonneg entries).
  destruct b; [lia|]. destruct i as [|i]; cbn [insert list_insert].
  - rewrite picks_cons. lia.
  - change (picks (false :: <[i := true]> entries) = 1).
    rewrite picks_cons, IH by lia. reflexivity.
Qed.

End Sizes.

(** ** The data members across the handlers *)

Section Handlers.
Context `{Gfx} `{DocLayer} `{AppColor}.

Lemma updateCurrentSpritePalette_editor (operationName : string) (ed : Editor) (w : World) :
  (updateCurrentSpritePalette operationName (ed, w)).1 = with_flags true false true ed.
Proof.
  unfold updateCurrentSpritePalette. cbn [fst]. destruct (isRunning ed); reflexivity.
Qed.

Lemma commit_editor_ok (operationName : string) (st : Editor * World) (p : Palette)
    (m : gmap Channel Z) :
  editor_ok st ->
  length p = length (current_palette st.2) ->
  editor_ok (updateColorBar
               (updateCurrentSpritePalette operationName
                  (with_relative (m_fromPalette st.1) m st.1, with_palette p st.2))).
Proof.
  destruct st as [ed w]. intros (Ht & Hs & Hi & Hl) Hp. cbn [fst snd] in *.
  unfold updateColorBar, editor_ok.
  pose proof (updateCurrentSpritePalette_editor operationName
                (with_relative (m_fromPalette ed) m ed) (with_palette p w)) as He.
  pose proof (updateCurrentSpritePalette_palette operationName
                (with_relative (m_fromPalette ed) m ed) (with_palette p w)) as Hpal.
  destruct (updateCurrentSpritePalette operationName _) as [ed' w'].
  cbn [fst snd] in *. subst ed'. cbn. rewrite Hpal. cbn.
  repeat split; try assumption. congruence.
Qed.

Lemma onColorSlidersChange_ok (ev : ColorSlidersChangeEvent) (st : Editor * World) :
  editor_ok st -> editor_ok (onColorSlidersChange ev st).
Proof.
  intros Hok. destruct st as [ed w]. unfold onColorSlidersChange.
  destruct (ev_mode ev).
  - replace ed with (with_relative (m_fromPalette ed) (m_relDeltas ed) ed) at 1
      by (destruct ed; reflexivity).
    apply (commit_editor_ok "Color Change" (ed, w)); [exact Hok|].
    apply setAbsolutePaletteEntryChannel_length.
  - pose proof (setRelativePaletteEntryChannel_length (m_type ed) (paletteView w)
                  (m_fromPalette ed) (m_relDeltas ed) (ev_channel ev) (ev_delta ev)
                  (current_palette w)) as Hlen.
    destruct (setRelativePaletteEntryChannel _ _ _ _ _ _ _) as [p m].
    apply (commit_editor_ok "Color Change" (ed, w)); [exact Hok|exact Hlen].
Qed.

Lemma onColorHexEntryChange_ok (color : Color) (st : Editor * World) :
  editor_ok st -> editor_ok (onColorHexEntryChange color st).
Proof.
  intros Hok. destruct st as [ed w]. unfold onColorHexEntryChange.
  replace ed with (with_relative (m_fromPalette ed) (m_relDeltas ed) ed) at 1
    by (destruct ed; reflexivity).
  apply (commit_editor_ok "Color Change" (ed, w)); [exact Hok|].
  apply setPaletteEntry_length.
Qed.

Lemma resetRelativeInfo_ok (st : Editor * World) :
  (m_type st.1 = RgbType \/ m_type st.1 = HsvType \/ m_type st.1 = HslType) ->
  m_selfPalChange st.1 = false ->
  m_implantChange st.1 = isRunning st.1 ->
  editor_ok (resetRelativeInfo st).
Proof. destruct st as [ed w]. intros Ht Hs Hi. repeat split; assumption. Qed.

Lemma onProcessMessage_ok (msg : Message) (st : Editor * World) :
  editor_ok st -> editor_ok (onProcessMessage msg st).
Proof.
  destruct st as [ed w]. intros (Ht & Hs & Hi & Hl). cbn [fst snd] in *.
  destruct msg as [[]|]; [|repeat split; assumption..].
  destruct (m_redrawAll ed) eqn:Hr.
  - destruct (tick_second ed w Hr) as (He & _ & Hp).
    unfold tick in He, Hp. unfold editor_ok. rewrite He, Hp. cbn.
    repeat split; assumption.
  - pose proof (tick_first ed w Hr) as He. unfold tick in He. rewrite He.
    unfold editor_ok. cbn. destruct (current_editor w); repeat split; assumption.
Qed.

(** The timer handler over the whole window is the timer handler of the
    data members, followed by the call of the handler of the base class:
    under [m_selfPalChange] the slot [onPalChange] does nothing. *)
Lemma Window_onProcessMessage (msg : Message) (ui : Widgets) (st : Editor * World) :
  Window.onProcessMessage msg (ui, st)
  = (ui_call (Base_onProcessMessage msg) ui, onProcessMessage msg st).
Proof.
  destruct st as [ed w]. unfold Window.onProcessMessage, onProcessMessage.
  destruct msg as [[]|]; try reflexivity.
  destruct (m_redrawAll ed); reflexivity.
Qed.

End Handlers.

(** ** The calls on the widgets *)

Section Calls_on_widgets.

Lemma sliders_type_call (c : UiCall) (ui : Widgets) :
  sliders_type (ui_call c ui)
  = match c with Sliders_setColorType type => Some type | _ => sliders_type ui end.
Proof. unfold sliders_type, ui_call. cbn. rewrite foldl_app. reflexivity. Qed.

Lemma selected_button_call (c : UiCall) (ui : Widgets) :
  selected_button (ui_call c ui)
  = match c with ColorType_setSelectedItem item => Some item | _ => selected_button ui end.
Proof. unfold selected_button, ui_call. cbn. rewrite foldl_app. reflexivity. Qed.

Lemma new_calls_app (ui : Widgets) (b : bool) (l : list UiCall)
    (st st' : Editor * World) :
  new_calls (ui, st) (mkWidgets b (ui_calls ui ++ l), st') = l.
Proof. unfold new_calls. cbn. apply drop_app_length. Qed.

End Calls_on_widgets.

(** ** The window across its events *)

Section Events.
Context `{Gfx} `{DocLayer} `{AppColor}.

Ltac trace :=
  unfold sliders_type, selected_button, ui_call; cbn;
  rewrite ?foldl_app; cbn.

Lemma setColor_frame (color : Color) (s : Window.State) :
  let s' := Window.setColor color s in
  s'.2 = s.2
  /\ sliders_type s'.1 = sliders_type s.1
  /\ selected_button s'.1 = selected_button s.1
  /\ m_disableHexUpdate s'.1 = m_disableHexUpdate s.1.
Proof.
  destruct s as [[b l] [ed w]]. cbn zeta. unfold Window.setColor. cbn [fst snd].
  split; [reflexivity|]. destruct b; repeat split; trace; reflexivity.
Qed.

Lemma setColor_well_formed (color : Color) (s : Window.State) :
  well_formed s -> well_formed (Window.setColor color s).
Proof.
  pose proof (setColor_frame color s) as (H2 & Ht & Hb & Hx). cbn zeta in *.
  unfold well_formed. rewrite H2, Ht, Hb, Hx. auto.
Qed.

(** A reset makes the window well formed again when only the baseline
    palette is out of date. *)
Lemma resetRelativeInfo_establishes (s : Window.State) :
  (m_type s.2.1 = RgbType \/ m_type s.2.1 = HsvType \/ m_type s.2.1 = HslType) ->
  m_selfPalChange s.2.1 = false ->
  m_implantChange s.2.1 = isRunning s.2.1 ->
  sliders_type s.1 = Some (m_type s.2.1) ->
  selected_button s.1 = button_of (m_type s.2.1) ->
  m_disableHexUpdate s.1 = false ->
  well_formed (Window.resetRelativeInfo s).
Proof.
  destruct s as [[b l] [ed w]]. cbn [fst snd].
  intros Hty Hs Hi Ht Hb Hx. cbn in Hx. subst b.
  unfold well_formed, Window.resetRelativeInfo. cbn [fst snd].
  split; [apply resetRelativeInfo_ok; assumption|].
  unfold resetRelativeInfo. cbn [fst snd m_type with_relative].
  split; [|split; [|reflexivity]].
  - rewrite <- Ht. trace. reflexivity.
  - rewrite <- Hb. trace. reflexivity.
Qed.

Lemma resetRelativeInfo_well_formed (s : Window.State) :
  well_formed s -> well_formed (Window.resetRelativeInfo s).
Proof.
  intros ((Hty & Hs & Hi & _) & Ht & Hb & Hx).
  apply resetRelativeInfo_establishes; assumption.
Qed.

Lemma ui_call_well_formed (c : UiCall) (ui : Widgets) (st : Editor * World) :
  match c with
  | Sliders_setColorType _ | ColorType_setSelectedItem _ => False
  | _ => True
  end ->
  well_formed (ui, st) -> well_formed (ui_call c ui, st).
Proof.
  destruct ui as [b l]. unfold well_formed. cbn [fst snd].
  intros Hc (Hd & Ht & Hb & Hx).
  split; [exact Hd|]. split; [|split; [|exact Hx]].
  - rewrite <- Ht. destruct c; try contradiction; trace; reflexivity.
  - rewrite <- Hb. destruct c; try contradiction; trace; reflexivity.
Qed.

Lemma selectColorType_well_formed (type : ColorType) (s : Window.State) :
  type = RgbType \/ type = HsvType \/ type = HslType ->
  m_selfPalChange s.2.1 = false ->
  m_implantChange s.2.1 = isRunning s.2.1 ->
  m_disableHexUpdate s.1 = false ->
  well_formed (Window.selectColorType type s).
Proof.
  destruct s as [[b l] [ed w]]. intros Htype Hs Hi Hx.
  cbn in *. subst b.
  unfold well_formed, Window.selectColorType, Window.resetRelativeInfo.
  destruct Htype as [-> | [-> | ->]]; cbn [fst snd];
    (split; [unfold editor_ok; cbn; auto|]);
    (split; [trace; reflexivity|]); (split; [trace; reflexivity|reflexivity]).
Qed.

Lemma updateWidgetsFromSelectedEntries_establishes (s : Window.State) :
  (m_type s.2.1 = RgbType \/ m_type s.2.1 = HsvType \/ m_type s.2.1 = HslType) ->
  m_selfPalChange s.2.1 = false ->
  m_implantChange s.2.1 = isRunning s.2.1 ->
  sliders_type s.1 = Some (m_type s.2.1) ->
  selected_button s.1 = button_of (m_type s.2.1) ->
  m_disableHexUpdate s.1 = false ->
  well_formed (Window.updateWidgetsFromSelectedEntries s).
Proof.
  intros Hty Hs Hi Ht Hb Hx. unfold Window.updateWidgetsFromSelectedEntries.
  assert (well_formed
            (Window.resetRelativeInfo
               (if getSelectedEntry (paletteView s.2.2) >=? 0
                then Window.setColor (fromIndex (getSelectedEntry (paletteView s.2.2))) s
                else s))) as Hr.
  { destruct (_ >=? 0).
    - pose proof (setColor_frame (fromIndex (getSelectedEntry (paletteView s.2.2))) s)
        as (H2 & Ht' & Hb' & Hx').
      cbn zeta in *.
      apply resetRelativeInfo_establishes; rewrite ?H2, ?Ht', ?Hb', ?Hx'; assumption.
    - apply resetRelativeInfo_establishes; assumption. }
  destruct (Window.resetRelativeInfo _) as [ui st].
  apply ui_call_well_formed; [exact I|exact Hr].
Qed.

Lemma updateWidgetsFromSelectedEntries_well_formed (s : Window.State) :
  well_formed s -> well_formed (Window.updateWidgetsFromSelectedEntries s).
Proof.
  intros ((Hty & Hs & Hi & _) & Ht & Hb & Hx).
  apply updateWidgetsFromSelectedEntries_establishes; assumption.
Qed.

Lemma data_well_formed (ui : Widgets) (st st' : Editor * World) :
  m_type st'.1 = m_type st.1 ->
  editor_ok st' ->
  well_formed (ui, st) -> well_formed (ui, st').
Proof.
  unfold well_formed. cbn [fst snd]. intros Ht Hd (_ & Hty & Hb & Hx).
  rewrite Ht. auto.
Qed.

Lemma commit_type (operationName : string) (ed : Editor) (w : World) :
  m_type (updateColorBar (updateCurrentSpritePalette operationName (ed, w))).1 = m_type ed.
Proof.
  unfold updateColorBar.
  pose proof (updateCurrentSpritePalette_editor operationName ed w) as He.
  destruct (updateCurrentSpritePalette operationName (ed, w)) as [ed' w'].
  cbn [fst] in *. subst ed'. reflexivity.
Qed.

Lemma onColorSlidersChange_type (ev : ColorSlidersChangeEvent) (st : Editor * World) :
  m_type (onColorSlidersChange ev st).1 = m_type st.1.
Proof.
  destruct st as [ed w]. unfold onColorSlidersChange.
  destruct (ev_mode ev).
  - apply commit_type.
  - destruct (setRelativePaletteEntryChannel _ _ _ _ _ _ _) as [p m].
    rewrite commit_type. reflexivity.
Qed.

Lemma onColorHexEntryChange_type (color : Color) (st : Editor * World) :
  m_type (onColorHexEntryChange color st).1 = m_type st.1.
Proof. destruct st as [ed w]. unfold onColorHexEntryChange. apply commit_type. Qed.

Lemma onProcessMessage_type (msg : Message) (st : Editor * World) :
  m_type (onProcessMessage msg st).1 = m_type st.1.
Proof.
  destruct st as [ed w]. destruct msg as [[]|]; try reflexivity.
  destruct (m_redrawAll ed) eqn:Hr.
  - destruct (tick_second ed w Hr) as (He & _). unfold tick in He. rewrite He. reflexivity.
  - pose proof (tick_first ed w Hr) as He. unfold tick in He. rewrite He. reflexivity.
Qed.

Lemma handle_well_formed (e : Window.Event) (s : Window.State) :
  well_formed s -> well_formed (Window.handle e s).
Proof.
  intros Hs. destruct e as [item|item|ev|color|color| |msg|color|palView document editor|pal];
    unfold Window.handle.
  - unfold Window.onColorTypeClick.
    pose proof Hs as ((_ & Hself & Hi & _) & _ & _ & Hx).
    repeat match goal with |- context [?a =? ?b] => destruct (a =? b) end;
      try (apply selectColorType_well_formed; auto); exact Hs.
  - unfold Window.onChangeModeClick. destruct s as [ui st].
    apply updateWidgetsFromSelectedEntries_well_formed.
    repeat match goal with |- context [?a =? ?b] => destruct (a =? b) end;
      try (apply ui_call_well_formed; [exact I|]); exact Hs.
  - unfold Window.onColorSlidersChange.
    pose proof (setColor_well_formed (ev_color ev) s Hs) as Hc.
    assert ((Window.setColor (ev_color ev) s).2 = s.2) as Hst
      by (destruct s as [[b l] [ed w]]; reflexivity).
    destruct (Window.setColor (ev_color ev) s) as [ui st]. cbn [snd] in Hst. subst st.
    apply (data_well_formed ui s.2).
    + apply onColorSlidersChange_type.
    + apply onColorSlidersChange_ok. apply Hs.
    + exact Hc.
  - unfold Window.onColorHexEntryChange. destruct s as [[b l] [ed w]].
    destruct Hs as (Hd & Ht & Hb & Hx). cbn [fst snd] in *.
    unfold Window.setColor. cbn [with_disableHexUpdate m_disableHexUpdate ui_call negb fst snd].
    apply (data_well_formed _ (ed, w)).
    + apply onColorHexEntryChange_type.
    + apply onColorHexEntryChange_ok. exact Hd.
    + unfold well_formed. cbn [fst snd].
      split; [exact Hd|]. split; [|split; [|reflexivity]].
      * rewrite <- Ht. unfold sliders_type. cbn. rewrite ?foldl_app. reflexivity.
      * rewrite <- Hb. unfold selected_button. cbn. rewrite ?foldl_app. reflexivity.
  - unfold Window.onFgBgColorChange.
    destruct (negb (isValid color)); [exact Hs|].
    assert (forall c, well_formed
              (if bool_decide (getType c = IndexType)
               then Window.resetRelativeInfo (Window.setColor c s) else s)) as Hlast.
    { intros c. destruct (bool_decide _); [|exact Hs].
      apply resetRelativeInfo_well_formed, setColor_well_formed, Hs. }
    destruct (negb (bool_decide (getType color = IndexType))); [|apply Hlast].
    destruct (_ <? 0); [exact Hs|apply Hlast].
  - unfold Window.onCloseWindow. destruct s as [ui st].
    apply ui_call_well_formed; [exact I|].
    apply ui_call_well_formed; [exact I|exact Hs].
  - destruct s as [ui st]. rewrite Window_onProcessMessage.
    apply ui_call_well_formed; [exact I|].
    apply (data_well_formed ui st).
    + apply onProcessMessage_type.
    + apply onProcessMessage_ok. apply Hs.
    + exact Hs.
  - apply setColor_well_formed. exact Hs.
  - destruct s as [ui [ed w]]. apply (data_well_formed ui (ed, w)); [reflexivity| |exact Hs].
    destruct Hs as (Hd & _). exact Hd.
  - destruct s as [ui [ed w]]. unfold Window.PaletteChange, Window.onPalChange.
    destruct Hs as (Hd & Ht & Hb & Hx). pose proof Hd as (Hty & Hself & Hi & Hl).
    cbn [fst snd] in *. rewrite Hself. cbn [negb].
    apply updateWidgetsFromSelectedEntries_establishes; assumption.
Qed.

End Events.

(** ** The calls a handler adds *)

Section Added_calls.
Context `{!Gfx} `{!DocLayer} `{!AppColor}.

Lemma adds_refl (s : Window.State) : adds_shown_in_both s s.
Proof.
  split; [reflexivity|]. exists []. split; [symmetry; apply app_nil_r|].
  intros c Hc. inversion Hc.
Qed.

Lemma adds_trans (s1 s2 s3 : Window.State) :
  adds_shown_in_both s1 s2 -> adds_shown_in_both s2 s3 -> adds_shown_in_both s1 s3.
Proof.
  intros (Hx1 & t1 & Ht1 & Hp1) (Hx2 & t2 & Ht2 & Hp2).
  split; [congruence|]. exists (t1 ++ t2).
  split; [rewrite Ht2, Ht1, app_assoc; reflexivity|].
  intros c Hc. apply elem_of_app in Hc. apply elem_of_app.
  destruct Hc as [Hc|Hc]; [left; apply Hp1|right; apply Hp2]; exact Hc.
Qed.

Lemma adds_data (ui : Widgets) (st st' : Editor * World) :
  adds_shown_in_both (ui, st) (ui, st').
Proof. apply (adds_refl (ui, st)). Qed.

Lemma adds_ui_call (c : UiCall) (ui : Widgets) (st : Editor * World) :
  match c with Sliders_setColor _ => False | _ => True end ->
  adds_shown_in_both (ui, st) (ui_call c ui, st).
Proof.
  intros Hc. split; [reflexivity|]. exists [c]. split; [reflexivity|].
  intros color Hin. apply list_elem_of_singleton in Hin. subst c. contradiction.
Qed.

Lemma adds_setColor (color : Color) (s : Window.State) :
  m_disableHexUpdate s.1 = false ->
  adds_shown_in_both s (Window.setColor color s).
Proof.
  destruct s as [[b l] [ed w]]. cbn [fst]. intros Hx. cbn in Hx. subst b.
  split; [reflexivity|]. unfold Window.setColor. cbn.
  eexists. split; [rewrite <- !app_assoc; reflexivity|].
  intros c Hc. cbn in Hc.
  apply elem_of_cons in Hc as [Hc|Hc].
  - injection Hc as ->. right. left.
  - repeat (apply elem_of_cons in Hc as [Hc|Hc]; [discriminate|]). inversion Hc.
Qed.

Lemma adds_resetRelativeInfo (s : Window.State) :
  adds_shown_in_both s (Window.resetRelativeInfo s).
Proof.
  destruct s as [ui st]. unfold Window.resetRelativeInfo.
  apply (adds_trans _ (ui_call Sliders_resetRelativeSliders ui, st));
    [apply adds_ui_call; exact I|apply adds_data].
Qed.

Lemma adds_updateWidgetsFromSelectedEntries (s : Window.State) :
  m_disableHexUpdate s.1 = false ->
  adds_shown_in_both s (Window.updateWidgetsFromSelectedEntries s).
Proof.
  intros Hx. unfold Window.updateWidgetsFromSelectedEntries.
  set (s1 := if _ >=? 0 then _ else s).
  assert (adds_shown_in_both s s1) as Hfirst.
  { subst s1. destruct (_ >=? 0); [apply adds_setColor; exact Hx|apply adds_refl]. }
  pose proof (adds_resetRelativeInfo s1) as Hsecond.
  destruct (Window.resetRelativeInfo s1) as [ui st].
  eapply adds_trans; [exact Hfirst|]. eapply adds_trans; [exact Hsecond|].
  apply (adds_ui_call Window_invalidate). exact I.
Qed.

Lemma adds_selectColorType (type : ColorType) (s : Window.State) :
  adds_shown_in_both s (Window.selectColorType type s).
Proof.
  destruct s as [ui [ed w]]. unfold Window.selectColorType.
  pose proof (adds_resetRelativeInfo
                (ui_call (Sliders_setColorType type) ui, (with_type type ed, w))) as Hsecond.
  destruct (Window.resetRelativeInfo _) as [ui2 st2].
  eapply adds_trans; [apply (adds_data ui (ed, w) (with_type type ed, w))|].
  eapply adds_trans; [apply (adds_ui_call (Sliders_setColorType type)); exact I|].
  eapply adds_trans; [exact Hsecond|].
  set (ui3 := match type with RgbType => _ | HsvType => _ | HslType => _ | _ => ui2 end).
  apply (adds_trans _ (ui3, st2)).
  { subst ui3. destruct type; try apply adds_refl;
      apply (adds_ui_call (ColorType_setSelectedItem _)); exact I. }
  apply (adds_trans _ (ui_call VBox_layout ui3, st2));
    [apply (adds_ui_call VBox_layout)|apply (adds_ui_call VBox_invalidate)]; exact I.
Qed.

Lemma adds_handle (e : Window.Event) (s : Window.State) :
  m_disableHexUpdate s.1 = false ->
  m_selfPalChange s.2.1 = false ->
  (forall color, e <> Window.HexColorEntry_ColorChange color) ->
  adds_shown_in_both s (Window.handle e s).
Proof.
  intros Hx Hself He. destruct e as [item|item|ev|color|color| |msg|color|palView document editor|pal];
    unfold Window.handle.
  - unfold Window.onColorTypeClick.
    repeat match goal with |- context [?a =? ?b] => destruct (a =? b) end;
      try apply adds_selectColorType; apply adds_refl.
  - unfold Window.onChangeModeClick. destruct s as [ui st].
    set (ui1 := if _ =? _ then _ else _).
    assert (adds_shown_in_both (ui, st) (ui1, st)) as Hfirst.
    { subst ui1.
      repeat match goal with |- context [?a =? ?b] => destruct (a =? b) end;
        try (apply (adds_ui_call (Sliders_setMode _)); exact I); apply adds_refl. }
    eapply adds_trans; [exact Hfirst|].
    apply adds_updateWidgetsFromSelectedEntries.
    destruct Hfirst as (Hflag & _). cbn [fst] in *. congruence.
  - unfold Window.onColorSlidersChange.
    pose proof (adds_setColor (ev_color ev) s Hx) as Hfirst.
    destruct (Window.setColor (ev_color ev) s) as [ui st].
    eapply adds_trans; [exact Hfirst|apply adds_data].
  - exfalso. exact (He color eq_refl).
  - unfold Window.onFgBgColorChange.
    destruct (negb (isValid color)); [apply adds_refl|].
    assert (forall c, adds_shown_in_both s
              (if bool_decide (getType c = IndexType)
               then Window.resetRelativeInfo (Window.setColor c s) else s)) as Hlast.
    { intros c. destruct (bool_decide _); [|apply adds_refl].
      eapply adds_trans; [apply adds_setColor; exact Hx|apply adds_resetRelativeInfo]. }
    destruct (negb (bool_decide (getType color = IndexType))); [|apply Hlast].
    destruct (_ <? 0); [apply adds_refl|apply Hlast].
  - unfold Window.onCloseWindow. destruct s as [ui st].
    apply (adds_trans _ (ui_call (save_window_pos "PaletteEditor") ui, st));
      [apply (adds_ui_call (save_window_pos _))
      |apply (adds_ui_call (ColorBar_setPaletteEditorButtonState _))]; exact I.
  - destruct s as [ui st]. rewrite Window_onProcessMessage.
    apply (adds_trans _ (ui, onProcessMessage msg st)); [apply adds_data|].
    apply (adds_ui_call (Base_onProcessMessage msg)). exact I.
  - apply adds_setColor. exact Hx.
  - destruct s as [ui [ed w]]. apply adds_data.
  - destruct s as [ui [ed w]]. unfold Window.PaletteChange, Window.onPalChange.
    cbn [fst snd] in *. rewrite Hself. cbn [negb].
    eapply adds_trans;
      [apply (adds_data ui (ed, w)
                (ed, send App_PaletteChange (with_palette pal w)))|].
    apply adds_updateWidgetsFromSelectedEntries. exact Hx.
Qed.

Lemma new_calls_added (s s' : Window.State) (t : list UiCall) :
  ui_calls s'.1 = ui_calls s.1 ++ t -> new_calls s s' = t.
Proof. intros Ht. unfold new_calls. rewrite Ht. apply drop_app_length. Qed.

Lemma PaletteEntryEditor_new_well_formed (w : World) :
  well_formed (Window.PaletteEntryEditor_new w).
Proof.
  unfold Window.PaletteEntryEditor_new.
  pose proof (selectColorType_well_formed RgbType
                (ui_call (ChangeMode_setSelectedItem ABS_MODE) (mkWidgets false []),
                 (mkEditor MaskType false false false false [] ∅, w))) as Hs.
  destruct (Window.selectColorType _ _) as [ui st].
  apply ui_call_well_formed; [exact I|].
  apply Hs; [auto|reflexivity..].
Qed.

Lemma run_well_formed (es : list Window.Event) (s : Window.State) :
  well_formed s -> well_formed (Window.run es s).
Proof.
  revert s. induction es as [|e es IH]; intros s Hs; [exact Hs|].
  apply IH, handle_well_formed, Hs.
Qed.

End Added_calls.

(** ** The command *)

Section CommandFacts.
Context `{!UiLayer}.

(** From [if (m_switch || m_open)] on, the window is opened when one of
    the two flags is set and its frame is left alone otherwise. *)
Lemma show_window_frame (cmd : PaletteEditorCommand) (screen : Screen) (frame : Frame)
    (s : Window.State) :
  exists frame' s',
    g_window (show_window cmd screen frame s) = Some (frame', s')
    /\ if m_switch cmd || m_open cmd
       then exists frame0, frame' = openWindow frame0
       else frame' = frame.
Proof.
  destruct s as [ui [ed w]]. unfold show_window.
  destruct (m_switch cmd || m_open cmd).
  - destruct (Window.setColor _ _) as [ui' [ed' w']]. cbn.
    eexists _, _. split; [reflexivity|]. eexists. reflexivity.
  - destruct (Window.setColor _ _) as [ui' [ed' w']]. cbn.
    eexists _, _. split; reflexivity.
Qed.

(** What [onChecked] answers after [onExecute], with a ui library whose
    [openWindow] leaves the window visible and whose [closeWindow] leaves
    it hidden. *)
Lemma onChecked_onExecute (cmd : PaletteEditorCommand) (screen : Screen) (app : App) :
  (forall frame, isVisible (openWindow frame) = true) ->
  (forall frame, isVisible (closeWindow frame) = false) ->
  onChecked (onExecute cmd screen app)
  = match g_window app with
    | None =>
        if m_close cmd then false
        else if m_switch cmd || m_open cmd then true
        else isVisible Frame_new
    | Some (frame, _) =>
        if isVisible frame && (m_switch cmd || m_close cmd) then false
        else if m_switch cmd || m_open cmd then true
        else isVisible frame
    end.
Proof.
  intros Hopen Hclose. unfold onExecute, onChecked.
  destruct app as [[[frame [ui ed]]|] w]; cbn [g_window world].
  - destruct (isVisible frame && (m_switch cmd || m_close cmd)).
    + cbn. apply Hclose.
    + destruct (show_window_frame cmd screen frame (ui, (ed, w)))
        as (frame' & s' & Hshow & Hframe).
      rewrite Hshow. destruct (m_switch cmd || m_open cmd).
      * destruct Hframe as [frame0 ->]. apply Hopen.
      * subst frame'. reflexivity.
  - destruct (m_close cmd); [reflexivity|].
    destruct (show_window_frame cmd screen Frame_new (Window.PaletteEntryEditor_new w))
      as (frame' & s' & Hshow & Hframe).
    rewrite Hshow. destruct (m_switch cmd || m_open cmd).
    + destruct Hframe as [frame0 ->]. apply Hopen.
    + subst frame'. reflexivity.
Qed.

End CommandFacts.

(** ** Commits that an object of another class leaves *)

Section UnwindingFacts.
Context `{Unwinding.DocLayer}.

Lemma Unwinding_call_same_ui (c : Call) (w : World) : same_ui w (Unwinding.call c w).1.
Proof.
  unfold Unwinding.call.
  destruct (Unwinding.throws c (activeDocument (record_call c w))); repeat split.
Qed.

Lemma Unwinding_bind_same_ui {A B : Type} (m : Unwinding.Try A)
    (k : A -> Unwinding.Try B) (w : World) :
  same_ui w (m w).1 ->
  (forall a w', same_ui w' (k a w').1) ->
  same_ui w (Unwinding.bind m k w).1.
Proof.
  intros Hm Hk. unfold Unwinding.bind. destruct (m w) as [w' [e|a]]; cbn [fst] in *.
  - exact Hm.
  - eapply same_ui_trans; [exact Hm|apply Hk].
Qed.

(** The [try] block of a commit writes to the document only, however it
    ends. *)
Lemma Unwinding_commit_palette_same_ui (implantChange : bool) (operationName : string)
    (w : World) :
  same_ui w (Unwinding.commit_palette implantChange operationName w).1.
Proof.
  unfold Unwinding.commit_palette.
  apply Unwinding_bind_same_ui; [apply Unwinding_call_same_ui|].
  intros _ w'. destruct (activeDocument w') as [document|]; [|apply same_ui_refl].
  destruct (sprite document) as [s|]; [|apply same_ui_refl].
  destruct (Unwinding.countDiff _ _ _) as [from to].
  destruct ((from >=? 0) && (to >=? from)); [|apply same_ui_refl].
  destruct (implantChange && _).
  - apply Unwinding_bind_same_ui; [apply Unwinding_call_same_ui|].
    intros _ w''. apply Unwinding_call_same_ui.
  - apply Unwinding_bind_same_ui; [apply Unwinding_call_same_ui|]. intros _ w''.
    apply Unwinding_bind_same_ui; [apply Unwinding_call_same_ui|].
    intros _ w'''. apply Unwinding_call_same_ui.
Qed.

End UnwindingFacts.

Section UnwindingAgrees.
Context `{layer : DocLayer}.

Lemma Unwinding_call_agrees (c : Call) (w : World) :
  @Unwinding.call (throwing_base_Exceptions layer) c w
  = match call c w with
    | (w', inl e) => (w', inl (Unwinding.a_base_Exception e))
    | (w', inr a) => (w', inr a)
    end.
Proof.
  unfold Unwinding.call, call. cbn [Unwinding.throws throwing_base_Exceptions].
  destruct (raises c (activeDocument (record_call c w))); reflexivity.
Qed.

Lemma Unwinding_bind_agrees {A B : Type} (m : Try A) (k : A -> Try B)
    (m' : Unwinding.Try A) (k' : A -> Unwinding.Try B) (w : World) :
  m' w = match m w with
         | (w', inl e) => (w', inl (Unwinding.a_base_Exception e))
         | (w', inr a) => (w', inr a)
         end ->
  (forall a w0, k' a w0 = match k a w0 with
                          | (w', inl e) => (w', inl (Unwinding.a_base_Exception e))
                          | (w', inr b) => (w', inr b)
                          end) ->
  Unwinding.bind m' k' w
  = match bind m k w with
    | (w', inl e) => (w', inl (Unwinding.a_base_Exception e))
    | (w', inr b) => (w', inr b)
    end.
Proof.
  intros Hm Hk. unfold Unwinding.bind, bind. rewrite Hm.
  destruct (m w) as [w' [e|a]]; [reflexivity|apply Hk].
Qed.

Lemma Unwinding_commit_palette_agrees (implantChange : bool) (operationName : string)
    (w : World) :
  @Unwinding.commit_palette (throwing_base_Exceptions layer) implantChange operationName w
  = match commit_palette implantChange operationName w with
    | (w', inl e) => (w', inl (Unwinding.a_base_Exception e))
    | (w', inr a) => (w', inr a)
    end.
Proof.
  unfold Unwinding.commit_palette, commit_palette.
  apply Unwinding_bind_agrees; [apply Unwinding_call_agrees|].
  intros _ w0. destruct (activeDocument w0) as [document|]; [|reflexivity].
  destruct (sprite document) as [s|]; [|reflexivity].
  cbn [Unwinding.countDiff throwing_base_Exceptions].
  destruct (countDiff _ _ _) as [from to].
  destruct ((from >=? 0) && (to >=? from)); [|reflexivity].
  destruct (implantChange && _).
  - apply Unwinding_bind_agrees; [apply Unwinding_call_agrees|].
    intros _ w1. apply Unwinding_call_agrees.
  - apply Unwinding_bind_agrees; [apply Unwinding_call_agrees|]. intros _ w1.
    apply Unwinding_bind_agrees; [apply Unwinding_call_agrees|].
    intros _ w2. apply Unwinding_call_agrees.
Qed.

(** When every object thrown is a [base::Exception], no object leaves a
    commit, and the commit is the one of the model of the data
    members. *)
Lemma Unwinding_updateCurrentSpritePalette_agrees (operationName : string)
    (st : Editor * World) :
  @Unwinding.updateCurrentSpritePalette (throwing_base_Exceptions layer) operationName st
  = (updateCurrentSpritePalette operationName st, inr tt).
Proof.
  destruct st as [ed w].
  unfold Unwinding.updateCurrentSpritePalette, updateCurrentSpritePalette.
  destruct (bool_decide _); [|reflexivity].
  unfold Unwinding.catch_base_Exception, catch.
  rewrite Unwinding_commit_palette_agrees.
  destruct (commit_palette (m_implantChange ed) operationName w) as [w' [e|[]]];
    reflexivity.
Qed.

End UnwindingAgrees.

(** * Properties of the editor (C1 to C10) *)

(** ** Absolute edits *)

(** C1, at a failing input: in RGB mode with two entries selected, an
    absolute edit of the Red channel with a payload whose green is 99 also
    overwrites the green of both selected entries (20 and 50 before). *)
Theorem C1_red_edit_overwrites_green :
  let palView := mkPaletteView [true; true; false] 0 in
  let palette := [rgba 10 20 30 255; rgba 40 50 60 255; rgba 70 80 90 255] in
  let color := rgb_color 200 99 0 255 in
  @setAbsolutePaletteEntryChannel zero_gfx RgbType palView Red color palette
  = [rgba 200 99 30 255; rgba 200 99 60 255; rgba 70 80 90 255].
Proof. reflexivity. Qed.

(** ** Relative edits *)

(** C2, as stated, fails: from the baseline [(100,50,25,255); (10,20,30,255)]
    with both entries selected, relative edits of Red with deltas +10, +5
    and -3 leave red at 97 and 7 and the stored delta at -3, while a single
    edit with +12 gives red 112 and 22. *)
Lemma C2_three_deltas_differ_from_their_sum :
  let palView := mkPaletteView [true; true] 0 in
  let B := [rgba 100 50 25 255; rgba 10 20 30 255] in
  let edit delta st :=
    @setRelativePaletteEntryChannel zero_gfx RgbType palView B st.2 Red delta st.1 in
  let three := edit (-3) (edit 5 (edit 10 (B, ∅))) in
  let single := edit 12 (B, ∅) in
  three.1 = [rgba 97 50 25 255; rgba 7 20 30 255]
  /\ single.1 = [rgba 112 50 25 255; rgba 22 20 30 255]
  /\ three.1 <> single.1
  /\ delta_of three.2 Red = -3.
Proof.
  cbn zeta. repeat split; try reflexivity. vm_compute. discriminate.
Qed.

Section RelativeClaims.
Context `{Gfx}.

(** C2, amended: a relative edit replaces the delta stored for its
    channel.  From any baseline and any stored deltas, three relative
    edits of one channel with deltas [d1], [d2], [d3] in a row give
    exactly the palette, and the same stored deltas, as the single
    relative edit with the last delta [d3]; the delta stored for the
    channel is then [d3]. *)
Theorem C2_relative_replay (m_type : ColorType) (palView : PaletteView)
    (B : Palette) (m_relDeltas : gmap Channel Z) (channel : Channel)
    (d1 d2 d3 : Z) (palette : Palette) :
  let edit delta st :=
    setRelativePaletteEntryChannel m_type palView B st.2 channel delta st.1 in
  let three := edit d3 (edit d2 (edit d1 (palette, m_relDeltas))) in
  let single := edit d3 (palette, m_relDeltas) in
  three.1 = single.1
  /\ (forall k, delta_of three.2 k = delta_of single.2 k)
  /\ delta_of three.2 channel = d3.
Proof.
  cbn zeta. cbn [fst snd].
  pose proof (setRelativePaletteEntryChannel_spec m_type palView B m_relDeltas
                channel d1 palette) as [Hm1 Hp1].
  cbn zeta in Hm1, Hp1.
  destruct (setRelativePaletteEntryChannel m_type palView B m_relDeltas
              channel d1 palette) as [p1 m1]. cbn [fst snd] in *.
  pose proof (setRelativePaletteEntryChannel_spec m_type palView B m1
                channel d2 p1) as [Hm2 Hp2].
  cbn zeta in Hm2, Hp2.
  destruct (setRelativePaletteEntryChannel m_type palView B m1
              channel d2 p1) as [p2 m2]. cbn [fst snd] in *.
  pose proof (setRelativePaletteEntryChannel_spec m_type palView B m2
                channel d3 p2) as [Hm3 Hp3].
  pose proof (setRelativePaletteEntryChannel_spec m_type palView B m_relDeltas
                channel d3 palette) as [Hm Hp].
  cbn zeta in Hm3, Hp3, Hm, Hp.
  assert (forall k, delta_of (<[channel := d3]> m2) k
                    = delta_of (<[channel := d3]> m_relDeltas) k) as Hd.
  { intros k. rewrite !delta_of_insert. destruct (decide (channel = k)) as [|Hne];
      [reflexivity|].
    rewrite Hm2, Hm1. destruct (decide (channel = k)); [contradiction|reflexivity]. }
  split; [|split].
  - apply list_eq. intros i. rewrite Hp3, Hp2, Hp1, Hp.
    destruct (pick_at (getPicks palView) i); [|reflexivity].
    destruct (palette !! i); [|reflexivity]. cbn.
    f_equal. apply relative_color_ext. exact Hd.
  - intros k. rewrite Hm3, Hm.
    destruct (decide (channel = k)) as [|Hne]; [reflexivity|].
    rewrite Hm2, Hm1. destruct (decide (channel = k)); [contradiction|reflexivity].
  - rewrite Hm3. destruct (decide (channel = channel)); [reflexivity|contradiction].
Qed.

End RelativeClaims.

Section BaselineClaim.
Context `{Gfx}.


End BaselineClaim.


(** ** Commits into the undo history *)

(** C4, as stated, fails: with [m_implantChange] set and the most recently
    executed undo command labelled "Color Change", a commit "Color Change"
    that finds the live palette equal to the palette of the sprite makes
    no implant: nothing is added to that command and nothing is
    executed. *)
Lemma C4_no_implant_on_empty_diff :
  let p := [rgba 1 2 3 255] in
  let last := mkCmdSequence "Color Change" [SetPalette 0 p] in
  let document := sample_document p [last] in
  let w := sample_world p [true] (Some document) in
  let ed := sample_editor true p in
  let w' := (@updateCurrentSpritePalette quiet_doc "Color Change" (ed, w)).2 in
  m_implantChange ed = true
  /\ lastExecutedCmd (undoHistory document) = Some last
  /\ label last = "Color Change"
  /\ calls w' = [ContextWriter_new]
  /\ activeDocument w' = Some document.
Proof. cbn zeta. repeat split; vm_compute; reflexivity. Qed.

Section ImplantClaim.
Context `{DocLayer}.

(** C4, amended: on a commit that finds an active document with a
    sprite and a non-empty diff ([from >= 0] and [to >= from]), and with
    no call throwing, the implant happens (the new set-palette command is
    added to the most recently executed undo command and executed at
    once, no transaction being opened) if and only if [m_implantChange]
    is set and a most recently executed undo command exists and its
    label equals the operation name; in every other such case a
    transaction with the operation name is opened, the one set-palette
    command is executed in it, and it is committed. *)
Theorem C4_implant_or_new_transaction (operationName : string) (ed : Editor)
    (w : World) (document : Document) (sprite0 : Sprite) (from to : Z) :
  activeDocument w = Some document ->
  sprite document = Some sprite0 ->
  (forall c d, raises c d = None) ->
  countDiff (palette sprite0) (current_palette w) (-1, -1) = (from, to) ->
  from >= 0 ->
  to >= from ->
  let cmd := SetPalette (frame sprite0) (current_palette w) in
  let w' := (updateCurrentSpritePalette operationName (ed, w)).2 in
  let implanted :=
    calls w' = calls w ++ [ContextWriter_new; CmdSequence_add cmd; Cmd_execute cmd] in
  let transacted :=
    calls w' = calls w ++ [ContextWriter_new; Transaction_new operationName;
                           Transaction_execute cmd; Transaction_commit] in
  (implant_test ed document operationName <-> implanted)
  /\ (~ implant_test ed document operationName <-> transacted)
  /\ (implanted ->
        exists last older,
          undoHistory document = last :: older
          /\ activeDocument w'
             = Some (mkDocument (Some (mkSprite (frame sprite0) (current_palette w)))
                       (add_Cmd cmd last :: older) (transaction document)))
  /\ (transacted ->
        activeDocument w'
        = Some (mkDocument (Some (mkSprite (frame sprite0) (current_palette w)))
                  (mkCmdSequence operationName [cmd] :: undoHistory document) None)).
Proof.
  intros Hdoc Hsprite Hquiet Hdiff Hfrom Hto. cbn zeta.
  unfold updateCurrentSpritePalette. cbn [snd].
  rewrite Hdoc. cbn [mbind option_bind]. rewrite Hsprite.
  rewrite bool_decide_eq_true_2 by eauto.
  unfold catch, commit_palette, bind, call. cbn [activeDocument record_call].
  rewrite !Hquiet, Hdoc. cbn. rewrite Hsprite, Hdiff.
  replace ((from >=? 0) && (to >=? from)) with true by lia.
  unfold implant_test, lastExecutedCmd.
  assert (forall (l : list Call) (a b : list Call), a <> b -> l ++ a <> l ++ b) as Hdiffer.
  { intros l a b Hab Heq. apply Hab. exact (app_inv_head l a b Heq). }
  destruct (m_implantChange ed) eqn:Himplant; cbn [andb];
    [destruct (undoHistory document) as [|last older] eqn:Hundo; cbn [head];
     [|destruct (bool_decide (label last = operationName)) eqn:Hlabel;
       [apply bool_decide_eq_true_1 in Hlabel|apply bool_decide_eq_false_1 in Hlabel]]|];
    rewrite ?Hquiet; cbn; rewrite ?Hsprite, ?Hundo; rewrite <- ?app_assoc; cbn [app].
  - (* flag set, no executed command *)
    split; [|split; [|split]].
    + split; [intros (_ & l & [=] & _)|]. intros Heq. exfalso. revert Heq.
      apply Hdiffer. discriminate.
    + split; [reflexivity|]. intros _ (_ & l & [=] & _).
    + intros Heq. exfalso. revert Heq. apply Hdiffer. discriminate.
    + reflexivity.
  - (* flag set, last command with the same label *)
    split; [|split; [|split]].
    + split; [reflexivity|]. intros _. split; [reflexivity|]. exists last. split; reflexivity || exact Hlabel.
    + split; [intros Hn; exfalso; apply Hn; split; [reflexivity|]; exists last; split;
               reflexivity || exact Hlabel|].
      intros Heq. exfalso. revert Heq. apply Hdiffer. discriminate.
    + intros _. exists last, older. split; reflexivity.
    + intros Heq. exfalso. revert Heq. apply Hdiffer. discriminate.
  - (* flag set, last command with another label *)
    split; [|split; [|split]].
    + split; [intros (_ & l & [= <-] & Hl); contradiction|].
      intros Heq. exfalso. revert Heq. apply Hdiffer. discriminate.
    + split; [reflexivity|]. intros _ (_ & l & [= <-] & Hl). contradiction.
    + intros Heq. exfalso. revert Heq. apply Hdiffer. discriminate.
    + reflexivity.
  - (* flag clear *)
    split; [|split; [|split]].
    + split; [intros ([=] & _)|].
      intros Heq. exfalso. revert Heq. apply Hdiffer. discriminate.
    + split; [reflexivity|]. intros _ ([=] & _).
    + intros Heq. exfalso. revert Heq. apply Hdiffer. discriminate.
    + reflexivity.
Qed.

End ImplantClaim.

(** C4 at a commit "Color Change" that follows a command of that name,
    with entry 0 changed. *)
Lemma C4_implant_or_new_transaction_witness :
  let p := [rgba 1 2 3 255] in
  let live := [rgba 9 2 3 255] in
  let last := mkCmdSequence "Color Change" [SetPalette 0 p] in
  let document := sample_document p [last] in
  let w := sample_world live [true] (Some document) in
  let ed := sample_editor true p in
  let w' := (@updateCurrentSpritePalette quiet_doc "Color Change" (ed, w)).2 in
  implant_test ed document "Color Change"
  <-> calls w' = calls w ++ [ContextWriter_new; CmdSequence_add (SetPalette 0 live);
                             Cmd_execute (SetPalette 0 live)].
Proof.
  exact (proj1 (@C4_implant_or_new_transaction quiet_doc "Color Change"
                  (sample_editor true [rgba 1 2 3 255])
                  (sample_world [rgba 9 2 3 255] [true]
                     (Some (sample_document [rgba 1 2 3 255]
                              [mkCmdSequence "Color Change"
                                 [SetPalette 0 [rgba 1 2 3 255]]])))
                  (sample_document [rgba 1 2 3 255]
                     [mkCmdSequence "Color Change" [SetPalette 0 [rgba 1 2 3 255]]])
                  (mkSprite 0 [rgba 1 2 3 255]) 0 0
                  eq_refl eq_refl (fun _ _ => eq_refl) eq_refl
                  ltac:(lia) ltac:(lia))).
Defined.

(** ** The redraw timer *)

Section TimerClaim.
Context `{DocLayer}.

(** C5: the redraw tick has two phases.  After a commit, the first firing
    of the timer only tells the current editor to update and arms the
    second phase ([m_redrawAll] set, timer still running, implant flag
    still set, no call into the document); the next firing, with no
    commit in between, broadcasts the palette change, asks the document
    for a general update, stops the timer and clears the implant flag; a
    commit between the two firings clears [m_redrawAll] again, so that
    the firing after it is a first-phase one. *)
Theorem C5_two_phase_tick (operationName operationName' : string)
    (st : Editor * World) :
  let st0 := updateCurrentSpritePalette operationName st in
  let st1 := tick st0 in
  let st2 := tick st1 in
  let st1' := updateCurrentSpritePalette operationName' st1 in
  let st2' := tick st1' in
  (isRunning st0.1 = true /\ m_redrawAll st0.1 = false /\ m_implantChange st0.1 = true)
  /\ (signals st1.2 = signals st0.2 ++ light_redraw st0.2
      /\ calls st1.2 = calls st0.2
      /\ m_redrawAll st1.1 = true
      /\ isRunning st1.1 = true
      /\ m_implantChange st1.1 = true)
  /\ (signals st2.2 = signals st1.2 ++ full_redraw st1.2
      /\ isRunning st2.1 = false
      /\ m_implantChange st2.1 = false
      /\ m_redrawAll st2.1 = false)
  /\ (m_redrawAll st1'.1 = false
      /\ signals st2'.2 = signals st1'.2 ++ light_redraw st1'.2
      /\ m_redrawAll st2'.1 = true
      /\ isRunning st2'.1 = true
      /\ m_implantChange st2'.1 = true).
Proof.
  cbn zeta.
  assert (forall op s,
            let s0 := updateCurrentSpritePalette op s in
            isRunning s0.1 = true /\ m_redrawAll s0.1 = false
            /\ m_implantChange s0.1 = true) as Hcommit.
  { intros op [ed w]. unfold updateCurrentSpritePalette. cbn.
    destruct (isRunning ed); repeat split. }
  assert (forall ed w,
            isRunning ed = true -> m_redrawAll ed = false -> m_implantChange ed = true ->
            let s1 := tick (ed, w) in
            signals s1.2 = signals w ++ light_redraw w
            /\ calls s1.2 = calls w
            /\ m_redrawAll s1.1 = true
            /\ isRunning s1.1 = true
            /\ m_implantChange s1.1 = true) as Hfirst.
  { intros ed w Hrun Hr Hi. cbn zeta. rewrite tick_first by exact Hr.
    unfold light_redraw. cbn [fst snd].
    destruct (current_editor w); cbn; rewrite ?app_nil_r; repeat split; assumption. }
  destruct (Hcommit operationName st) as (Hrun0 & Hr0 & Hi0).
  destruct (updateCurrentSpritePalette operationName st) as [ed0 w0].
  cbn [fst snd] in *.
  destruct (Hfirst ed0 w0 Hrun0 Hr0 Hi0) as (Hs1 & Hc1 & Hr1 & Hrun1 & Hi1).
  destruct (tick (ed0, w0)) as [ed1 w1] eqn:Ht1. cbn [fst snd] in *.
  split; [repeat split; assumption|].
  split; [repeat split; assumption|].
  split.
  - destruct (tick_second ed1 w1 Hr1) as (Hed & Hsig & _).
    rewrite Hed. repeat split. exact Hsig.
  - destruct (Hcommit operationName' (ed1, w1)) as (Hrun' & Hr' & Hi').
    destruct (updateCurrentSpritePalette operationName' (ed1, w1)) as [ed1' w1'].
    cbn [fst snd] in *.
    destruct (Hfirst ed1' w1' Hrun' Hr' Hi') as (Hs2 & _ & Hr2 & Hrun2 & Hi2).
    repeat split; assumption.
Qed.

End TimerClaim.

(** ** Empty diffs and exceptions *)

Section CommitClaims.
Context `{DocLayer}.

(** C6: when [countDiff] reports no differing range ([from > to], or
    [from] still negative), a commit makes no call into the undo history
    or the transaction layer (only the [ContextWriter] is opened), and the
    active document, with its undo history and the palette of its
    sprite, is as before. *)
Theorem C6_no_diff_no_undo (operationName : string) (ed : Editor) (w : World)
    (document : Document) (sprite0 : Sprite) (from to : Z) :
  activeDocument w = Some document ->
  sprite document = Some sprite0 ->
  countDiff (palette sprite0) (current_palette w) (-1, -1) = (from, to) ->
  from > to \/ from < 0 ->
  let w' := (updateCurrentSpritePalette operationName (ed, w)).2 in
  calls w' = calls w ++ [ContextWriter_new]
  /\ activeDocument w' = Some document
  /\ (activeDocument w' ≫= sprite) = Some sprite0
  /\ undoHistory <$> activeDocument w' = Some (undoHistory document).
Proof.
  intros Hdoc Hsprite Hdiff Hempty. cbn zeta.
  unfold updateCurrentSpritePalette. cbn [snd].
  rewrite Hdoc. cbn [mbind option_bind]. rewrite Hsprite.
  rewrite bool_decide_eq_true_2 by eauto.
  unfold catch, commit_palette, bind, call. cbn [activeDocument record_call].
  rewrite Hdoc.
  destruct (raises ContextWriter_new (Some document)) as [e|].
  - cbn. rewrite Hdoc. cbn. rewrite Hsprite. repeat split.
  - cbn. rewrite Hsprite, Hdiff.
    replace ((from >=? 0) && (to >=? from)) with false by lia.
    cbn. rewrite Hsprite. repeat split.
Qed.

End CommitClaims.

(** C6 at a live palette equal to the palette of the sprite. *)
Lemma C6_no_diff_no_undo_witness :
  let p := [rgba 1 2 3 255; rgba 4 5 6 255] in
  let document := sample_document p [] in
  let w := sample_world p [true; false] (Some document) in
  let w' := (@updateCurrentSpritePalette quiet_doc "Color Change"
               (sample_editor false p, w)).2 in
  calls w' = [ContextWriter_new]
  /\ activeDocument w' = Some document
  /\ (activeDocument w' ≫= sprite) = Some (mkSprite 0 p)
  /\ undoHistory <$> activeDocument w' = Some [].
Proof.
  exact (@C6_no_diff_no_undo quiet_doc "Color Change"
           (sample_editor false [rgba 1 2 3 255; rgba 4 5 6 255])
           (sample_world [rgba 1 2 3 255; rgba 4 5 6 255] [true; false]
              (Some (sample_document [rgba 1 2 3 255; rgba 4 5 6 255] [])))
           (sample_document [rgba 1 2 3 255; rgba 4 5 6 255] [])
           (mkSprite 0 [rgba 1 2 3 255; rgba 4 5 6 255]) (-1) (-1)
           eq_refl eq_refl eq_refl ltac:(lia)).
Defined.

(** C7, as stated, fails for the objects that are not [base::Exception]s:
    when [Transaction::commit] throws a [std::bad_alloc], the handler of
    the commit does not catch it.  The object leaves
    [updateCurrentSpritePalette] and then the handler of the hex entry
    that called it; nothing is shown to the user, the palette view is not
    invalidated, the redraw timer is not started, the implant flag is not
    set and the colour bar is not invalidated.  The live palette is as
    the edit left it. *)
Lemma C7_other_class_escapes :
  let p := [rgba 1 2 3 255] in
  let live := [rgba 9 2 3 255] in
  let w := sample_world live [true] (Some (sample_document p [])) in
  let ed := sample_editor false p in
  let '(st', leaves) :=
    @Unwinding.updateCurrentSpritePalette out_of_memory_doc "Color Change" (ed, w) in
  let '(st'', leaves') :=
    @Unwinding.onColorHexEntryChange out_of_memory_doc (rgb_color 7 2 3 255)
      (ed, sample_world p [true] (Some (sample_document p []))) in
  leaves = inl (Unwinding.of_another_class "std::bad_alloc")
  /\ signals st'.2 = []
  /\ isRunning st'.1 = false
  /\ m_implantChange st'.1 = false
  /\ current_palette st'.2 = live
  /\ leaves' = inl (Unwinding.of_another_class "std::bad_alloc")
  /\ signals st''.2 = []
  /\ current_palette st''.2 = [rgba 7 2 3 255].
Proof. vm_compute. repeat split; reflexivity. Qed.

Section ExceptionClaim.
Context `{Unwinding.DocLayer}.

(** C7, amended: a commit never changes the live palette.  When its
    [try] block ends by throwing a [base::Exception] (whichever call into
    the document, undo or transaction layer raised it), the exception is
    caught: it is shown with [Console::showException], no object leaves
    the commit, and the commit goes on to its end (the palette view is
    invalidated, the timer runs, the flags are set).  When the block ends
    by throwing an object of another class, the object is not caught: it
    leaves the commit, which shows nothing, sends no signal and leaves
    the data members as they were. *)
Theorem C7_base_Exception_is_caught (operationName : string) (ed : Editor)
    (w w1 : World) (thrown : Unwinding.Thrown) :
  is_Some (activeDocument w ≫= sprite) ->
  Unwinding.commit_palette (m_implantChange ed) operationName w = (w1, inl thrown) ->
  let st' := (Unwinding.updateCurrentSpritePalette operationName (ed, w)).1 in
  let leaves := (Unwinding.updateCurrentSpritePalette operationName (ed, w)).2 in
  current_palette st'.2 = current_palette w
  /\ match thrown with
     | Unwinding.a_base_Exception e =>
         leaves = inr tt
         /\ signals st'.2 = signals w ++ [Console_showException e; PaletteView_invalidate]
         /\ isRunning st'.1 = true
         /\ m_redrawAll st'.1 = false
         /\ m_implantChange st'.1 = true
     | Unwinding.of_another_class _ =>
         leaves = inl thrown
         /\ signals st'.2 = signals w
         /\ st'.1 = ed
     end.
Proof.
  intros Hdoc Hthrow. cbn zeta.
  unfold Unwinding.updateCurrentSpritePalette.
  rewrite bool_decide_eq_true_2 by exact Hdoc.
  unfold Unwinding.catch_base_Exception. rewrite Hthrow.
  pose proof (Unwinding_commit_palette_same_ui (m_implantChange ed) operationName w) as Hs.
  rewrite Hthrow in Hs. destruct Hs as (Hpal & _ & _ & Hsig). cbn [fst] in Hpal, Hsig.
  destruct thrown as [e|what]; cbn.
  - split; [exact Hpal|]. split; [reflexivity|].
    split; [rewrite Hsig, <- app_assoc; reflexivity|].
    destruct (isRunning ed); repeat split.
  - repeat split; assumption.
Qed.

End ExceptionClaim.

(** C7 at a commit whose [Transaction::commit] throws a
    [base::Exception]. *)
Lemma C7_base_Exception_is_caught_witness :
  let p := [rgba 1 2 3 255] in
  let live := [rgba 9 2 3 255] in
  let w := sample_world live [true] (Some (sample_document p [])) in
  let run := @Unwinding.updateCurrentSpritePalette (throwing_base_Exceptions failing_doc)
               "Color Change" (sample_editor false p, w) in
  current_palette run.1.2 = live
  /\ run.2 = inr tt
  /\ signals run.1.2 = [Console_showException (base_Exception "cannot commit");
                        PaletteView_invalidate]
  /\ isRunning run.1.1 = true
  /\ m_redrawAll run.1.1 = false
  /\ m_implantChange run.1.1 = true.
Proof.
  exact (@C7_base_Exception_is_caught (throwing_base_Exceptions failing_doc)
           "Color Change"
           (sample_editor false [rgba 1 2 3 255])
           (sample_world [rgba 9 2 3 255] [true]
              (Some (sample_document [rgba 1 2 3 255] [])))
           (@Unwinding.commit_palette (throwing_base_Exceptions failing_doc) false
              "Color Change"
              (sample_world [rgba 9 2 3 255] [true]
                 (Some (sample_document [rgba 1 2 3 255] [])))).1
           (Unwinding.a_base_Exception (base_Exception "cannot commit"))
           ltac:(eexists; reflexivity) eq_refl).
Defined.

(** ** Selections and hex edits *)

Section SelectionClaim.
Context `{Gfx}.

(** C8: while the explicit selection is empty, an edit request with no
    addressable fallback entry changes no palette entry (the three edit
    operations return the palette they were given), and with an
    addressable fallback entry exactly that entry counts as picked. *)
Theorem C8_empty_selection (palView : PaletteView) :
  picks (getSelectedEntries palView) = 0 ->
  let i := getSelectedEntry palView in
  let size := Z.of_nat (length (getSelectedEntries palView)) in
  (~ (0 <= i < size) ->
     (forall color palette, setPaletteEntry palView color palette = palette)
     /\ (forall m_type channel color palette,
           setAbsolutePaletteEntryChannel m_type palView channel color palette = palette)
     /\ (forall m_type m_fromPalette m_relDeltas channel delta palette,
           (setRelativePaletteEntryChannel m_type palView m_fromPalette m_relDeltas
              channel delta palette).1 = palette))
  /\ (0 <= i < size ->
        forall c, pick_at (getPicks palView) c = true <-> Z.of_nat c = i).
Proof.
  intros Hz. cbn zeta. split.
  - intros Hi. pose proof (getPicks_none palView Hz Hi) as Hnone.
    split; [|split].
    + intros color p. apply list_eq; intros j.
      rewrite setPaletteEntry_lookup, Hnone. reflexivity.
    + intros type channel color p. apply list_eq; intros j.
      rewrite setAbsolutePaletteEntryChannel_lookup, Hnone. reflexivity.
    + intros type from m channel delta p. apply list_eq; intros j.
      pose proof (setRelativePaletteEntryChannel_spec type palView from
                    m channel delta p) as [_ Hp].
      cbn zeta in Hp. rewrite Hp, Hnone. reflexivity.
  - intros Hi. apply getPicks_fallback; assumption.
Qed.

End SelectionClaim.

(** C8 at a three-entry palette with no flag set: fallback entry -1, then
    fallback entry 1. *)
Lemma C8_empty_selection_witness :
  let none := mkPaletteView [false; false; false] (-1) in
  let fallback := mkPaletteView [false; false; false] 1 in
  @setAbsolutePaletteEntryChannel zero_gfx RgbType none Red (rgb_color 9 9 9 9)
     [rgba 1 2 3 4; rgba 5 6 7 8; rgba 9 10 11 12]
   = [rgba 1 2 3 4; rgba 5 6 7 8; rgba 9 10 11 12]
  /\ (pick_at (getPicks fallback) 1 = true <-> Z.of_nat 1 = 1).
Proof.
  split.
  - apply (proj1 (@C8_empty_selection zero_gfx (mkPaletteView [false; false; false] (-1))
                    eq_refl)).
    cbn. lia.
  - apply (proj2 (@C8_empty_selection zero_gfx (mkPaletteView [false; false; false] 1)
                    eq_refl)).
    cbn. lia.
Defined.

(** ** Resets of the baseline palette and the stored deltas *)

(** C9, as stated, fails for the finalizing tick: after a relative edit of
    Red by +10 on a one-entry palette and the two firings of the timer
    that close the session (timer stopped, implant flag cleared), the
    delta stored for Red is still 10 and the baseline palette is still the
    palette from before the edit, not the current one. *)
Lemma C9_finalize_keeps_relative_info :
  let p := [rgba 100 50 25 255] in
  let w := sample_world p [true] (Some (sample_document p [])) in
  let st0 := selectColorType RgbType (sample_editor false [], w) in
  let ev := mkEvent Relative Red (rgb_color 110 50 25 255) 10 in
  let st1 := @onColorSlidersChange zero_gfx quiet_doc ev st0 in
  let st3 := @tick quiet_doc (@tick quiet_doc st1) in
  is_reset st0
  /\ isRunning st3.1 = false
  /\ m_implantChange st3.1 = false
  /\ signals st3.2 = [PaletteView_invalidate; ColorBar_invalidate; Editor_updateEditor;
                      App_PaletteChange; Document_notifyGeneralUpdate]
  /\ m_relDeltas st3.1 !! Red = Some 10
  /\ m_fromPalette st3.1 = [rgba 100 50 25 255]
  /\ current_palette st3.2 = [rgba 110 50 25 255].
Proof. cbn zeta. repeat split; vm_compute; reflexivity. Qed.

Section ResetClaims.
Context `{DocLayer}.

(** C9, amended: the baseline palette is retaken from the current
    palette and the stored deltas are cleared whenever the colour space
    is selected, whenever the editor is told of a foreground or
    background colour change that names a palette entry (a valid index
    colour, or any valid colour while the palette view has a selected
    entry: the way a change of selection reaches the editor), and
    whenever its widgets are refreshed from the selection (a click on the
    mode buttons, a palette change signalled by someone else).  The tick
    that finalizes a session stops the timer and clears the implant flag
    but leaves the baseline palette and the stored deltas as they are:
    the editor ignores the palette change it broadcasts itself. *)
Theorem C9_relative_info_resets :
  (forall type st, is_reset (selectColorType type st))
  /\ (forall color st,
        isValid color = true ->
        getType color = IndexType \/ getSelectedEntry (paletteView st.2) >= 0 ->
        is_reset (onFgBgColorChange color st))
  /\ (forall st, is_reset (updateWidgetsFromSelectedEntries st))
  /\ (forall st, m_selfPalChange st.1 = false -> is_reset (onPalChange st))
  /\ (forall st,
        m_redrawAll st.1 = true ->
        let st' := tick st in
        isRunning st'.1 = false
        /\ m_implantChange st'.1 = false
        /\ m_fromPalette st'.1 = m_fromPalette st.1
        /\ m_relDeltas st'.1 = m_relDeltas st.1).
Proof.
  split; [|split; [|split; [|split]]].
  - intros type [ed w]. apply resetRelativeInfo_is_reset.
  - intros color [ed w] Hvalid Hindex. unfold onFgBgColorChange.
    rewrite Hvalid. cbn [negb snd] in *.
    destruct (bool_decide (getType color = IndexType)) eqn:Htype; cbn [negb].
    + apply resetRelativeInfo_is_reset.
    + apply bool_decide_eq_false_1 in Htype.
      destruct Hindex as [Hindex|Hindex]; [contradiction|].
      replace (getSelectedEntry (paletteView w) <? 0) with false by lia.
      apply resetRelativeInfo_is_reset.
  - intros st. apply resetRelativeInfo_is_reset.
  - intros [ed w] Hself. unfold onPalChange. cbn [fst] in Hself. rewrite Hself.
    apply resetRelativeInfo_is_reset.
  - intros [ed w] Hr. cbn [fst] in Hr. cbn zeta.
    destruct (tick_second ed w Hr) as (Hed & _). rewrite Hed.
    repeat split.
Qed.

End ResetClaims.

(** C9 at an editor that holds a delta of 5 for Red and an old baseline. *)
Lemma C9_relative_info_resets_witness :
  let w := sample_world [rgba 1 2 3 255] [true] None in
  let ed := mkEditor RgbType true true true false [rgba 9 9 9 255] (<[Red := 5]> ∅) in
  is_reset (onFgBgColorChange (rgb_color 1 2 3 255) (ed, w))
  /\ is_reset (onPalChange (ed, w))
  /\ m_relDeltas (@tick quiet_doc (ed, w)).1 = <[Red := 5]> ∅.
Proof.
  pose proof (@C9_relative_info_resets quiet_doc) as (_ & Hcolor & _ & Hpal & Htick).
  split; [|split].
  - apply (Hcolor (rgb_color 1 2 3 255)
             (mkEditor RgbType true true true false [rgba 9 9 9 255] (<[Red := 5]> ∅),
              sample_world [rgba 1 2 3 255] [true] None)).
    + reflexivity.
    + right. cbn. lia.
  - apply (Hpal (mkEditor RgbType true true true false [rgba 9 9 9 255] (<[Red := 5]> ∅),
                 sample_world [rgba 1 2 3 255] [true] None)).
    reflexivity.
  - exact (proj2 (proj2 (proj2
             (Htick (mkEditor RgbType true true true false [rgba 9 9 9 255]
                       (<[Red := 5]> ∅),
                     sample_world [rgba 1 2 3 255] [true] None)
                eq_refl)))).
Defined.

(** ** Hex edits *)

(** C10: a hex-entry edit ([setPaletteEntry]) gives every selected entry
    the red, green and blue of the payload colour and alpha 255, whatever
    the alpha of the payload is. *)
Theorem C10_hex_edit_is_opaque (palView : PaletteView) (color : Color)
    (palette : Palette) (c : nat) :
  (c < length palette)%nat ->
  pick_at (getPicks palView) c = true ->
  let entry := getEntry (setPaletteEntry palView color palette) c in
  setPaletteEntry palView color palette !! c
    = Some (rgba (getRed color) (getGreen color) (getBlue color) 255)
  /\ rgba_getr entry = uint8 (getRed color)
  /\ rgba_getg entry = uint8 (getGreen color)
  /\ rgba_getb entry = uint8 (getBlue color)
  /\ rgba_geta entry = 255.
Proof.
  intros Hc Hpick. cbn zeta. unfold getEntry.
  rewrite setPaletteEntry_lookup, Hpick.
  destruct (lookup_lt_is_Some_2 palette c Hc) as [x ->]. cbn.
  rewrite rgba_getr_rgba, rgba_getg_rgba, rgba_getb_rgba, rgba_geta_rgba.
  repeat split; reflexivity.
Qed.

(** C10 at a payload of alpha 77. *)
Lemma C10_hex_edit_is_opaque_witness :
  let palView := mkPaletteView [true; false] 0 in
  let color := rgb_color 10 20 30 77 in
  let palette := [rgba 1 2 3 4; rgba 5 6 7 8] in
  let entry := getEntry (setPaletteEntry palView color palette) 0 in
  setPaletteEntry palView color palette !! 0%nat = Some (rgba 10 20 30 255)
  /\ rgba_getr entry = uint8 10
  /\ rgba_getg entry = uint8 20
  /\ rgba_getb entry = uint8 30
  /\ rgba_geta entry = 255.
Proof.
  apply (C10_hex_edit_is_opaque (mkPaletteView [true; false] 0)
           (rgb_color 10 20 30 77) [rgba 1 2 3 4; rgba 5 6 7 8] 0%nat).
  - cbn. lia.
  - reflexivity.
Defined.

(** * Further properties (X1 to X5) *)

Section FurtherProperties.
Context `{Gfx} `{DocLayer}.

(** X1: an edit leaves every entry that is not picked as it was, and the
    palette at its size. *)
Theorem edits_keep_unpicked_entries (m_type : ColorType) (palView : PaletteView)
    (m_fromPalette : Palette) (m_relDeltas : gmap Channel Z) (channel : Channel)
    (color : Color) (delta : Z) (palette : Palette) :
  let hex := setPaletteEntry palView color palette in
  let absolute := setAbsolutePaletteEntryChannel m_type palView channel color palette in
  let relative := (setRelativePaletteEntryChannel m_type palView m_fromPalette
                     m_relDeltas channel delta palette).1 in
  (length hex = length palette
   /\ length absolute = length palette
   /\ length relative = length palette)
  /\ forall c, pick_at (getPicks palView) c = false ->
       hex !! c = palette !! c
       /\ absolute !! c = palette !! c
       /\ relative !! c = palette !! c.
Proof.
  cbn zeta.
  pose proof (setRelativePaletteEntryChannel_spec m_type palView m_fromPalette
                m_relDeltas channel delta palette) as [_ Hrel].
  cbn zeta in Hrel.
  split.
  - repeat split; apply same_lookups_same_length; intros i;
      rewrite ?setPaletteEntry_lookup, ?setAbsolutePaletteEntryChannel_lookup, ?Hrel;
      destruct (pick_at (getPicks palView) i); try reflexivity;
      rewrite fmap_is_Some; reflexivity.
  - intros c Hc.
    rewrite setPaletteEntry_lookup, setAbsolutePaletteEntryChannel_lookup, Hrel, Hc.
    repeat split.
Qed.

(** X2: with exactly one entry picked, an absolute edit replaces that entry
    by the payload colour, read in the colour space in use (for HSV and
    HSL, a fresh colour given the payload's three channels and converted
    to RGB), alpha included. *)
Theorem absolute_single_entry (palView : PaletteView) (channel : Channel)
    (color : Color) (palette : Palette) (c : nat) :
  picks (getPicks palView) = 1 ->
  pick_at (getPicks palView) c = true ->
  (c < length palette)%nat ->
  setAbsolutePaletteEntryChannel RgbType palView channel color palette !! c
    = Some (rgba (getRed color) (getGreen color) (getBlue color) (getAlpha color))
  /\ setAbsolutePaletteEntryChannel HsvType palView channel color palette !! c
     = Some (let rgb := Rgb_of_Hsv
                          (Hsv_set_value (getHsvValue color)
                             (Hsv_set_saturation (getHsvSaturation color)
                                (Hsv_set_hue (getHsvHue color) Hsv_new))) in
             rgba (red rgb) (green rgb) (blue rgb) (getAlpha color))
  /\ setAbsolutePaletteEntryChannel HslType palView channel color palette !! c
     = Some (let rgb := Rgb_of_Hsl
                          (Hsl_set_lightness (getHslLightness color)
                             (Hsl_set_saturation (getHslSaturation color)
                                (Hsl_set_hue (getHslHue color) Hsl_new))) in
             rgba (red rgb) (green rgb) (blue rgb) (getAlpha color)).
Proof.
  intros Hone Hpick Hc.
  rewrite !setAbsolutePaletteEntryChannel_lookup, Hpick, Hone.
  destruct (lookup_lt_is_Some_2 palette c Hc) as [x ->].
  repeat split.
Qed.

(** X3: without an active document, or with one that has no sprite, a
    commit makes no call into the document layer; it still invalidates the
    palette view, starts the timer and sets the implant flag. *)
Theorem commit_without_sprite (operationName : string) (ed : Editor) (w : World) :
  activeDocument w ≫= sprite = None ->
  let st' := updateCurrentSpritePalette operationName (ed, w) in
  calls st'.2 = calls w
  /\ activeDocument st'.2 = activeDocument w
  /\ current_palette st'.2 = current_palette w
  /\ signals st'.2 = signals w ++ [PaletteView_invalidate]
  /\ isRunning st'.1 = true
  /\ m_redrawAll st'.1 = false
  /\ m_implantChange st'.1 = true.
Proof.
  intros Hnone. cbn zeta. unfold updateCurrentSpritePalette. cbn [fst snd].
  rewrite bool_decide_eq_false_2 by (rewrite Hnone; intros [x [=]]).
  cbn. destruct (isRunning ed); repeat split.
Qed.

(** X4: with several entries picked, an absolute edit of the HSV hue
    rewrites each picked entry from the HSV form of the entry's own colour
    with the hue alone set to the payload's, and keeps the entry's alpha. *)
Theorem absolute_hue_edit_keeps_own_saturation_value (palView : PaletteView)
    (color : Color) (palette : Palette) (c : nat) (x : Z) :
  picks (getPicks palView) <> 1 ->
  pick_at (getPicks palView) c = true ->
  palette !! c = Some x ->
  let own := Hsv_of_Rgb (mkRgb (rgba_getr x) (rgba_getg x) (rgba_getb x)) in
  let rgb := Rgb_of_Hsv (Hsv_set_hue (getHsvHue color) own) in
  setAbsolutePaletteEntryChannel HsvType palView HsvHue color palette !! c
  = Some (rgba (red rgb) (green rgb) (blue rgb) (rgba_geta x)).
Proof.
  intros Hmany Hpick Hx. cbn zeta.
  rewrite setAbsolutePaletteEntryChannel_lookup, Hpick, Hx. cbn [fmap option_fmap option_map].
  f_equal. apply absolute_hue_keeps_saturation_value. exact Hmany.
Qed.

(** X5: coalescing.  With no call throwing, after a first commit has opened a
    transaction, a second commit with the same operation name that comes
    before the finalizing tick (with or without a first-phase tick in
    between) is implanted in that transaction: the undo history has one
    new command holding both set-palette commands.  After the two ticks
    that finalize the session, or under another operation name, the second
    commit opens a transaction of its own. *)
Theorem coalescing_undo_history (operationName operationName' : string)
    (ed : Editor) (w : World) (p0 : Palette) (f : Z) (undo : list CmdSequence)
    (t : option CmdSequence) (l2 : Palette) (from1 to1 from2 to2 : Z) :
  activeDocument w = Some (mkDocument (Some (mkSprite f p0)) undo t) ->
  (forall c d, raises c d = None) ->
  m_implantChange ed = false ->
  countDiff p0 (current_palette w) (-1, -1) = (from1, to1) ->
  from1 >= 0 -> to1 >= from1 ->
  countDiff (current_palette w) l2 (-1, -1) = (from2, to2) ->
  from2 >= 0 -> to2 >= from2 ->
  operationName' <> operationName ->
  let cmd1 := SetPalette f (current_palette w) in
  let cmd2 := SetPalette f l2 in
  let next_edit (st : Editor * World) := (st.1, with_palette l2 st.2) in
  let history (st : Editor * World) := undoHistory <$> activeDocument st.2 in
  let st1 := updateCurrentSpritePalette operationName (ed, w) in
  history st1 = Some (mkCmdSequence operationName [cmd1] :: undo)
  /\ history (updateCurrentSpritePalette operationName (next_edit st1))
     = Some (mkCmdSequence operationName [cmd1; cmd2] :: undo)
  /\ history (updateCurrentSpritePalette operationName (next_edit (tick st1)))
     = Some (mkCmdSequence operationName [cmd1; cmd2] :: undo)
  /\ history (updateCurrentSpritePalette operationName (next_edit (tick (tick st1))))
     = Some (mkCmdSequence operationName [cmd2]
             :: mkCmdSequence operationName [cmd1] :: undo)
  /\ history (updateCurrentSpritePalette operationName' (next_edit st1))
     = Some (mkCmdSequence operationName' [cmd2]
             :: mkCmdSequence operationName [cmd1] :: undo).
Proof.
  intros Hdoc Hquiet Hidle Hdiff1 Hfrom1 Hto1 Hdiff2 Hfrom2 Hto2 Hop. cbn zeta.
  destruct (commit_new_transaction operationName ed w p0 f undo t from1 to1
              Hdoc Hquiet Hdiff1 Hfrom1 Hto1 (or_introl Hidle))
    as (Hdoc1 & Hpal1 & Himplant1 & Hredraw1).
  destruct (updateCurrentSpritePalette operationName (ed, w)) as [ed1 w1].
  cbn [fst snd] in *.
  split; [rewrite Hdoc1; reflexivity|].
  split; [|split; [|split]].
  - destruct (commit_implant operationName ed1 (with_palette l2 w1)
                (current_palette w) f
                (mkCmdSequence operationName [SetPalette f (current_palette w)])
                undo None from2 to2 Hdoc1 Hquiet Hdiff2 Hfrom2 Hto2 Himplant1 eq_refl)
      as (Hd & _).
    rewrite Hd. reflexivity.
  - destruct (tick_document (ed1, w1) Hquiet) as (Hd1 & Hp1 & Hfirst & _).
    destruct (Hfirst Hredraw1) as (_ & Hi1). cbn [fst snd] in *.
    destruct (tick (ed1, w1)) as [ed2 w2]. cbn [fst snd] in *.
    destruct (commit_implant operationName ed2 (with_palette l2 w2)
                (current_palette w) f
                (mkCmdSequence operationName [SetPalette f (current_palette w)])
                undo None from2 to2
                (eq_trans Hd1 Hdoc1) Hquiet Hdiff2 Hfrom2 Hto2
                (eq_trans Hi1 Himplant1) eq_refl)
      as (Hd & _).
    rewrite Hd. reflexivity.
  - destruct (tick_document (ed1, w1) Hquiet) as (Hd1 & Hp1 & Hfirst & _).
    destruct (Hfirst Hredraw1) as (Hr1 & _). cbn [fst snd] in *.
    destruct (tick (ed1, w1)) as [ed2 w2]. cbn [fst snd] in *.
    destruct (tick_document (ed2, w2) Hquiet) as (Hd2 & Hp2 & _ & Hsecond).
    specialize (Hsecond Hr1). cbn [fst snd] in *.
    destruct (tick (ed2, w2)) as [ed3 w3]. cbn [fst snd] in *.
    destruct (commit_new_transaction operationName ed3 (with_palette l2 w3)
                (current_palette w) f
                (mkCmdSequence operationName [SetPalette f (current_palette w)] :: undo)
                None from2 to2
                (eq_trans Hd2 (eq_trans Hd1 Hdoc1)) Hquiet Hdiff2 Hfrom2 Hto2
                (or_introl Hsecond))
      as (Hd & _).
    rewrite Hd. reflexivity.
  - destruct (commit_new_transaction operationName' ed1 (with_palette l2 w1)
                (current_palette w) f
                (mkCmdSequence operationName [SetPalette f (current_palette w)] :: undo)
                None from2 to2 Hdoc1 Hquiet Hdiff2 Hfrom2 Hto2)
      as (Hd & _).
    { right. intros last [= <-]. cbn. congruence. }
    rewrite Hd. reflexivity.
Qed.

End FurtherProperties.

(** X1 at entry 1 of a palette whose entry 0 alone is picked. *)
Lemma edits_keep_unpicked_entries_witness :
  let palView := mkPaletteView [true; false] 0 in
  let palette := [rgba 1 2 3 4; rgba 5 6 7 8] in
  setPaletteEntry palView (rgb_color 9 9 9 9) palette !! 1%nat = palette !! 1%nat
  /\ @setAbsolutePaletteEntryChannel zero_gfx RgbType palView Blue (rgb_color 9 9 9 9)
       palette !! 1%nat = palette !! 1%nat
  /\ (@setRelativePaletteEntryChannel zero_gfx RgbType palView palette ∅ Blue 7
        palette).1 !! 1%nat = palette !! 1%nat.
Proof.
  exact (proj2 (@edits_keep_unpicked_entries zero_gfx RgbType
                  (mkPaletteView [true; false] 0) [rgba 1 2 3 4; rgba 5 6 7 8] ∅ Blue
                  (rgb_color 9 9 9 9) 7 [rgba 1 2 3 4; rgba 5 6 7 8])
               1%nat eq_refl).
Defined.

(** X2 at the palette of four entries of which entry 0 is picked. *)
Lemma absolute_single_entry_witness :
  let palView := mkPaletteView [true; false; false; false] 0 in
  let palette := [rgba 1 2 3 4; rgba 5 6 7 8; rgba 9 10 11 12; rgba 13 14 15 16] in
  @setAbsolutePaletteEntryChannel zero_gfx RgbType palView Red (rgb_color 255 0 0 255)
     palette !! 0%nat
  = Some (rgba 255 0 0 255).
Proof.
  exact (proj1 (@absolute_single_entry zero_gfx
                  (mkPaletteView [true; false; false; false] 0) Red
                  (rgb_color 255 0 0 255)
                  [rgba 1 2 3 4; rgba 5 6 7 8; rgba 9 10 11 12; rgba 13 14 15 16]
                  0%nat eq_refl eq_refl ltac:(cbn; lia))).
Defined.

(** X3 at a world without a document. *)
Lemma commit_without_sprite_witness :
  let w := sample_world [rgba 1 2 3 255] [true] None in
  let st' := @updateCurrentSpritePalette quiet_doc "Color Change"
               (sample_editor false [rgba 1 2 3 255], w) in
  calls st'.2 = []
  /\ activeDocument st'.2 = None
  /\ current_palette st'.2 = [rgba 1 2 3 255]
  /\ signals st'.2 = [PaletteView_invalidate]
  /\ isRunning st'.1 = true
  /\ m_redrawAll st'.1 = false
  /\ m_implantChange st'.1 = true.
Proof.
  exact (@commit_without_sprite quiet_doc "Color Change"
           (sample_editor false [rgba 1 2 3 255])
           (sample_world [rgba 1 2 3 255] [true] None) eq_refl).
Defined.

(** X4 at a palette with both entries picked. *)
Lemma absolute_hue_edit_keeps_own_saturation_value_witness :
  let palView := mkPaletteView [true; true] 0 in
  let palette := [rgba 1 2 3 4; rgba 5 6 7 8] in
  @setAbsolutePaletteEntryChannel zero_gfx HsvType palView HsvHue (rgb_color 9 9 9 9)
     palette !! 1%nat
  = Some (rgba 0 0 0 8).
Proof.
  exact (@absolute_hue_edit_keeps_own_saturation_value zero_gfx
           (mkPaletteView [true; true] 0) (rgb_color 9 9 9 9)
           [rgba 1 2 3 4; rgba 5 6 7 8] 1%nat (rgba 5 6 7 8)
           ltac:(vm_compute; discriminate) eq_refl eq_refl).
Defined.

(** X5 at two commits "Color Change" in a row. *)
Lemma coalescing_undo_history_witness :
  let p0 := [rgba 1 2 3 255] in
  let l1 := [rgba 9 2 3 255] in
  let l2 := [rgba 12 2 3 255] in
  let w := sample_world l1 [true] (Some (sample_document p0 [])) in
  let next_edit (st : Editor * World) := (st.1, with_palette l2 st.2) in
  let st1 := @updateCurrentSpritePalette quiet_doc "Color Change"
               (sample_editor false p0, w) in
  undoHistory <$> activeDocument
    (@updateCurrentSpritePalette quiet_doc "Color Change" (next_edit st1)).2
  = Some [mkCmdSequence "Color Change" [SetPalette 0 l1; SetPalette 0 l2]].
Proof.
  exact (proj1 (proj2
           (@coalescing_undo_history quiet_doc "Color Change" "Load Palette"
              (sample_editor false [rgba 1 2 3 255])
              (sample_world [rgba 9 2 3 255] [true]
                 (Some (sample_document [rgba 1 2 3 255] [])))
              [rgba 1 2 3 255] 0 [] None [rgba 12 2 3 255] 0 0 0 0
              eq_refl (fun _ _ => eq_refl) eq_refl
              eq_refl ltac:(lia) ltac:(lia)
              eq_refl ltac:(lia) ltac:(lia)
              ltac:(discriminate)))).
Defined.

(** * Further properties (X6 to X23) *)

(** ** The label of the selection *)

(** X6: the label [setColor] writes names the shape of the selection:
    " No Entry" when no entry is picked, " Entry: a" when entry [a] alone
    is picked, " Range: a-b" when the picked entries are exactly the
    entries from [a] to [b], and " Multiple Entries" as soon as an
    unpicked entry lies between two picked ones. *)
Theorem entry_label_names_selection (entries : PalettePicks) :
  ((forall c, pick_at entries c = false) ->
     entry_label entries = " No Entry")
  /\ (forall a : nat,
        (forall c, pick_at entries c = true <-> c = a) ->
        entry_label entries = " Entry: " +:+ pretty (Z.of_nat a))
  /\ (forall a b : nat,
        (a < b)%nat ->
        (forall c, pick_at entries c = true <-> (a <= c <= b)%nat) ->
        entry_label entries
        = " Range: " +:+ pretty (Z.of_nat a) +:+ "-" +:+ pretty (Z.of_nat b))
  /\ (forall a c b : nat,
        (a < c < b)%nat ->
        pick_at entries a = true -> pick_at entries c = false ->
        pick_at entries b = true ->
        entry_label entries = " Multiple Entries").
Proof.
  destruct (entry_label_none_or_one entries) as [Hnone Hone].
  split; [exact Hnone|]. split; [exact Hone|].
  pose proof (first_selected_spec entries) as (Hi & Hi_sel & Hi_min).
  pose proof (last_selected_spec entries) as (Hj & Hj_sel & Hj_max).
  pose proof (first_unselected_after_spec entries (first_selected entries))
    as (Hi2 & Hi2_unsel & Hi2_size & Hi2_out & Hi2_run).
  cbn zeta in *. unfold entry_label.
  set (i := first_selected entries) in *.
  set (j := last_selected entries) in *.
  set (i2 := first_unselected_after entries i) in *.
  set (size := Z.of_nat (length entries)) in *.
  assert (Hnat : forall k, 0 <= k -> entry_at entries k = pick_at entries (Z.to_nat k))
    by reflexivity.
  split.
  - intros a b Hab Hblock.
    assert (pick_at entries a = true) as Ha by (apply Hblock; lia).
    assert (pick_at entries b = true) as Hb by (apply Hblock; lia).
    assert (Z.of_nat b < size) as Hb_size.
    { apply entry_at_size; [|lia]. rewrite entry_at_of_nat. exact Hb. }
    assert (i = Z.of_nat a) as Hi_eq.
    { assert (i <= Z.of_nat a) as Hle.
      { destruct (Z.le_gt_cases i (Z.of_nat a)) as [Hle|Hgt]; [exact Hle|].
        specialize (Hi_min (Z.of_nat a) ltac:(lia)).
        rewrite entry_at_of_nat in Hi_min. congruence. }
      specialize (Hi_sel ltac:(lia)). rewrite Hnat in Hi_sel by lia.
      apply Hblock in Hi_sel. lia. }
    assert (j = Z.of_nat b) as Hj_eq.
    { assert (Z.of_nat b <= j) as Hle.
      { destruct (Z.le_gt_cases (Z.of_nat b) j) as [Hle|Hgt]; [exact Hle|].
        specialize (Hj_max (Z.of_nat b) ltac:(lia) ltac:(lia)).
        rewrite entry_at_of_nat in Hj_max. congruence. }
      specialize (Hj_sel ltac:(lia)). rewrite Hnat in Hj_sel by lia.
      apply Hblock in Hj_sel. lia. }
    assert (i2 = Z.of_nat b + 1) as Hi2_eq.
    { assert (i2 <= Z.of_nat b + 1) as Hle.
      { destruct (Z.le_gt_cases i2 (Z.of_nat b + 1)) as [Hle|Hgt]; [exact Hle|].
        specialize (Hi2_run (Z.of_nat b + 1) ltac:(lia)).
        rewrite Hnat in Hi2_run by lia. apply Hblock in Hi2_run. lia. }
      destruct (Z.lt_ge_cases i2 size) as [Hlt|Hge]; [|lia].
      specialize (Hi2_unsel Hlt).
      destruct (Z.le_gt_cases i2 (Z.of_nat b)) as [Hin|Hout]; [|lia].
      rewrite Hnat in Hi2_unsel by lia.
      assert (pick_at entries (Z.to_nat i2) = true) by (apply Hblock; lia).
      congruence. }
    destruct (Z.eqb_spec i j); [lia|].
    destruct (Z.eqb_spec (j - i + 1) (i2 - i)); [|lia].
    rewrite Hi_eq, Hj_eq. reflexivity.
  - intros a c b Hacb Ha Hc Hb.
    assert (Z.of_nat b < size) as Hb_size.
    { apply entry_at_size; [|lia]. rewrite entry_at_of_nat. exact Hb. }
    assert (i <= Z.of_nat a) as Hi_le.
    { destruct (Z.le_gt_cases i (Z.of_nat a)) as [Hle|Hgt]; [exact Hle|].
      specialize (Hi_min (Z.of_nat a) ltac:(lia)).
      rewrite entry_at_of_nat in Hi_min. congruence. }
    assert (Z.of_nat b <= j) as Hj_ge.
    { destruct (Z.le_gt_cases (Z.of_nat b) j) as [Hle|Hgt]; [exact Hle|].
      specialize (Hj_max (Z.of_nat b) ltac:(lia) ltac:(lia)).
      rewrite entry_at_of_nat in Hj_max. congruence. }
    assert (i2 <= Z.of_nat c) as Hi2_le.
    { destruct (Z.le_gt_cases i2 (Z.of_nat c)) as [Hle|Hgt]; [exact Hle|].
      specialize (Hi2_run (Z.of_nat c) ltac:(lia)).
      rewrite entry_at_of_nat in Hi2_run. congruence. }
    destruct (Z.eqb_spec i j); [lia|].
    destruct (Z.eqb_spec (j - i + 1) (i2 - i)); [lia|].
    destruct (Z.eqb_spec i size); [lia|reflexivity].
Qed.

(** X6 at the selections of a palette of five entries. *)
Lemma entry_label_names_selection_witness :
  entry_label [false; false; false; false; false] = " No Entry"
  /\ entry_label [false; false; true; false; false] = " Entry: 2"
  /\ entry_label [false; true; true; true; false] = " Range: 1-3"
  /\ entry_label [true; false; true; true; false] = " Multiple Entries".
Proof.
  split; [|split; [|split]].
  - apply (proj1 (entry_label_names_selection [false; false; false; false; false])).
    intros [|[|[|[|[|c]]]]]; reflexivity.
  - apply (proj1 (proj2 (entry_label_names_selection [false; false; true; false; false]))
             2%nat).
    intros [|[|[|[|[|c]]]]]; cbn; split; intros; try discriminate; try lia; reflexivity.
  - apply (proj1 (proj2 (proj2
             (entry_label_names_selection [false; true; true; true; false])))
             1%nat 3%nat); [lia|].
    intros [|[|[|[|[|c]]]]]; cbn; split; intros; try discriminate; try lia; reflexivity.
  - apply (proj2 (proj2 (proj2
             (entry_label_names_selection [true; false; true; true; false])))
             0%nat 1%nat 2%nat); [lia|reflexivity..].
Defined.
(** ** The selection an edit works on *)

(** X7: [getPicks] never changes the size of the mask and never unmarks
    an entry; it reports the explicit selection as it is when there is
    one, exactly one pick when the selection is empty and the current
    entry is addressable, and no pick otherwise. *)
Theorem getPicks_counts (palView : PaletteView) :
  let entries := getSelectedEntries palView in
  let i := getSelectedEntry palView in
  length (getPicks palView) = length entries
  /\ (forall c, pick_at entries c = true -> pick_at (getPicks palView) c = true)
  /\ (picks entries <> 0 -> getPicks palView = entries)
  /\ (picks entries = 0 ->
        picks (getPicks palView)
        = if bool_decide (0 <= i < Z.of_nat (length entries)) then 1 else 0).
Proof.
  cbn zeta. unfold getPicks.
  destruct (Z.eqb_spec (picks (getSelectedEntries palView)) 0) as [Hz|Hnz].
  - destruct (Z.geb_spec (getSelectedEntry palView) 0) as [Hge|Hlt];
      destruct (Z.ltb_spec (getSelectedEntry palView)
                  (Z.of_nat (length (getSelectedEntries palView)))) as [Hin|Hout];
      cbn [andb].
    + split; [apply length_insert|]. split; [|split].
      * intros c Hc. rewrite (picks_zero _ Hz c) in Hc. discriminate.
      * intros Hne. contradiction.
      * intros _. rewrite bool_decide_eq_true_2 by lia.
        apply picks_insert; [exact Hz|lia].
    + repeat split; auto. intros _. rewrite bool_decide_eq_false_2 by lia. exact Hz.
    + repeat split; auto. intros _. rewrite bool_decide_eq_false_2 by lia. exact Hz.
    + repeat split; auto. intros _. rewrite bool_decide_eq_false_2 by lia. exact Hz.
  - repeat split; auto. intros Hz. contradiction.
Qed.

(** X7 at an empty selection of three entries whose current entry is 1. *)
Lemma getPicks_counts_witness :
  picks (getPicks (mkPaletteView [false; false; false] 1)) = 1.
Proof.
  exact (proj2 (proj2 (proj2 (getPicks_counts (mkPaletteView [false; false; false] 1))))
           eq_refl).
Defined.

(** ** How edits compose *)

Section EditComposition.
Context `{Gfx}.

(** X8: relative edits of two different channels commute: made in either
    order from the same baseline, they give the same palette and the same
    stored deltas. *)
Theorem relative_edits_commute (m_type : ColorType) (palView : PaletteView)
    (B : Palette) (m_relDeltas : gmap Channel Z) (channel1 channel2 : Channel)
    (d1 d2 : Z) (palette : Palette) :
  channel1 <> channel2 ->
  let edit channel delta st :=
    setRelativePaletteEntryChannel m_type palView B st.2 channel delta st.1 in
  let st12 := edit channel2 d2 (edit channel1 d1 (palette, m_relDeltas)) in
  let st21 := edit channel1 d1 (edit channel2 d2 (palette, m_relDeltas)) in
  st12.1 = st21.1
  /\ forall k, delta_of st12.2 k = delta_of st21.2 k.
Proof.
  intros Hne. cbn zeta. cbn [fst snd].
  pose proof (setRelativePaletteEntryChannel_spec m_type palView B m_relDeltas
                channel1 d1 palette) as [Hm1 Hp1].
  pose proof (setRelativePaletteEntryChannel_spec m_type palView B m_relDeltas
                channel2 d2 palette) as [Hm2 Hp2].
  cbn zeta in Hm1, Hp1, Hm2, Hp2.
  destruct (setRelativePaletteEntryChannel m_type palView B m_relDeltas
              channel1 d1 palette) as [p1 m1].
  destruct (setRelativePaletteEntryChannel m_type palView B m_relDeltas
              channel2 d2 palette) as [p2 m2].
  cbn [fst snd] in *.
  pose proof (setRelativePaletteEntryChannel_spec m_type palView B m1
                channel2 d2 p1) as [Hm12 Hp12].
  pose proof (setRelativePaletteEntryChannel_spec m_type palView B m2
                channel1 d1 p2) as [Hm21 Hp21].
  cbn zeta in Hm12, Hp12, Hm21, Hp21.
  assert (forall k, delta_of (<[channel2 := d2]> m1) k
                    = delta_of (<[channel1 := d1]> m2) k) as Hd.
  { intros k. rewrite !delta_of_insert, Hm1, Hm2.
    destruct (decide (channel1 = k)), (decide (channel2 = k)); congruence. }
  split.
  - apply list_eq. intros i. rewrite Hp12, Hp21, Hp1, Hp2.
    destruct (pick_at (getPicks palView) i); [|reflexivity].
    destruct (palette !! i); [|reflexivity]. cbn.
    f_equal. apply relative_color_ext. exact Hd.
  - intros k. rewrite Hm12, Hm21, Hm1, Hm2.
    destruct (decide (channel1 = k)), (decide (channel2 = k)); congruence.
Qed.

(** X9: in RGB mode, a relative edit that leaves every stored delta at
    zero gives each picked entry the colour it has in the baseline
    palette, whatever the live palette holds. *)
Theorem relative_zero_deltas_restore_baseline (palView : PaletteView)
    (B : Palette) (m_relDeltas : gmap Channel Z) (channel : Channel)
    (palette : Palette) (c : nat) (x : Z) :
  (forall k, k <> channel -> delta_of m_relDeltas k = 0) ->
  pick_at (getPicks palView) c = true ->
  (c < length palette)%nat ->
  B !! c = Some x ->
  0 <= x < 2 ^ 32 ->
  (setRelativePaletteEntryChannel RgbType palView B m_relDeltas channel 0 palette).1 !! c
  = Some x.
Proof.
  intros Hzero Hpick Hc HB Hx.
  pose proof (setRelativePaletteEntryChannel_spec RgbType palView B m_relDeltas
                channel 0 palette) as [_ Hp].
  cbn zeta in Hp. rewrite Hp, Hpick.
  destruct (lookup_lt_is_Some_2 palette c Hc) as [y ->]. cbn.
  unfold getEntry. rewrite HB. cbn [default]. f_equal.
  assert (forall k, delta_of (<[channel := 0]> m_relDeltas) k = 0) as Hd.
  { intros k. rewrite delta_of_insert.
    destruct (decide (channel = k)) as [|Hne]; [reflexivity|].
    apply Hzero. congruence. }
  unfold relative_color. rewrite !Hd, !Z.add_0_r.
  pose proof (channel_range x) as (Hr & Hg & Hb & Ha).
  unfold id. rewrite !to_int_small by (unfold INT_MIN, INT_MAX; lia).
  rewrite !MID_inside by assumption.
  apply rgba_of_channels. exact Hx.
Qed.

(** X10: in RGB mode with several entries picked, an absolute edit of
    [Green], [Blue] or [Alpha] gives each picked entry that channel of the
    payload and keeps its three other channels; an edit of [Red] stores
    the payload's green as well; an edit of a channel of another colour
    space keeps all four. *)
Theorem absolute_rgb_channels (palView : PaletteView) (channel : Channel)
    (color : Color) (palette : Palette) (c : nat) (x : Z) :
  picks (getPicks palView) <> 1 ->
  pick_at (getPicks palView) c = true ->
  palette !! c = Some x ->
  let new := getEntry (setAbsolutePaletteEntryChannel RgbType palView channel color
                         palette) c in
  rgba_getr new = (if decide (channel = Red) then uint8 (getRed color) else rgba_getr x)
  /\ rgba_getg new = (if decide (channel = Red \/ channel = Green)
                      then uint8 (getGreen color) else rgba_getg x)
  /\ rgba_getb new = (if decide (channel = Blue) then uint8 (getBlue color)
                      else rgba_getb x)
  /\ rgba_geta new = (if decide (channel = Alpha) then uint8 (getAlpha color)
                      else rgba_geta x).
Proof.
  intros Hmany Hpick Hx. cbn zeta. unfold getEntry.
  rewrite setAbsolutePaletteEntryChannel_lookup, Hpick, Hx. cbn [fmap option_fmap option_map default].
  unfold absolute_entry.
  destruct (Z.eqb_spec (picks (getPicks palView)) 1) as [|_]; [contradiction|].
  pose proof (channel_range x) as (Hr & Hg & Hb & Ha).
  destruct channel; cbn beta iota zeta; unfold id;
    rewrite rgba_getr_rgba, rgba_getg_rgba, rgba_getb_rgba, rgba_geta_rgba;
    repeat match goal with
           | |- context [decide ?P] => destruct (decide P) as [He|He];
                                       try discriminate He;
                                       try (destruct He; discriminate);
                                       try (exfalso; apply He; auto; fail)
           end;
    rewrite ?(uint8_small (rgba_getr x)), ?(uint8_small (rgba_getg x)),
            ?(uint8_small (rgba_getb x)), ?(uint8_small (rgba_geta x)) by assumption;
    repeat split; reflexivity.
Qed.

(** X11: a hex edit overrides what the edit before it did to the same
    selection: after a hex edit, an absolute edit or a relative edit, a
    hex edit gives the palette it gives without that earlier edit. *)
Theorem hex_edit_overrides (m_type : ColorType) (palView : PaletteView)
    (m_fromPalette : Palette) (m_relDeltas : gmap Channel Z) (channel : Channel)
    (color0 color : Color) (delta : Z) (palette : Palette) :
  let hex := setPaletteEntry palView color in
  hex (setPaletteEntry palView color0 palette) = hex palette
  /\ hex (setAbsolutePaletteEntryChannel m_type palView channel color0 palette)
     = hex palette
  /\ hex (setRelativePaletteEntryChannel m_type palView m_fromPalette m_relDeltas
            channel delta palette).1
     = hex palette.
Proof.
  cbn zeta.
  pose proof (setRelativePaletteEntryChannel_spec m_type palView m_fromPalette
                m_relDeltas channel delta palette) as [_ Hrel].
  cbn zeta in Hrel.
  repeat split; apply list_eq; intros i;
    rewrite !setPaletteEntry_lookup, ?setAbsolutePaletteEntryChannel_lookup, ?Hrel;
    destruct (pick_at (getPicks palView) i); try reflexivity;
    destruct (palette !! i); reflexivity.
Qed.

End EditComposition.

(** X8 at a one-entry palette: Red by +10 and Blue by -5, in both orders. *)
Lemma relative_edits_commute_witness :
  let palView := mkPaletteView [true] 0 in
  let B := [rgba 100 50 25 255] in
  let edit channel delta (st : Palette * gmap Channel Z) :=
    @setRelativePaletteEntryChannel zero_gfx RgbType palView B st.2 channel delta st.1 in
  (edit Blue (-5) (edit Red 10 (B, ∅))).1 = (edit Red 10 (edit Blue (-5) (B, ∅))).1.
Proof.
  exact (proj1 (@relative_edits_commute zero_gfx RgbType (mkPaletteView [true] 0)
                  [rgba 100 50 25 255] ∅ Red Blue 10 (-5) [rgba 100 50 25 255]
                  ltac:(discriminate))).
Defined.

(** X9 at a live entry that an earlier edit has changed. *)
Lemma relative_zero_deltas_restore_baseline_witness :
  (@setRelativePaletteEntryChannel zero_gfx RgbType (mkPaletteView [true] 0)
     [rgba 100 50 25 255] (<[Red := 10]> ∅) Red 0 [rgba 110 50 25 255]).1 !! 0%nat
  = Some (rgba 100 50 25 255).
Proof.
  apply (@relative_zero_deltas_restore_baseline zero_gfx (mkPaletteView [true] 0)
           [rgba 100 50 25 255] (<[Red := 10]> ∅) Red [rgba 110 50 25 255] 0%nat
           (rgba 100 50 25 255)).
  - intros k Hk. unfold delta_of. rewrite lookup_insert_ne by congruence. reflexivity.
  - reflexivity.
  - cbn. lia.
  - reflexivity.
  - vm_compute. split; [discriminate|reflexivity].
Defined.

(** X10 at an edit of Blue with both entries of a palette picked. *)
Lemma absolute_rgb_channels_witness :
  let palView := mkPaletteView [true; true] 0 in
  let new := getEntry (@setAbsolutePaletteEntryChannel zero_gfx RgbType palView Blue
                         (rgb_color 200 99 77 9) [rgba 1 2 3 4; rgba 5 6 7 8]) 1 in
  rgba_getr new = 5 /\ rgba_getg new = 6 /\ rgba_getb new = 77 /\ rgba_geta new = 8.
Proof.
  exact (@absolute_rgb_channels zero_gfx (mkPaletteView [true; true] 0) Blue
           (rgb_color 200 99 77 9) [rgba 1 2 3 4; rgba 5 6 7 8] 1%nat (rgba 5 6 7 8)
           ltac:(vm_compute; discriminate) eq_refl eq_refl).
Defined.
(** ** Commits and the undo history *)

Section CommitProperties.
Context `{DocLayer}.

(** X12: whatever the calls of a commit do, throwing included, the undo
    history of the active document afterwards is the history from before,
    or that history with one new command in front (labelled with the
    operation name and holding the single set-palette command of the live
    palette), or that history with the same set-palette command added at
    the end of its most recent command: no older command is ever removed
    or rewritten, and never more than one set-palette command is
    recorded. *)
Theorem commit_keeps_older_history (operationName : string) (ed : Editor) (w : World)
    (document : Document) :
  activeDocument w = Some document ->
  let st' := updateCurrentSpritePalette operationName (ed, w) in
  exists document',
    activeDocument st'.2 = Some document'
    /\ (undoHistory document' = undoHistory document
        \/ (exists s,
              sprite document = Some s
              /\ undoHistory document'
                 = mkCmdSequence operationName [SetPalette (frame s) (current_palette w)]
                   :: undoHistory document)
        \/ (exists s last older,
              sprite document = Some s
              /\ undoHistory document = last :: older
              /\ m_implantChange ed = true
              /\ label last = operationName
              /\ undoHistory document'
                 = add_Cmd (SetPalette (frame s) (current_palette w)) last :: older)).
Proof.
  intros Hdoc. cbn zeta. unfold updateCurrentSpritePalette. cbn [snd].
  rewrite Hdoc. cbn [mbind option_bind].
  destruct (sprite document) as [s|] eqn:Hs.
  2: { rewrite bool_decide_eq_false_2 by (intros [x [=]]).
       cbn. eexists. split; [exact Hdoc|]. left. reflexivity. }
  rewrite bool_decide_eq_true_2 by eauto.
  unfold catch, commit_palette, bind, call. cbn [activeDocument record_call].
  rewrite Hdoc.
  destruct (raises ContextWriter_new (Some document)) as [e|].
  { cbn. eexists. split; [exact Hdoc|]. left. reflexivity. }
  cbn. rewrite Hs.
  destruct (countDiff (palette s) (current_palette w) (-1, -1)) as [from to].
  destruct ((from >=? 0) && (to >=? from)).
  2: { cbn. eexists. split; [reflexivity|]. left. reflexivity. }
  destruct (m_implantChange ed) eqn:Himplant; cbn [andb].
  - destruct (undoHistory document) as [|last older] eqn:Hundo; cbn [lastExecutedCmd head].
    + repeat match goal with
             | |- context [raises ?c ?d] => destruct (raises c d)
             end;
        cbn; rewrite ?Hs, ?Hundo; cbn; eexists; (split; [reflexivity|]);
        cbn; rewrite ?Hundo; eauto.
    + destruct (bool_decide (label last = operationName)) eqn:Hlabel.
      * apply bool_decide_eq_true_1 in Hlabel.
        repeat match goal with
               | |- context [raises ?c ?d] => destruct (raises c d)
               end;
          cbn; rewrite ?Hs, ?Hundo; cbn; rewrite ?Hs; cbn;
          eexists; (split; [reflexivity|]); cbn; rewrite ?Hundo;
          solve [ left; reflexivity
                | right; right; exists s, last, older; repeat split; assumption ].
      * repeat match goal with
               | |- context [raises ?c ?d] => destruct (raises c d)
               end;
          cbn; rewrite ?Hs, ?Hundo; cbn; eexists; (split; [reflexivity|]);
          cbn; rewrite ?Hundo; eauto.
  - repeat match goal with
           | |- context [raises ?c ?d] => destruct (raises c d)
           end;
      cbn; rewrite ?Hs; cbn; eexists; (split; [reflexivity|]); cbn; eauto.
Qed.

(** X13: after a commit that finds a difference and in which no call
    throws, the palette of the sprite at the active frame is the live
    palette, whether the change was implanted or put in a transaction of
    its own. *)
Theorem commit_synchronizes_sprite_palette (operationName : string) (ed : Editor)
    (w : World) (p0 : Palette) (f : Z) (undo : list CmdSequence)
    (t : option CmdSequence) (from to : Z) :
  activeDocument w = Some (mkDocument (Some (mkSprite f p0)) undo t) ->
  (forall c d, raises c d = None) ->
  countDiff p0 (current_palette w) (-1, -1) = (from, to) ->
  from >= 0 -> to >= from ->
  let st' := updateCurrentSpritePalette operationName (ed, w) in
  activeDocument st'.2 ≫= sprite = Some (mkSprite f (current_palette st'.2)).
Proof.
  intros Hdoc Hquiet Hdiff Hfrom Hto. cbn zeta.
  destruct (m_implantChange ed) eqn:Himplant.
  - destruct undo as [|last older].
    + destruct (commit_new_transaction operationName ed w p0 f [] t from to
                  Hdoc Hquiet Hdiff Hfrom Hto) as (Hd & Hp & _).
      { right. intros last [=]. }
      rewrite Hd, Hp. reflexivity.
    + destruct (decide (label last = operationName)) as [Hlabel|Hlabel].
      * destruct (commit_implant operationName ed w p0 f last older t from to
                    Hdoc Hquiet Hdiff Hfrom Hto Himplant Hlabel) as (Hd & Hp & _).
        rewrite Hd, Hp. reflexivity.
      * destruct (commit_new_transaction operationName ed w p0 f (last :: older) t
                    from to Hdoc Hquiet Hdiff Hfrom Hto) as (Hd & Hp & _).
        { right. intros last' [= <-]. exact Hlabel. }
        rewrite Hd, Hp. reflexivity.
  - destruct (commit_new_transaction operationName ed w p0 f undo t from to
                Hdoc Hquiet Hdiff Hfrom Hto (or_introl Himplant)) as (Hd & Hp & _).
    rewrite Hd, Hp. reflexivity.
Qed.

End CommitProperties.

(** X12 at a commit whose [Transaction::commit] throws: the history is as
    before. *)
Lemma commit_keeps_older_history_witness :
  let p := [rgba 1 2 3 255] in
  let old := mkCmdSequence "Load Palette" [SetPalette 0 p] in
  let document := sample_document p [old] in
  let w := sample_world [rgba 9 2 3 255] [true] (Some document) in
  exists document',
    activeDocument (@updateCurrentSpritePalette failing_doc "Color Change"
                      (sample_editor true p, w)).2 = Some document'
    /\ undoHistory document' = [old].
Proof.
  destruct (@commit_keeps_older_history failing_doc "Color Change"
              (sample_editor true [rgba 1 2 3 255])
              (sample_world [rgba 9 2 3 255] [true]
                 (Some (sample_document [rgba 1 2 3 255]
                          [mkCmdSequence "Load Palette" [SetPalette 0 [rgba 1 2 3 255]]])))
              (sample_document [rgba 1 2 3 255]
                 [mkCmdSequence "Load Palette" [SetPalette 0 [rgba 1 2 3 255]]])
              eq_refl) as (document' & Hd & _).
  exists document'. split; [exact Hd|].
  vm_compute in Hd. injection Hd as <-. reflexivity.
Defined.

(** X13 at a first commit on a document with an empty history. *)
Lemma commit_synchronizes_sprite_palette_witness :
  let p := [rgba 1 2 3 255] in
  let live := [rgba 9 2 3 255] in
  let w := sample_world live [true] (Some (sample_document p [])) in
  activeDocument (@updateCurrentSpritePalette quiet_doc "Color Change"
                    (sample_editor false p, w)).2 ≫= sprite
  = Some (mkSprite 0 live).
Proof.
  exact (@commit_synchronizes_sprite_palette quiet_doc "Color Change"
           (sample_editor false [rgba 1 2 3 255])
           (sample_world [rgba 9 2 3 255] [true]
              (Some (sample_document [rgba 1 2 3 255] [])))
           [rgba 1 2 3 255] 0 [] None 0 0
           eq_refl (fun _ _ => eq_refl) eq_refl ltac:(lia) ltac:(lia)).
Defined.

(** ** The window across its events *)

Section WindowProperties.
Context `{!Gfx} `{!DocLayer} `{!AppColor}.

(** X14: whatever events reach a window after its construction, between
    any two of them its colour type is RGB, HSV or HSL and is the one the
    sliders and the buttons were last given, the hex entry is not
    guarded, no broadcast of its own is under way, the implant flag is set
    exactly while the redraw timer runs, and the baseline palette has the
    size of the current palette, so that a relative edit finds a baseline
    colour for every entry of the palette it loops over. *)
Theorem window_stays_well_formed (w0 : World) (es : list Window.Event) :
  let '(ui, (ed, w)) := Window.run es (Window.PaletteEntryEditor_new w0) in
  (m_type ed = RgbType \/ m_type ed = HsvType \/ m_type ed = HslType)
  /\ sliders_type ui = Some (m_type ed)
  /\ selected_button ui = button_of (m_type ed)
  /\ m_disableHexUpdate ui = false
  /\ m_selfPalChange ed = false
  /\ m_implantChange ed = isRunning ed
  /\ length (m_fromPalette ed) = length (current_palette w)
  /\ forall c, (c < length (current_palette w))%nat -> is_Some (m_fromPalette ed !! c).
Proof.
  pose proof (run_well_formed es _ (PaletteEntryEditor_new_well_formed w0)) as Hs.
  destruct (Window.run es (Window.PaletteEntryEditor_new w0)) as [ui [ed w]].
  destruct Hs as ((Hty & Hself & Hi & Hl) & Ht & Hb & Hx). cbn [fst snd] in *.
  repeat split; try assumption.
  intros c Hc. apply lookup_lt_is_Some. lia.
Qed.

(** X15: the handler of the hex entry never writes to the hex entry and
    leaves its guard off, whatever the guard was; any other event that
    reaches a window whose guard is off gives the hex entry every colour
    it gives the sliders. *)
Theorem hex_entry_is_guarded :
  (forall color s,
     m_disableHexUpdate (Window.onColorHexEntryChange color s).1 = false
     /\ forall c, HexColorEntry_setColor c
                  ∉ new_calls s (Window.onColorHexEntryChange color s))
  /\ (forall e s,
        m_disableHexUpdate s.1 = false ->
        m_selfPalChange s.2.1 = false ->
        (forall color, e <> Window.HexColorEntry_ColorChange color) ->
        m_disableHexUpdate (Window.handle e s).1 = false
        /\ shown_in_both (new_calls s (Window.handle e s))).
Proof.
  split.
  - intros color [[b l] [ed w]]. unfold Window.onColorHexEntryChange, Window.setColor.
    cbn [with_disableHexUpdate m_disableHexUpdate ui_call negb fst snd].
    split; [reflexivity|]. intros c.
    unfold new_calls, ui_call. cbn [fst ui_calls with_disableHexUpdate].
    rewrite <- ?app_assoc, drop_app_length. cbn [app].
    intros Hc. repeat (apply elem_of_cons in Hc as [Hc|Hc]; [discriminate|]).
    inversion Hc.
  - intros e s Hx Hself He.
    destruct (adds_handle e s Hx Hself He) as (Hflag & t & Ht & Hp).
    split; [congruence|]. rewrite (new_calls_added _ _ t Ht). exact Hp.
Qed.

(** X16: whatever the message, timer messages included, the handler of
    messages makes one call on the side of the widgets, the call of the
    handler of the base class with the same message, and makes it last;
    it calls none of the widgets of the window, in either phase of the
    redraw timer: the broadcast of the second phase runs the slot
    [onPalChange] under [m_selfPalChange], which then refreshes
    nothing.  The guard of the hex entry is left as it was. *)
Theorem timer_calls_no_widget (msg : Message) (s : Window.State) :
  new_calls s (Window.onProcessMessage msg s) = [Base_onProcessMessage msg]
  /\ m_disableHexUpdate (Window.onProcessMessage msg s).1 = m_disableHexUpdate s.1.
Proof.
  destruct s as [ui st]. rewrite Window_onProcessMessage. cbn [fst snd].
  split; [|reflexivity].
  unfold new_calls, ui_call. cbn [fst ui_calls]. apply drop_app_length.
Qed.

End WindowProperties.

(** ** The command *)

Section CommandProperties.
Context `{!UiLayer}.

(** X17: with a ui library whose [openWindow] leaves the window visible
    and whose [closeWindow] leaves it hidden, what [onChecked] answers
    after [onExecute] follows from the flags of the command: a "switch"
    that is not also a "close" flips it, a plain "open" makes it true, a
    plain "close" makes it false and creates no window, and a command with
    no flag set leaves the visibility of an existing window as it is. *)
Theorem onChecked_after_onExecute (cmd : PaletteEditorCommand) (screen : Screen)
    (app : App) :
  (forall frame, isVisible (openWindow frame) = true) ->
  (forall frame, isVisible (closeWindow frame) = false) ->
  let app' := onExecute cmd screen app in
  (m_switch cmd = true -> m_close cmd = false ->
     onChecked app' = negb (onChecked app))
  /\ (m_open cmd = true -> m_switch cmd = false -> m_close cmd = false ->
        onChecked app' = true)
  /\ (m_close cmd = true -> m_open cmd = false -> m_switch cmd = false ->
        onChecked app' = false)
  /\ (m_close cmd = true -> g_window app = None -> app' = app)
  /\ (m_open cmd = false -> m_switch cmd = false -> m_close cmd = false ->
        is_Some (g_window app) -> onChecked app' = onChecked app).
Proof.
  intros Hopen Hclose. cbn zeta.
  rewrite (onChecked_onExecute cmd screen app Hopen Hclose).
  split; [|split; [|split; [|split]]].
  - intros -> ->. unfold onChecked.
    destruct (g_window app) as [[frame s]|]; [|reflexivity].
    destruct (isVisible frame); reflexivity.
  - intros -> -> ->.
    destruct (g_window app) as [[frame s]|]; [|reflexivity].
    rewrite andb_false_r. reflexivity.
  - intros -> -> ->.
    destruct (g_window app) as [[frame s]|]; [|reflexivity].
    destruct (isVisible frame); reflexivity.
  - intros Hc Hnone. unfold onExecute. rewrite Hnone, Hc. reflexivity.
  - intros -> -> -> [[frame s] Hsome]. unfold onChecked. rewrite Hsome.
    rewrite andb_false_r. reflexivity.
Qed.

(** X18: the default bounds of a window that is opened while not visible
    put its right edge against the tool bar and its bottom edge against
    the status bar, keep its height, and make it at least as wide as it
    was and as half the display. *)
Theorem default_bounds_dock (screen : Screen) (frame : Frame) :
  let rect := default_bounds screen frame in
  Rect_x rect + Rect_w rect = display_w screen - ToolBar_w screen
  /\ Rect_y rect + Rect_h rect = display_h screen - StatusBar_h screen
  /\ Rect_h rect = Rect_h (bounds frame)
  /\ Rect_w (bounds frame) <= Rect_w rect
  /\ Z.quot (display_w screen) 2 <= Rect_w rect
  /\ (Rect_w rect = Rect_w (bounds frame) \/ Rect_w rect = Z.quot (display_w screen) 2).
Proof.
  cbn zeta. unfold default_bounds, MAX. cbn [Rect_x Rect_y Rect_w Rect_h].
  destruct (Rect_w (bounds frame) >? display_w screen ÷ 2) eqn:E; lia.
Qed.

End CommandProperties.

(** X19: loading parameters sets the open, close and switch flags from
    those parameters alone, true for the text "true" and false for
    anything else, a missing text included, so that the open flag a new
    command starts with is lost; the target survives a load that names
    neither "foreground" nor "background". *)
Theorem onLoadParams_flags (params : string -> string) (cmd : PaletteEditorCommand) :
  let cmd' := onLoadParams params cmd in
  (m_open cmd' = true <-> params "open" = "true")
  /\ (m_close cmd' = true <-> params "close" = "true")
  /\ (m_switch cmd' = true <-> params "switch" = "true")
  /\ (params "target" = "foreground" -> m_background cmd' = false)
  /\ (params "target" = "background" -> m_background cmd' = true)
  /\ (params "target" <> "foreground" -> params "target" <> "background" ->
        m_background cmd' = m_background cmd)
  /\ onLoadParams params cmd' = cmd'.
Proof.
  cbn zeta. unfold onLoadParams. cbn [m_open m_close m_switch m_background].
  repeat match goal with
         | |- context [bool_decide ?P] => destruct (bool_decide_reflect P)
         end;
    repeat split; intros; try congruence; try discriminate.
Qed.

Section CommandButton.
Context `{!UiLayer}.

(** X20: with a ui library whose [openWindow] leaves the window visible
    and whose [closeWindow] leaves it hidden, whenever [onExecute] tells
    the colour bar the state of its palette editor button, the state it
    tells is the visibility the window ends with. *)
Theorem button_follows_window (cmd : PaletteEditorCommand) (screen : Screen)
    (app : App) (state : bool) :
  (forall frame, isVisible (openWindow frame) = true) ->
  (forall frame, isVisible (closeWindow frame) = false) ->
  let app' := onExecute cmd screen app in
  ColorBar_setPaletteEditorButtonState state
    ∈ drop (length (app_calls app)) (app_calls app') ->
  state = onChecked app'.
Proof.
  intros Hopen Hclose. cbn zeta. unfold onExecute, onChecked, app_calls.
  destruct app as [[[frame [[b l] ed]]|] w]; cbn [g_window world].
  - destruct (isVisible frame && (m_switch cmd || m_close cmd)).
    + cbn. rewrite <- ?app_assoc, drop_app_length, Hclose. cbn [app].
      intros Hc. repeat (apply elem_of_cons in Hc as [Hc|Hc]; [congruence|]).
      inversion Hc.
    + unfold show_window, Window.setColor.
      destruct (m_switch cmd || m_open cmd), b; cbn; unfold ui_call; cbn;
        rewrite <- ?app_assoc, drop_app_length, ?Hopen; cbn [app];
        intros Hc; repeat (apply elem_of_cons in Hc as [Hc|Hc]; [congruence|]);
        inversion Hc.
  - destruct (m_close cmd); [cbn; intros Hc; inversion Hc|].
    unfold show_window, Window.setColor, Window.PaletteEntryEditor_new,
      Window.selectColorType, Window.resetRelativeInfo.
    destruct (m_switch cmd || m_open cmd); cbn; rewrite ?Hopen;
      intros Hc; repeat (apply elem_of_cons in Hc as [Hc|Hc]; [congruence|]);
      inversion Hc.
Qed.

End CommandButton.

(** X21: while the explicit selection is empty, the label [setColor]
    writes for the picks of the palette view is " Entry: i" when the
    current entry [i] is addressable, and " No Entry" when it is not. *)
Theorem label_of_current_entry (palView : PaletteView) :
  picks (getSelectedEntries palView) = 0 ->
  let i := getSelectedEntry palView in
  let size := Z.of_nat (length (getSelectedEntries palView)) in
  (0 <= i < size -> entry_label (getPicks palView) = " Entry: " +:+ pretty i)
  /\ (~ (0 <= i < size) -> entry_label (getPicks palView) = " No Entry").
Proof.
  intros Hz. cbn zeta. split.
  - intros Hi.
    pose proof (entry_label_none_or_one (getPicks palView)) as (_ & Hone).
    transitivity (" Entry: " +:+ pretty (Z.of_nat (Z.to_nat (getSelectedEntry palView)))).
    + apply Hone. intros c. rewrite (getPicks_fallback palView Hz Hi c). lia.
    + rewrite Z2Nat.id by lia. reflexivity.
  - intros Hi.
    pose proof (entry_label_none_or_one (getPicks palView)) as (Hnone & _).
    apply Hnone. apply getPicks_none; assumption.
Qed.

(** X21 at an empty selection of three entries whose current entry is 2,
    then -1. *)
Lemma label_of_current_entry_witness :
  entry_label (getPicks (mkPaletteView [false; false; false] 2)) = " Entry: 2"
  /\ entry_label (getPicks (mkPaletteView [false; false; false] (-1))) = " No Entry".
Proof.
  split.
  - apply (proj1 (label_of_current_entry (mkPaletteView [false; false; false] 2) eq_refl)).
    cbn. lia.
  - apply (proj2 (label_of_current_entry (mkPaletteView [false; false; false] (-1))
                    eq_refl)).
    cbn. lia.
Defined.

(** X14 at a window that has seen a relative edit, a firing of the timer,
    a click on the HSV button and a palette of three entries loaded by
    another component. *)
Lemma window_stays_well_formed_witness :
  let w0 := sample_world [rgba 1 2 3 255] [true] None in
  let es := [Window.Sliders_ColorChange (mkEvent Relative Red (rgb_color 11 2 3 255) 10);
             Window.Window_Message (kTimerMessage true);
             Window.ColorType_ItemChange HSV_MODE;
             Window.Outside_palette [rgba 1 1 1 255; rgba 2 2 2 255; rgba 3 3 3 255]] in
  let '(ui, (ed, w)) :=
    @Window.run zero_gfx quiet_doc sample_color es
      (@Window.PaletteEntryEditor_new w0) in
  (m_type ed = RgbType \/ m_type ed = HsvType \/ m_type ed = HslType)
  /\ sliders_type ui = Some (m_type ed)
  /\ selected_button ui = button_of (m_type ed)
  /\ m_disableHexUpdate ui = false
  /\ m_selfPalChange ed = false
  /\ m_implantChange ed = isRunning ed
  /\ length (m_fromPalette ed) = length (current_palette w)
  /\ forall c, (c < length (current_palette w))%nat -> is_Some (m_fromPalette ed !! c).
Proof.
  exact (@window_stays_well_formed zero_gfx quiet_doc sample_color
           (sample_world [rgba 1 2 3 255] [true] None)
           [Window.Sliders_ColorChange (mkEvent Relative Red (rgb_color 11 2 3 255) 10);
            Window.Window_Message (kTimerMessage true);
            Window.ColorType_ItemChange HSV_MODE;
            Window.Outside_palette [rgba 1 1 1 255; rgba 2 2 2 255; rgba 3 3 3 255]]).
Defined.

(** X15 at a slider change that reaches a new window. *)
Lemma hex_entry_is_guarded_witness :
  let s := @Window.PaletteEntryEditor_new (sample_world [rgba 1 2 3 255] [true] None) in
  let e := Window.Sliders_ColorChange (mkEvent Absolute Red (rgb_color 9 2 3 255) 0) in
  m_disableHexUpdate (@Window.handle zero_gfx quiet_doc sample_color e s).1 = false
  /\ shown_in_both (new_calls s (@Window.handle zero_gfx quiet_doc sample_color e s)).
Proof.
  apply (proj2 (@hex_entry_is_guarded zero_gfx quiet_doc sample_color)).
  - reflexivity.
  - reflexivity.
  - intros color. discriminate.
Defined.

(** X17 at a switch command, executed twice from an application without a
    window. *)
Lemma onChecked_after_onExecute_witness :
  let cmd := mkPaletteEditorCommand false false true false in
  let app0 := @mkApp sample_ui None (sample_world [rgba 1 2 3 255] [true] None) in
  let app1 := @onExecute sample_ui cmd sample_screen app0 in
  let app2 := @onExecute sample_ui cmd sample_screen app1 in
  onChecked app1 = negb (onChecked app0) /\ onChecked app2 = negb (onChecked app1).
Proof.
  cbn zeta. split.
  - apply (proj1 (@onChecked_after_onExecute sample_ui
             (mkPaletteEditorCommand false false true false) sample_screen
             (@mkApp sample_ui None (sample_world [rgba 1 2 3 255] [true] None))
             (fun _ => eq_refl) (fun _ => eq_refl)));
      reflexivity.
  - apply (proj1 (@onChecked_after_onExecute sample_ui
             (mkPaletteEditorCommand false false true false) sample_screen
             (@onExecute sample_ui
                (mkPaletteEditorCommand false false true false) sample_screen
                (@mkApp sample_ui None (sample_world [rgba 1 2 3 255] [true] None)))
             (fun _ => eq_refl) (fun _ => eq_refl)));
      reflexivity.
Defined.

(** X19 at parameters that name a switch and no target. *)
Lemma onLoadParams_flags_witness :
  let params := fun name : string => if bool_decide (name = "switch") then "true" else "" in
  let cmd := mkPaletteEditorCommand true false false true in
  m_switch (onLoadParams params cmd) = true
  /\ m_background (onLoadParams params cmd) = true.
Proof.
  pose proof (onLoadParams_flags
                (fun name : string => if bool_decide (name = "switch") then "true" else "")
                (mkPaletteEditorCommand true false false true))
    as (_ & _ & Hswitch & _ & _ & Htarget & _).
  split.
  - apply Hswitch. reflexivity.
  - apply Htarget; discriminate.
Defined.

(** X20 at an open command executed on an application without a window. *)
Lemma button_follows_window_witness :
  let cmd := mkPaletteEditorCommand true false false false in
  let app0 := @mkApp sample_ui None (sample_world [rgba 1 2 3 255] [true] None) in
  true = onChecked (@onExecute sample_ui cmd sample_screen app0).
Proof.
  apply (@button_follows_window sample_ui
           (mkPaletteEditorCommand true false false false) sample_screen
           (@mkApp sample_ui None (sample_world [rgba 1 2 3 255] [true] None)) true
           (fun _ => eq_refl) (fun _ => eq_refl)).
  vm_compute. do 7 right. left.
Defined.

(** ** Alpha edits and the colour the command shows *)

Section AlphaEdits.
Context `{!Gfx}.

(** X22: with several entries picked, an absolute edit of [Alpha] gives
    each picked entry the alpha of the payload.  In RGB mode its red,
    green and blue stay as they are; in HSV and HSL mode they are
    converted to that colour space and back, so that they stay as they are
    exactly when that round trip gives them back. *)
Theorem absolute_alpha_edit (m_type : ColorType) (palView : PaletteView)
    (color : Color) (palette : Palette) (c : nat) (x : Z) :
  picks (getPicks palView) <> 1 ->
  pick_at (getPicks palView) c = true ->
  palette !! c = Some x ->
  let rgb := mkRgb (rgba_getr x) (rgba_getg x) (rgba_getb x) in
  let back :=
    match m_type with
    | HsvType => Rgb_of_Hsv (Hsv_of_Rgb rgb)
    | HslType => Rgb_of_Hsl (Hsl_of_Rgb rgb)
    | _ => rgb
    end in
  let new := getEntry (setAbsolutePaletteEntryChannel m_type palView Alpha color
                         palette) c in
  (m_type = RgbType \/ m_type = HsvType \/ m_type = HslType ->
     new = rgba (red back) (green back) (blue back) (getAlpha color))
  /\ (m_type = RgbType \/ m_type = HsvType \/ m_type = HslType ->
      back = rgb ->
      rgba_getr new = rgba_getr x /\ rgba_getg new = rgba_getg x
      /\ rgba_getb new = rgba_getb x /\ rgba_geta new = uint8 (getAlpha color)).
Proof.
  intros Hmany Hpick Hx. cbn zeta. unfold getEntry.
  rewrite setAbsolutePaletteEntryChannel_lookup, Hpick, Hx.
  cbn [fmap option_fmap option_map default]. unfold id, absolute_entry.
  destruct (Z.eqb_spec (picks (getPicks palView)) 1) as [|_]; [contradiction|].
  pose proof (channel_range x) as (Hr & Hg & Hb & Ha).
  split.
  - intros [-> | [-> | ->]]; reflexivity.
  - intros Htype Hback.
    assert (forall r g b, mkRgb r g b = mkRgb (rgba_getr x) (rgba_getg x) (rgba_getb x) ->
              let new := rgba r g b (getAlpha color) in
              rgba_getr new = rgba_getr x /\ rgba_getg new = rgba_getg x
              /\ rgba_getb new = rgba_getb x /\ rgba_geta new = uint8 (getAlpha color))
      as Hsame.
    { intros r g b [= -> -> ->]. cbn zeta.
      rewrite rgba_getr_rgba, rgba_getg_rgba, rgba_getb_rgba, rgba_geta_rgba.
      repeat split; try apply uint8_small; assumption || reflexivity. }
    destruct Htype as [-> | [-> | ->]]; cbn beta iota zeta in *.
    + apply Hsame. reflexivity.
    + rewrite Hback. apply Hsame. reflexivity.
    + rewrite Hback. apply Hsame. reflexivity.
Qed.

End AlphaEdits.

(** X22 at a black entry, in HSV mode over conversions that give black. *)
Lemma absolute_alpha_edit_witness :
  let palView := mkPaletteView [true; true] 0 in
  let new := getEntry (@setAbsolutePaletteEntryChannel zero_gfx HsvType palView Alpha
                         (rgb_color 9 9 9 77) [rgba 1 2 3 4; rgba 0 0 0 8]) 1 in
  rgba_getr new = 0 /\ rgba_getg new = 0 /\ rgba_getb new = 0 /\ rgba_geta new = uint8 77.
Proof.
  exact (proj2 (@absolute_alpha_edit zero_gfx HsvType (mkPaletteView [true; true] 0)
                  (rgb_color 9 9 9 77) [rgba 1 2 3 4; rgba 0 0 0 8] 1%nat (rgba 0 0 0 8)
                  ltac:(vm_compute; discriminate) eq_refl eq_refl)
           ltac:(auto) eq_refl).
Defined.

Section CommandColour.
Context `{!UiLayer}.

(** X23: [onExecute] shows the target colour unless it returns early: when
    it closes a visible window, or finds no window and is a "close", it
    gives the sliders no colour; in every other case it gives them the
    background colour of the preferences when [m_background] is set and
    the foreground colour when it is not, and no other colour. *)
Theorem onExecute_shows_target_colour (cmd : PaletteEditorCommand) (screen : Screen)
    (app : App) :
  let app' := onExecute cmd screen app in
  let added := drop (length (app_calls app)) (app_calls app') in
  let returns_early :=
    match g_window app with
    | Some (frame, _) => isVisible frame && (m_switch cmd || m_close cmd)
    | None => m_close cmd
    end in
  let target := if m_background cmd then bgColor screen else fgColor screen in
  forall color,
    Sliders_setColor color ∈ added <-> returns_early = false /\ color = target.
Proof.
  cbn zeta. intros color. unfold onExecute, app_calls.
  destruct app as [[[frame [[b l] ed]]|] w]; cbn [g_window world].
  - destruct (isVisible frame && (m_switch cmd || m_close cmd)).
    + cbn. rewrite <- ?app_assoc, drop_app_length. cbn [app]. split.
      * intros Hc. repeat (apply elem_of_cons in Hc as [Hc|Hc]; [discriminate|]).
        inversion Hc.
      * intros [[=] _].
    + unfold show_window, Window.setColor.
      destruct (m_switch cmd || m_open cmd), b; cbn; unfold ui_call; cbn;
        rewrite <- ?app_assoc, drop_app_length; cbn [app]; (split;
          [ intros Hc;
            repeat (apply elem_of_cons in Hc as [Hc|Hc];
                    [first [discriminate | injection Hc as ->; split; reflexivity]|]);
            inversion Hc
          | intros [_ ->]; repeat first [left | right] ]).
  - destruct (m_close cmd).
    + cbn. split; [intros Hc; inversion Hc|intros [[=] _]].
    + unfold show_window, Window.setColor, Window.PaletteEntryEditor_new,
        Window.selectColorType, Window.resetRelativeInfo.
      destruct (m_switch cmd || m_open cmd); cbn; (split;
        [ intros Hc;
          repeat (apply elem_of_cons in Hc as [Hc|Hc];
                  [first [discriminate | injection Hc as ->; split; reflexivity]|]);
          inversion Hc
        | intros [_ ->]; repeat first [left | right] ]).
Qed.

End CommandColour.

(** X23 at a command whose target is the background, executed on an
    application without a window. *)
Lemma onExecute_shows_target_colour_witness :
  let cmd := mkPaletteEditorCommand true false false true in
  let app0 := @mkApp sample_ui None (sample_world [rgba 1 2 3 255] [true] None) in
  Sliders_setColor (bgColor sample_screen)
    ∈ drop (length (app_calls app0))
        (app_calls (@onExecute sample_ui cmd sample_screen app0)).
Proof.
  apply (@onExecute_shows_target_colour sample_ui
           (mkPaletteEditorCommand true false false true) sample_screen
           (@mkApp sample_ui None (sample_world [rgba 1 2 3 255] [true] None))
           (bgColor sample_screen)).
  split; reflexivity.
Defined.
